(** * Ctopia: a shallow embedding of the live state engine

    The development follows the Go sources of the hub:
    - [internal/settings]  : feature profiles and their defaults,
    - [internal/api]       : the auth middleware, the rate limiter and the
                             state broadcaster,
    - [internal/docker]    : stats aggregation and stack reconciliation.

    Conventions.  Go strings are byte strings ([string]); [uint64],
    [int64] and [time.Time] values are integers ([Z]); Go maps are finite
    maps ([gmap]); a [float64] is an IEEE 754 binary64 value
    ([spec_float]) and its operations round to nearest, ties to even, as
    specified in the Standard Library's [SpecFloat].  A run-time panic
    is an explicit outcome. *)

From Stdlib Require Import ZArith List String Ascii Bool Lia Permutation.
From Stdlib Require SpecFloat.
From stdpp Require Import gmap strings list fin_maps.

Set Default Proof Using "Type".

(* ===================================================================== *)
(** ** Go runtime helpers *)
(* ===================================================================== *)

Module Go.

(** The three ways a Go call can end: a value, a returned [error], or a
    run-time panic. *)
Inductive outcome (A : Type) : Type :=
| Ok (a : A)
| Err (msg : string)
| Panic (msg : string).
Arguments Ok {A} a.
Arguments Err {A} msg.
Arguments Panic {A} msg.

Definition bind {A B} (x : outcome A) (k : A -> outcome B) : outcome B :=
  match x with
  | Ok a => k a
  | Err e => Err e
  | Panic p => Panic p
  end.

Fixpoint mapM {A B} (f : A -> outcome B) (l : list A) : outcome (list B) :=
  match l with
  | [] => Ok []
  | x :: l' => bind (f x) (fun y => bind (mapM f l') (fun ys => Ok (y :: ys)))
  end.

(** [s[:n]]: the first [n] bytes, a panic when [n] exceeds [len(s)]. *)
Definition slice_to (s : string) (n : nat) : outcome string :=
  if (n <=? String.length s)%nat
  then Ok (String.substring 0 n s)
  else Panic "slice bounds out of range".

(** [strings.HasPrefix] and [strings.TrimPrefix]. *)
Definition HasPrefix (s p : string) : bool := String.prefix p s.

Definition TrimPrefix (s p : string) : string :=
  if HasPrefix s p
  then String.substring (String.length p) (String.length s - String.length p) s
  else s.

(** Reading a [map[string]V]: the zero value when the key is absent. *)
Definition index {V} (zero : V) (m : gmap string V) (k : string) : V :=
  match m !! k with
  | Some v => v
  | None => zero
  end.

(** [for k := range m]: the runtime picks the iteration order.  The
    order is driven by a seed; every seed yields a permutation of the
    keys. *)
Fixpoint insert_at {A} (k : nat) (x : A) (l : list A) : list A :=
  match k, l with
  | O, _ => x :: l
  | S _, [] => [x]
  | S k', y :: l' => y :: insert_at k' x l'
  end.

Fixpoint shuffle {A} (seed : list nat) (l : list A) : list A :=
  match l with
  | [] => []
  | x :: l' => insert_at (hd O seed) x (shuffle (tl seed) l')
  end.

Definition range_keys {V} (seed : list nat) (m : gmap string V) : list string :=
  shuffle seed (map fst (map_to_list m)).

End Go.

Import Go.

(** Go's [float64]: binary64, 53 bits of precision, exponent of the
    infinities 1024. *)
Module float64.

Import SpecFloat.

Definition t : Type := spec_float.

Definition prec : Z := 53.
Definition emax : Z := 1024.

(** The zero value of the type, [+0]. *)
Definition zero : t := S754_zero false.

(** The conversion [float64(n)] of an integer: the nearest binary64
    value, ties to even. *)
Definition of_Z (n : Z) : t := binary_normalize prec emax n 0 false.

(** [x - y], [x * y] and [x / y]. *)
Definition sub : t -> t -> t := SFsub prec emax.
Definition mul : t -> t -> t := SFmul prec emax.
Definition div : t -> t -> t := SFdiv prec emax.

(** [x < y], [x <= y] and [x == y]; all three are false on a NaN. *)
Definition ltb : t -> t -> bool := SFltb.
Definition leb : t -> t -> bool := SFleb.
Definition eqb : t -> t -> bool := SFeqb.

End float64.

#[global] Instance outcome_bind : MBind Go.outcome :=
  fun A B f x => Go.bind x f.
#[global] Instance outcome_ret : MRet Go.outcome := fun A a => Go.Ok a.

(* ===================================================================== *)
(** ** internal/settings *)
(* ===================================================================== *)

Module Settings.

Record ContainerFeatures := {
  cView : bool; cStart : bool; cStop : bool; cRestart : bool; cDelete : bool }.

Record ComposeFeatures := {
  sView : bool; sStart : bool; sStop : bool; sRestart : bool }.

Record ImageFeatures := {
  iView : bool; iDelete : bool; iPrune : bool; iPull : bool }.

Record FeatureSet := {
  Containers : ContainerFeatures;
  Composes : ComposeFeatures;
  Images : ImageFeatures }.

Record Settings := {
  AuthlessMode : bool;
  RemoveVolumesOnStop : bool;
  AdminFeatures : FeatureSet;
  PublicFeatures : FeatureSet }.

(** Go zero values. *)
Definition zeroFeatureSet : FeatureSet :=
  {| Containers := {| cView := false; cStart := false; cStop := false;
                      cRestart := false; cDelete := false |};
     Composes := {| sView := false; sStart := false; sStop := false;
                    sRestart := false |};
     Images := {| iView := false; iDelete := false; iPrune := false;
                  iPull := false |} |}.

Definition zeroSettings : Settings :=
  {| AuthlessMode := false; RemoveVolumesOnStop := false;
     AdminFeatures := zeroFeatureSet; PublicFeatures := zeroFeatureSet |}.

Definition isZeroFeatureSet (f : FeatureSet) : bool :=
  negb (cView (Containers f)) && negb (cStart (Containers f)) &&
  negb (cStop (Containers f)) && negb (cRestart (Containers f)) &&
  negb (cDelete (Containers f)) &&
  negb (sView (Composes f)) && negb (sStart (Composes f)) &&
  negb (sStop (Composes f)) && negb (sRestart (Composes f)) &&
  negb (iView (Images f)) && negb (iDelete (Images f)) &&
  negb (iPrune (Images f)) && negb (iPull (Images f)).

Definition defaultAdminFeatures : FeatureSet :=
  {| Containers := {| cView := true; cStart := true; cStop := true;
                      cRestart := true; cDelete := true |};
     Composes := {| sView := true; sStart := true; sStop := true;
                    sRestart := true |};
     Images := {| iView := true; iDelete := true; iPrune := true;
                  iPull := true |} |}.

Definition defaultPublicFeatures : FeatureSet :=
  {| Containers := {| cView := true; cStart := false; cStop := false;
                      cRestart := false; cDelete := false |};
     Composes := {| sView := true; sStart := false; sStop := false;
                    sRestart := false |};
     Images := {| iView := false; iDelete := false; iPrune := false;
                  iPull := false |} |}.

Definition applyDefaults (cur : Settings) : Settings :=
  let cur1 :=
    if isZeroFeatureSet (AdminFeatures cur)
    then {| AuthlessMode := AuthlessMode cur;
            RemoveVolumesOnStop := RemoveVolumesOnStop cur;
            AdminFeatures := defaultAdminFeatures;
            PublicFeatures := PublicFeatures cur |}
    else cur in
  if isZeroFeatureSet (PublicFeatures cur1)
  then {| AuthlessMode := AuthlessMode cur1;
          RemoveVolumesOnStop := RemoveVolumesOnStop cur1;
          AdminFeatures := AdminFeatures cur1;
          PublicFeatures := defaultPublicFeatures |}
  else cur1.

(** What [os.ReadFile] followed by [json.Unmarshal] can find at the
    settings path.  A document written by [save] decodes to the value
    that was saved; a malformed document leaves [partial] in the
    receiver and may still decode in the old flat format. *)
Inductive SettingsFile :=
| NotExist
| ReadError (msg : string)
| Document (st : Settings)
| Malformed (partial : Settings) (old : option (bool * bool)).

(** [load] on a fresh service ([current] is the zero value). *)
Definition load (file : SettingsFile) : outcome Settings :=
  match file with
  | NotExist => Ok (applyDefaults zeroSettings)
  | ReadError msg => Err ("reading settings: " ++ msg)
  | Document st => Ok (applyDefaults st)
  | Malformed partial old =>
      let cur :=
        match old with
        | Some (authless, rmvol) =>
            {| AuthlessMode := authless; RemoveVolumesOnStop := rmvol;
               AdminFeatures := AdminFeatures partial;
               PublicFeatures := PublicFeatures partial |}
        | None => partial
        end in
      Ok (applyDefaults cur)
  end.

(** Persisting goes through two library calls, which are parameters
    here: [json_MarshalIndent] gives the bytes of a value ([inl]) or an
    error ([inr]), and [os_WriteFile] either stores the bytes at the
    settings path ([None]) or fails with a message and leaves some file
    behind.  [decode] tells what a later [os.ReadFile] and
    [json.Unmarshal] find in a file that holds the given bytes. *)
Section Persist.

Variable json_MarshalIndent : Settings -> string + string.
Variable os_WriteFile : string -> option (string * SettingsFile).
Variable decode : string -> SettingsFile.

(** [save]: the [error] it returns ([None] is [nil]) and the file at the
    settings path afterwards. *)
Definition save (cur : Settings) (file : SettingsFile)
  : option string * SettingsFile :=
  match json_MarshalIndent cur with
  | inr msg => (Some msg, file)
  | inl data =>
      match os_WriteFile data with
      | Some (msg, remains) => (Some msg, remains)
      | None => (None, decode data)
      end
  end.

(** [Update]: apply the mutator to the value in memory, then persist.
    The result is the returned [error], the value in memory and the file.
    The mutated value stays in memory when [save] fails. *)
Definition Update (fn : Settings -> Settings) (cur : Settings)
    (file : SettingsFile) : option string * Settings * SettingsFile :=
  let cur' := fn cur in
  let '(err, file') := save cur' file in
  (err, cur', file').

End Persist.

(** [NewService] at process start. *)
Definition NewService (file : SettingsFile) : outcome Settings := load file.

(** The mutator of [handleUpdateSettings] for a patch that carries only
    [public_features]. *)
Definition patchPublicFeatures (f : FeatureSet) (st : Settings) : Settings :=
  {| AuthlessMode := AuthlessMode st;
     RemoveVolumesOnStop := RemoveVolumesOnStop st;
     AdminFeatures := AdminFeatures st;
     PublicFeatures := f |}.

End Settings.

(* ===================================================================== *)
(** ** internal/api: the auth middleware *)
(* ===================================================================== *)

Module Api.

Inductive authLevel := authLevelPublic | authLevelAdmin.

(** The part of a request the middleware reads: the value of the
    [Authorization] header ([Header.Get] yields the empty string when the
    header is absent). *)
Record Request := { Authorization : string }.

(** What the middleware does with a request: answer with a status, or
    call the next handler with the auth level stored in the context. *)
Inductive Response :=
| HttpError (body : string) (status : Z)
| Next (level : authLevel).

Definition StatusUnauthorized : Z := 401.
Definition StatusForbidden : Z := 403.

Section Middleware.

(** [cfg.Auth.Enabled], the current settings, and [auth.ValidateToken]
    ([None] is the nil error). *)
Variable authEnabled : bool.
Variable st : Settings.Settings.
Variable ValidateToken : string -> option string.

Definition bearerToken (r : Request) : string :=
  let h := Authorization r in
  if HasPrefix h "Bearer " then TrimPrefix h "Bearer " else "".

Definition isValidToken (r : Request) : bool :=
  let token := bearerToken r in
  negb (String.eqb token "") &&
  match ValidateToken token with None => true | Some _ => false end.

Definition authMiddleware (r : Request) : Response :=
  let authRequired := authEnabled && negb (Settings.AuthlessMode st) in
  if authRequired then
    if negb (isValidToken r)
    then HttpError "unauthorized" StatusUnauthorized
    else Next authLevelAdmin
  else
    let level := if isValidToken r then authLevelAdmin else authLevelPublic in
    Next level.

(** [requireFeature getter] behind [authMiddleware]. *)
Definition requireFeature (getter : Settings.FeatureSet -> bool)
    (level : authLevel) : option Response :=
  let features :=
    match level with
    | authLevelAdmin => Settings.AdminFeatures st
    | authLevelPublic => Settings.PublicFeatures st
    end in
  if negb (getter features)
  then Some (HttpError "feature not enabled" StatusForbidden)
  else None.

End Middleware.

End Api.

(* ===================================================================== *)
(** ** internal/api: the rate limiter *)
(* ===================================================================== *)

Module RateLimit.

Local Open Scope Z_scope.

(** A [time.Time] is its reading in nanoseconds; a [time.Duration] is a
    number of nanoseconds. *)
Definition Time := Z.

Definition Second : Z := 1000000000.
Definition Minute : Z := 60 * Second.

Definition rateLimitMax : nat := 5.
Definition rateLimitWindow : Z := Minute.

(** [t.After(u)] *)
Definition After (t u : Time) : bool := u <? t.

(** The sliding loop shared by [allow] and [gc]: keep, in order, the
    attempts that are after the cutoff. *)
Definition slide (cutoff : Time) (times : list Time) : list Time :=
  List.filter (fun t => After t cutoff) times.

(** [allow], run under the mutex at clock reading [now]: the verdict and
    the new bucket map. *)
Definition allow (now : Time) (ip : string) (buckets : gmap string (list Time))
  : bool * gmap string (list Time) :=
  let cutoff := now - rateLimitWindow in
  let times := Go.index [] buckets ip in
  let valid := slide cutoff times in
  if (rateLimitMax <=? length valid)%nat
  then (false, <[ip := valid]> buckets)
  else (true, <[ip := valid ++ [now]]> buckets).

(** One tick of [gc], at clock reading [now]. *)
Definition gcTick (now : Time) (buckets : gmap string (list Time))
  : gmap string (list Time) :=
  let cutoff := now - rateLimitWindow in
  omap (fun times =>
          let valid := slide cutoff times in
          if (length valid =? 0)%nat then None else Some valid) buckets.

(** A run of [allow] calls from one origin at the given clock readings:
    the verdicts, in order, and the final bucket map. *)
Fixpoint allowAll (ip : string) (clock : list Time)
    (buckets : gmap string (list Time)) : list bool * gmap string (list Time) :=
  match clock with
  | [] => ([], buckets)
  | now :: rest =>
      let '(ok, buckets') := allow now ip buckets in
      let '(oks, buckets'') := allowAll ip rest buckets' in
      (ok :: oks, buckets'')
  end.

End RateLimit.

(* ===================================================================== *)
(** ** The engine client's types (github.com/docker/docker/api/types) *)
(* ===================================================================== *)

Module container.

Module Port.
Record t := { IP : string; PrivatePort : Z; PublicPort : Z; Type_ : string }.
End Port.

(** [container.Summary], the fields the hub reads. *)
Module Summary.
Record t := {
  ID : string;
  Names : list string;
  Image : string;
  State : string;
  Status : string;
  Ports : list Port.t;
  Labels : gmap string string;
  Created : Z }.
End Summary.

Module CPUUsage.
Record t := { TotalUsage : Z; PercpuUsage : list Z }.
End CPUUsage.

Module CPUStats.
Record t := { CPUUsage : CPUUsage.t; SystemUsage : Z; OnlineCPUs : Z }.
End CPUStats.

Module MemoryStats.
Record t := { Usage : Z; Stats : gmap string Z; Limit : Z }.
End MemoryStats.

Module StatsResponse.
Record t := {
  CPUStats : CPUStats.t;
  PreCPUStats : CPUStats.t;
  MemoryStats : MemoryStats.t }.
End StatsResponse.

(** How [ContainerStats], [io.ReadAll] and [json.Unmarshal] can end for
    one identifier. *)
Inductive StatsReply :=
| StatsError (msg : string)
| BodyUnreadable (msg : string)
| BodyUnparseable (msg : string)
| StatsBody (stats : StatsResponse.t).

End container.

(* ===================================================================== *)
(** ** internal/models *)
(* ===================================================================== *)

Module models.

Module Port.
Record t := { IP : string; Host : Z; Container : Z; Protocol : string }.
End Port.

Module Container.
Record t := {
  ID : string;
  FullID : string;
  Name : string;
  Image : string;
  Status : string;
  State : string;
  CPU : float64.t;
  Memory : Z;
  MemoryLimit : Z;
  Ports : list Port.t;
  Created : Z;
  Compose : string;
  Host : string }.
End Container.

Module ComposeService.
Record t := {
  Name : string;
  ContainerID : string;
  Status : string;
  State : string;
  Running : bool }.
End ComposeService.

Module ComposeStack.
Record t := {
  Name : string;
  Path : string;
  Status : string;
  Services : list ComposeService.t;
  Host : string }.
End ComposeStack.

Module WSMessage.
Record t := {
  Type_ : string;
  Containers : list Container.t;
  Composes : list ComposeStack.t;
  Timestamp : Z }.
End WSMessage.

End models.

(** [config.ComposeConfig] *)
Module config.
Module ComposeConfig.
Record t := { Name : string; Path : string }.
End ComposeConfig.
End config.

(* ===================================================================== *)
(** ** internal/docker: stats *)
(* ===================================================================== *)

Module docker.

Import container.

(** [uint64] arithmetic wraps around. *)
Definition u64 : Z := 2 ^ 64.
Definition u64_sub (a b : Z) : Z := ((a - b) mod u64)%Z.
Definition is_u64 (a : Z) : Prop := (0 <= a < u64)%Z.

(** [math.Round]: the nearest integer, halves away from zero; zeros,
    infinities and NaN are returned as they are.  A finite value is
    [m * 2^e]: with [e >= 0] it is an integer already; otherwise the
    integer part of its magnitude is [m] without its last [-e] bits, and
    the first bit dropped tells whether the fraction reaches one half.
    The result has at most 53 bits and the sign of [x]. *)
Definition math_Round (x : float64.t) : float64.t :=
  match x with
  | SpecFloat.S754_finite s m (Zneg k) =>
      let q := Z.shiftr (Zpos m) (Zpos k) in
      let n := if Z.testbit (Zpos m) (Zpos k - 1) then (q + 1)%Z else q in
      SpecFloat.binary_normalize float64.prec float64.emax
        (if s then (- n)%Z else n) 0 s
  | _ => x
  end.

Definition cpuDelta (stats : StatsResponse.t) : float64.t :=
  float64.sub
    (float64.of_Z (CPUUsage.TotalUsage (CPUStats.CPUUsage (StatsResponse.CPUStats stats))))
    (float64.of_Z (CPUUsage.TotalUsage (CPUStats.CPUUsage (StatsResponse.PreCPUStats stats)))).

Definition sysDelta (stats : StatsResponse.t) : float64.t :=
  float64.sub
    (float64.of_Z (CPUStats.SystemUsage (StatsResponse.CPUStats stats)))
    (float64.of_Z (CPUStats.SystemUsage (StatsResponse.PreCPUStats stats))).

Definition numCPU (stats : StatsResponse.t) : float64.t :=
  let n := float64.of_Z (CPUStats.OnlineCPUs (StatsResponse.CPUStats stats)) in
  if float64.eqb n float64.zero
  then float64.of_Z (Z.of_nat (length (CPUUsage.PercpuUsage
                       (CPUStats.CPUUsage (StatsResponse.CPUStats stats)))))
  else n.

Definition calcCPUPercent (stats : StatsResponse.t) : float64.t :=
  if float64.ltb float64.zero (sysDelta stats) &&
     float64.ltb float64.zero (cpuDelta stats) then
    let v := float64.mul
               (float64.mul (float64.div (cpuDelta stats) (sysDelta stats))
                            (numCPU stats))
               (float64.of_Z 100) in
    float64.div (math_Round (float64.mul v (float64.of_Z 100))) (float64.of_Z 100)
  else float64.zero.

(** [calcMemory]: the named results start at zero. *)
Definition calcMemory (stats : StatsResponse.t) : Z * Z :=
  let m := StatsResponse.MemoryStats stats in
  let cache := Go.index 0%Z (MemoryStats.Stats m) "cache" in
  let used := if (cache <? MemoryStats.Usage m)%Z
              then u64_sub (MemoryStats.Usage m) cache
              else 0%Z in
  let limit := MemoryStats.Limit m in
  (used, limit).

(** [fetchStats] for the reply the engine gives: every failure returns
    the zero-valued named results. *)
Definition fetchStats (reply : StatsReply) : float64.t * Z * Z :=
  match reply with
  | StatsError _ => (float64.zero, 0%Z, 0%Z)
  | BodyUnreadable _ => (float64.zero, 0%Z, 0%Z)
  | BodyUnparseable _ => (float64.zero, 0%Z, 0%Z)
  | StatsBody stats =>
      let cpu := calcCPUPercent stats in
      let '(mem, memLim) := calcMemory stats in
      (cpu, mem, memLim)
  end.

(* --------------------------------------------------------------------- *)
(** *** GetContainers *)

Record containerStats := { id : string; cpu : float64.t; mem : Z; memLim : Z }.

(** One goroutine of the fan-out: the sample it sends on the channel and
    the identifiers it asked the engine stats for. *)
Definition statsWorker (ContainerStats : string -> StatsReply)
    (id0 : string) (running : bool) : containerStats * list string :=
  if negb running
  then ({| id := id0; cpu := float64.zero; mem := 0%Z; memLim := 0%Z |}, [])
  else
    let '(c, m, l) := fetchStats (ContainerStats id0) in
    ({| id := id0; cpu := c; mem := m; memLim := l |}, [id0]).

(** Draining the channel into [statsMap], in arrival order. *)
Definition drain (arrivals : list containerStats) : gmap string containerStats :=
  foldl (fun statsMap s => <[id s := s]> statsMap) ∅ arrivals.

Definition zeroStats : containerStats :=
  {| id := ""; cpu := float64.zero; mem := 0%Z; memLim := 0%Z |}.

Definition toPort (p : Port.t) : models.Port.t :=
  {| models.Port.IP := Port.IP p;
     models.Port.Host := Port.PublicPort p;
     models.Port.Container := Port.PrivatePort p;
     models.Port.Protocol := Port.Type_ p |}.

(** The body of the result loop for one listed container. *)
Definition toContainer (statsMap : gmap string containerStats) (c : Summary.t)
  : outcome models.Container.t :=
  let name :=
    match Summary.Names c with
    | n0 :: _ => TrimPrefix n0 "/"
    | [] => "unknown"
    end in
  let ports := map toPort (Summary.Ports c) in
  let s := Go.index zeroStats statsMap (Summary.ID c) in
  short ← slice_to (Summary.ID c) 12;
  Ok {| models.Container.ID := short;
        models.Container.FullID := Summary.ID c;
        models.Container.Name := name;
        models.Container.Image := Summary.Image c;
        models.Container.Status := Summary.Status c;
        models.Container.State := Summary.State c;
        models.Container.CPU := cpu s;
        models.Container.Memory := mem s;
        models.Container.MemoryLimit := memLim s;
        models.Container.Ports := ports;
        models.Container.Created := Summary.Created c;
        models.Container.Compose :=
          Go.index "" (Summary.Labels c) "com.docker.compose.project";
        models.Container.Host := "" |}.

(** [GetContainers].  [listed] is the reply of [ContainerList];
    [schedule] is the order in which the goroutines get to send.  The
    second component is the log of engine stats calls. *)
Definition GetContainers (listed : outcome (list Summary.t))
    (ContainerStats : string -> StatsReply) (schedule : list nat)
  : outcome (list models.Container.t) * list string :=
  match listed with
  | Ok list =>
      let sent :=
        shuffle schedule
          (map (fun c => statsWorker ContainerStats (Summary.ID c)
                           (String.eqb (Summary.State c) "running")) list) in
      let statsMap := drain (map fst sent) in
      (Go.mapM (toContainer statsMap) list, concat (map snd sent))
  | Err e => (Err e, [])
  | Panic p => (Panic p, [])
  end.

End docker.

(* ===================================================================== *)
(** ** internal/docker: stack reconciliation *)
(* ===================================================================== *)

Module compose.

Import container.

(** A decoded YAML value ([any]); the reconciler never looks inside. *)
Inductive any := yamlNode (text : string).

Record composeFile := {
  Name : string;
  Services : gmap string (gmap string any) }.

(** The host the manager runs on: [os.ReadFile] ([None] on error),
    [yaml.Unmarshal] into a [composeFile] ([None] on error) and the two
    [path/filepath] functions. *)
Record Host := {
  ReadFile : string -> option string;
  yaml_Unmarshal : string -> option composeFile;
  filepath_Join : string -> string -> string;
  filepath_Base : string -> string }.

Section Manager.

Variable host : Host.

Definition candidates (dir : string) : list string :=
  [ filepath_Join host dir "docker-compose.yml";
    filepath_Join host dir "docker-compose.yaml";
    filepath_Join host dir "compose.yml";
    filepath_Join host dir "compose.yaml" ].

Fixpoint firstParsed (paths : list string) : option composeFile :=
  match paths with
  | [] => None
  | p :: rest =>
      match ReadFile host p with
      | None => firstParsed rest
      | Some data =>
          match yaml_Unmarshal host data with
          | Some cf => Some cf
          | None => firstParsed rest
          end
      end
  end.

Definition readComposeFile (dir : string) : option composeFile :=
  firstParsed (candidates dir).

Definition resolveProjectName (path : string) : string :=
  match readComposeFile path with
  | Some cf => if negb (String.eqb (Name cf) "") then Name cf
               else filepath_Base host path
  | None => filepath_Base host path
  end.

(** [seed] drives the order of [for name := range cf.Services]. *)
Definition parseServiceNames (seed : list nat) (path : string) : list string :=
  match readComposeFile path with
  | None => []
  | Some cf => Go.range_keys seed (Services cf)
  end.

Definition label (c : Summary.t) (key : string) : string :=
  Go.index "" (Summary.Labels c) key.

(** The first loop of [buildStack]: the last container seen for a service
    label wins. *)
Definition containerByService (dockerContainers : list Summary.t)
  : gmap string Summary.t :=
  foldl (fun m c =>
           let svc := label c "com.docker.compose.service" in
           if negb (String.eqb svc "") then <[svc := c]> m else m)
        ∅ dockerContainers.

(** The body of the service loop for one declared name. *)
Definition serviceOf (byService : gmap string Summary.t) (svcName : string)
  : outcome models.ComposeService.t :=
  match byService !! svcName with
  | Some c =>
      cid ← slice_to (Summary.ID c) 12;
      Ok {| models.ComposeService.Name := svcName;
            models.ComposeService.ContainerID := cid;
            models.ComposeService.Status := Summary.Status c;
            models.ComposeService.State := Summary.State c;
            models.ComposeService.Running :=
              String.eqb (Summary.State c) "running" |}
  | None =>
      Ok {| models.ComposeService.Name := svcName;
            models.ComposeService.ContainerID := "";
            models.ComposeService.Status := "not created";
            models.ComposeService.State := "stopped";
            models.ComposeService.Running := false |}
  end.

(** The service loop, with its two accumulators. *)
Fixpoint serviceLoop (byService : gmap string Summary.t)
    (serviceNames : list string) (running : nat)
    (services : list models.ComposeService.t)
  : outcome (nat * list models.ComposeService.t) :=
  match serviceNames with
  | [] => Ok (running, services)
  | svcName :: rest =>
      svc ← serviceOf byService svcName;
      serviceLoop byService rest
        (if models.ComposeService.Running svc then S running else running)
        (services ++ [svc])
  end.

Definition stackStatus (running declared : nat) : string :=
  if (0 <? running)%nat && (running =? declared)%nat then "running"
  else if (0 <? running)%nat then "partial"
  else "stopped".

Definition buildStack (seed : list nat) (cc : config.ComposeConfig.t)
    (byProject : gmap string (list Summary.t)) : outcome models.ComposeStack.t :=
  let projectName := resolveProjectName (config.ComposeConfig.Path cc) in
  let serviceNames := parseServiceNames seed (config.ComposeConfig.Path cc) in
  let dockerContainers := Go.index [] byProject projectName in
  let byService := containerByService dockerContainers in
  '(running, services) ← serviceLoop byService serviceNames 0 [];
  let status := stackStatus running (length serviceNames) in
  Ok {| models.ComposeStack.Name := config.ComposeConfig.Name cc;
        models.ComposeStack.Path := config.ComposeConfig.Path cc;
        models.ComposeStack.Status := status;
        models.ComposeStack.Services := services;
        models.ComposeStack.Host := "" |}.

(** The grouping loop of [GetComposeStacks]. *)
Definition groupByProject (allContainers : list Summary.t)
  : gmap string (list Summary.t) :=
  foldl (fun byProject c =>
           let proj := label c "com.docker.compose.project" in
           if negb (String.eqb proj "")
           then <[proj := Go.index [] byProject proj ++ [c]]> byProject
           else byProject)
        ∅ allContainers.

(** [GetComposeStacks]; [seeds] gives each stack's range order. *)
Definition GetComposeStacks (listed : outcome (list Summary.t))
    (composes : list config.ComposeConfig.t) (seeds : nat -> list nat)
  : outcome (list models.ComposeStack.t) :=
  allContainers ← listed;
  let byProject := groupByProject allContainers in
  Go.mapM (fun '(i, cc) => buildStack (seeds i) cc byProject)
          (imap (fun i cc => (i, cc)) composes).

End Manager.

End compose.

(* ===================================================================== *)
(** ** internal/api: the state broadcaster *)
(* ===================================================================== *)

Module broadcaster.

(** What [pushState] does to the hub: the non-blocking send offers the
    encoded message on the broadcast channel. *)
Inductive effect :=
| Offer (data : string)
| LogMarshalError (msg : string).

Section PushState.

(** [json.Marshal] of a state message. *)
Variable json_Marshal : models.WSMessage.t -> string + string.

(** [pushState] for the outcomes of the two sub-fetches and the clock
    reading [now]; a panic of a sub-fetch is not recovered. *)
Definition pushState
    (fetchedContainers : outcome (list models.Container.t))
    (fetchedComposes : outcome (list models.ComposeStack.t))
    (now : Z) : outcome (list effect) :=
  containers ←
    match fetchedContainers with
    | Ok cs => Ok cs
    | Err _ => Ok []
    | Panic p => Panic p
    end;
  composes ←
    match fetchedComposes with
    | Ok ss => Ok ss
    | Err _ => Ok []
    | Panic p => Panic p
    end;
  let msg :=
    {| models.WSMessage.Type_ := "state";
       models.WSMessage.Containers := containers;
       models.WSMessage.Composes := composes;
       models.WSMessage.Timestamp := now |} in
  match json_Marshal msg with
  | inr e => Ok [LogMarshalError e]
  | inl data => Ok [Offer data]
  end.

End PushState.

End broadcaster.

(* ===================================================================== *)
(** ** Sample engine data *)
(* ===================================================================== *)

Module samples.

Import container.

Definition cpuStats (total system online : Z) (percpu : list Z) : CPUStats.t :=
  {| CPUStats.CPUUsage :=
       {| CPUUsage.TotalUsage := total; CPUUsage.PercpuUsage := percpu |};
     CPUStats.SystemUsage := system;
     CPUStats.OnlineCPUs := online |}.

(** A sample from an engine that reports its online-CPU count, with a
    page cache smaller than the usage. *)
Definition statsFourCPUs : StatsResponse.t :=
  {| StatsResponse.CPUStats := cpuStats 4000 90000 4 [];
     StatsResponse.PreCPUStats := cpuStats 1000 60000 4 [];
     StatsResponse.MemoryStats :=
       {| MemoryStats.Usage := 5000;
          MemoryStats.Stats := {[ "cache"%string := 1200%Z ]};
          MemoryStats.Limit := 80000 |} |}.

(** A sample from an engine that leaves the online-CPU count at 0 and
    reports two per-CPU entries; its page cache exceeds the usage. *)
Definition statsNoOnlineCount : StatsResponse.t :=
  {| StatsResponse.CPUStats := cpuStats 200 1200 0 [120; 80]%Z;
     StatsResponse.PreCPUStats := cpuStats 100 1000 0 [60; 40]%Z;
     StatsResponse.MemoryStats :=
       {| MemoryStats.Usage := 100;
          MemoryStats.Stats := {[ "cache"%string := 300%Z ]};
          MemoryStats.Limit := 1000 |} |}.

(** One CPU, a CPU delta of 23 against a system delta of 160: the exact
    percentage is 14.375. *)
Definition statsOneCPU : StatsResponse.t :=
  {| StatsResponse.CPUStats := cpuStats 1023 5160 1 [];
     StatsResponse.PreCPUStats := cpuStats 1000 5000 1 [];
     StatsResponse.MemoryStats :=
       {| MemoryStats.Usage := 100;
          MemoryStats.Stats := ∅;
          MemoryStats.Limit := 1000 |} |}.

(** A sample without a cache figure. *)
Definition statsNoCache : StatsResponse.t :=
  {| StatsResponse.CPUStats := cpuStats 200 1200 2 [];
     StatsResponse.PreCPUStats := cpuStats 100 1000 2 [];
     StatsResponse.MemoryStats :=
       {| MemoryStats.Usage := 4096;
          MemoryStats.Stats := ∅;
          MemoryStats.Limit := 65536 |} |}.

Definition summary (id0 name state status project service : string)
  : Summary.t :=
  {| Summary.ID := id0;
     Summary.Names := [name];
     Summary.Image := "registry.local/app:1";
     Summary.State := state;
     Summary.Status := status;
     Summary.Ports := [];
     Summary.Labels :=
       {[ "com.docker.compose.project"%string := project;
          "com.docker.compose.service"%string := service ]};
     Summary.Created := 1700000000 |}.

(** Three containers of the project [shop]: [web] runs, [db] has exited,
    [cache] runs but its stats call fails. *)
Definition webID : string := "4f1c2a9b7d3e51a0c6b2".
Definition dbID : string := "9e8d7c6b5a4f30211f0e".
Definition cacheID : string := "0a1b2c3d4e5f60718293".

Definition web := summary webID "/shop-web-1" "running" "Up 2 hours" "shop" "web".
Definition db := summary dbID "/shop-db-1" "exited" "Exited (0) 5 minutes ago" "shop" "db".
Definition cache := summary cacheID "/shop-cache-1" "running" "Up 2 hours" "shop" "cache".

Definition batch : list Summary.t := [web; db; cache].

Definition engineStats (id0 : string) : StatsReply :=
  if String.eqb id0 webID then StatsBody statsFourCPUs
  else StatsError "context deadline exceeded".

(** A container whose identifier is shorter than twelve bytes. *)
Definition stub := summary "deadbeef" "/stub" "running" "Up" "shop" "web".

(** A host with one declaration file, [/srv/shop/compose.yml], declaring
    the services [web] and [db], and nothing else. *)
Definition shopFile : compose.composeFile :=
  {| compose.Name := "";
     compose.Services := {[ "web"%string := ∅; "db"%string := ∅ ]} |}.

Definition shopHost : compose.Host :=
  {| compose.ReadFile := fun p =>
       if String.eqb p "/srv/shop/compose.yml" then Some "services: {web: {}, db: {}}"%string
       else None;
     compose.yaml_Unmarshal := fun data =>
       if String.eqb data "services: {web: {}, db: {}}" then Some shopFile else None;
     compose.filepath_Join := fun dir name => (dir ++ "/" ++ name)%string;
     compose.filepath_Base := fun p =>
       if String.eqb p "/srv/shop" then "shop"%string else p |}.

(** A host without any declaration file. *)
Definition bareHost : compose.Host :=
  {| compose.ReadFile := fun _ => None;
     compose.yaml_Unmarshal := fun _ => None;
     compose.filepath_Join := fun dir name => (dir ++ "/" ++ name)%string;
     compose.filepath_Base := fun p => p |}.

Definition shop : config.ComposeConfig.t :=
  {| config.ComposeConfig.Name := "shop"; config.ComposeConfig.Path := "/srv/shop" |}.

(** A snapshot of [shop] and a toy encoder for state messages. *)
Definition shopStack : models.ComposeStack.t :=
  {| models.ComposeStack.Name := "shop";
     models.ComposeStack.Path := "/srv/shop";
     models.ComposeStack.Status := "stopped";
     models.ComposeStack.Services := [];
     models.ComposeStack.Host := "" |}.

Definition encode (msg : models.WSMessage.t) : string + string :=
  inl (models.WSMessage.Type_ msg ++
       (if (length (models.WSMessage.Containers msg) =? 0)%nat
        then ":no containers" else ":containers") ++
       (if (length (models.WSMessage.Composes msg) =? 0)%nat
        then ":no stacks" else ":stacks"))%string.

(** A settings document for the samples: one character per switch, in
    declaration order. *)
Definition featureSwitches (f : Settings.FeatureSet) : list bool :=
  [Settings.cView (Settings.Containers f); Settings.cStart (Settings.Containers f);
   Settings.cStop (Settings.Containers f); Settings.cRestart (Settings.Containers f);
   Settings.cDelete (Settings.Containers f);
   Settings.sView (Settings.Composes f); Settings.sStart (Settings.Composes f);
   Settings.sStop (Settings.Composes f); Settings.sRestart (Settings.Composes f);
   Settings.iView (Settings.Images f); Settings.iDelete (Settings.Images f);
   Settings.iPrune (Settings.Images f); Settings.iPull (Settings.Images f)].

Definition marshalSettings (st : Settings.Settings) : string + string :=
  inl (string_of_list_ascii
        (map (fun b : bool => if b then "1"%char else "0"%char)
           ([Settings.AuthlessMode st; Settings.RemoveVolumesOnStop st] ++
            featureSwitches (Settings.AdminFeatures st) ++
            featureSwitches (Settings.PublicFeatures st)))).

Definition readFeatures (l : list bool)
  : option (Settings.FeatureSet * list bool) :=
  match l with
  | c1 :: c2 :: c3 :: c4 :: c5 :: s1 :: s2 :: s3 :: s4 ::
    i1 :: i2 :: i3 :: i4 :: rest =>
      Some ({| Settings.Containers :=
                 {| Settings.cView := c1; Settings.cStart := c2;
                    Settings.cStop := c3; Settings.cRestart := c4;
                    Settings.cDelete := c5 |};
               Settings.Composes :=
                 {| Settings.sView := s1; Settings.sStart := s2;
                    Settings.sStop := s3; Settings.sRestart := s4 |};
               Settings.Images :=
                 {| Settings.iView := i1; Settings.iDelete := i2;
                    Settings.iPrune := i3; Settings.iPull := i4 |} |}, rest)
  | _ => None
  end.

Definition decodeSettings (data : string) : Settings.SettingsFile :=
  match map (fun c => Ascii.eqb c "1") (list_ascii_of_string data) with
  | authless :: rmvol :: rest =>
      match readFeatures rest with
      | Some (adminF, rest') =>
          match readFeatures rest' with
          | Some (publicF, []) =>
              Settings.Document
                {| Settings.AuthlessMode := authless;
                   Settings.RemoveVolumesOnStop := rmvol;
                   Settings.AdminFeatures := adminF;
                   Settings.PublicFeatures := publicF |}
          | _ => Settings.Malformed Settings.zeroSettings None
          end
      | None => Settings.Malformed Settings.zeroSettings None
      end
  | _ => Settings.Malformed Settings.zeroSettings None
  end.

(** A disk that takes every write, and one that is full. *)
Definition diskWrites (data : string) : option (string * Settings.SettingsFile) :=
  None.

Definition diskFull (data : string) : option (string * Settings.SettingsFile) :=
  Some ("no space left on device", Settings.NotExist).

End samples.


(* ===================================================================== *)
(** ** internal/api: routes behind the middleware chain *)
(* ===================================================================== *)

Module ApiRoutes.

Import Api.

(** [requireAdmin], on the level [authMiddleware] stored in the context. *)
Definition requireAdmin (level : authLevel) : option Response :=
  match level with
  | authLevelAdmin => None
  | authLevelPublic => Some (HttpError "admin access required" StatusForbidden)
  end.

Section Chain.

Variable authEnabled : bool.
Variable ValidateToken : string -> option string.

(** A route registered with [r.With(s.requireFeature(getter))] inside the
    group that uses [authMiddleware].  Each middleware reads the settings
    on its own: [stAuth] is the snapshot [authMiddleware] sees, [stGate]
    the one [requireFeature] sees.  [Next level] means the handler runs. *)
Definition featureRoute (stAuth stGate : Settings.Settings)
    (getter : Settings.FeatureSet -> bool) (r : Request) : Response :=
  match authMiddleware authEnabled stAuth ValidateToken r with
  | HttpError body status => HttpError body status
  | Next level =>
      match requireFeature stGate getter level with
      | Some denied => denied
      | None => Next level
      end
  end.

(** A route registered with [r.With(s.requireAdmin)] inside the group. *)
Definition adminRoute (stAuth : Settings.Settings) (r : Request) : Response :=
  match authMiddleware authEnabled stAuth ValidateToken r with
  | HttpError body status => HttpError body status
  | Next level =>
      match requireAdmin level with
      | Some denied => denied
      | None => Next level
      end
  end.

(** The auth check at the head of [handleWS]; [token] is the [token]
    query parameter (empty when absent), [None] means the connection is
    upgraded. *)
Definition handleWS_check (st : Settings.Settings) (token : string)
  : option Response :=
  if authEnabled && negb (Settings.AuthlessMode st) then
    if String.eqb token "" then Some (HttpError "unauthorized" StatusUnauthorized)
    else
      match ValidateToken token with
      | Some _ => Some (HttpError "unauthorized" StatusUnauthorized)
      | None => None
      end
  else None.

End Chain.

(** The decoded body of [POST /api/settings]: every field is a pointer,
    nil when the key is absent. *)
Record Patch := {
  pAuthlessMode : option bool;
  pRemoveVolumesOnStop : option bool;
  pAdminFeatures : option Settings.FeatureSet;
  pPublicFeatures : option Settings.FeatureSet }.

(** The mutator [handleUpdateSettings] hands to [settings.Update]. *)
Definition applyPatch (patch : Patch) (st : Settings.Settings)
  : Settings.Settings :=
  {| Settings.AuthlessMode :=
       match pAuthlessMode patch with
       | Some b => b
       | None => Settings.AuthlessMode st
       end;
     Settings.RemoveVolumesOnStop :=
       match pRemoveVolumesOnStop patch with
       | Some b => b
       | None => Settings.RemoveVolumesOnStop st
       end;
     Settings.AdminFeatures :=
       match pAdminFeatures patch with
       | Some f => f
       | None => Settings.AdminFeatures st
       end;
     Settings.PublicFeatures :=
       match pPublicFeatures patch with
       | Some f => f
       | None => Settings.PublicFeatures st
       end |}.

End ApiRoutes.

(* ===================================================================== *)
(** ** internal/api: the limiter in front of the credential endpoints *)
(* ===================================================================== *)

Module Limiter.

Import RateLimit.

(** What [clientIP] reads of a request: two headers ([Header.Get] yields
    the empty string when absent) and the transport peer address. *)
Record HttpRequest := {
  XRealIP : string;
  XForwardedFor : string;
  RemoteAddr : string }.

(** [strings.IndexByte]: the index of the first occurrence, -1 if none. *)
Fixpoint IndexByte (s : string) (c : ascii) : Z :=
  match s with
  | EmptyString => (-1)%Z
  | String a rest =>
      if Ascii.eqb a c then 0%Z
      else
        let i := IndexByte rest c in
        if (i <? 0)%Z then (-1)%Z else (i + 1)%Z
  end.

Section ClientIP.

(** [strings.TrimSpace], and [net.SplitHostPort] ([None] on error). *)
Variable TrimSpace : string -> string.
Variable SplitHostPort : string -> option (string * string).

Definition clientIP (r : HttpRequest) : outcome string :=
  if negb (String.eqb (XRealIP r) "") then Ok (TrimSpace (XRealIP r))
  else if negb (String.eqb (XForwardedFor r) "") then
    let v := XForwardedFor r in
    let idx := IndexByte v "," in
    v' ← (if (0 <=? idx)%Z then Go.slice_to v (Z.to_nat idx) else Ok v);
    Ok (TrimSpace v')
  else
    match SplitHostPort (RemoteAddr r) with
    | None => Ok (RemoteAddr r)
    | Some (host, _) => Ok host
    end.

(** What [middleware] does with a request at clock reading [now]. *)
Inductive verdict := Forwarded | TooManyRequests.

Definition middleware (now : Time) (r : HttpRequest)
    (buckets : gmap string (list Time))
  : outcome (verdict * gmap string (list Time)) :=
  ip ← clientIP r;
  let '(ok, buckets') := allow now ip buckets in
  Ok (if ok then Forwarded else TooManyRequests, buckets').

(** A sequence of requests through [middleware]. *)
Fixpoint middlewareAll (reqs : list (Time * HttpRequest))
    (buckets : gmap string (list Time))
  : outcome (list verdict * gmap string (list Time)) :=
  match reqs with
  | [] => Ok ([], buckets)
  | (now, r) :: rest =>
      '(v, buckets') ← middleware now r buckets;
      '(vs, buckets'') ← middlewareAll rest buckets';
      Ok (v :: vs, buckets'')
  end.

End ClientIP.

(** What happens to the limiter over time: [allow] calls from any origin
    and [gc] ticks, listed in the order in which they take the mutex.
    Each call reads the clock before it locks, so [now] is the reading
    the call brings into its critical section. *)
Inductive event :=
| Attempt (origin : string) (now : Time)
| Tick (now : Time).

Definition eventTime (e : event) : Time :=
  match e with
  | Attempt _ now => now
  | Tick now => now
  end.

(** The calls take the mutex in the order of their clock readings: every
    reading is at least the one of the call before, starting from [t0].
    The code does not enforce this: a call that read the clock early may
    lock late. *)
Fixpoint clockFrom (t0 : Time) (events : list event) : Prop :=
  match events with
  | [] => True
  | e :: rest => (t0 <= eventTime e)%Z /\ clockFrom (eventTime e) rest
  end.

(** Running the events; [history] collects, in order, the clock readings
    of the attempts of [ip] that were admitted. *)
Fixpoint serve (ip : string) (events : list event)
    (buckets : gmap string (list Time)) (history : list Time)
  : list Time * gmap string (list Time) :=
  match events with
  | [] => (history, buckets)
  | Attempt origin now :: rest =>
      let '(ok, buckets') := allow now origin buckets in
      serve ip rest buckets'
        (if ok && String.eqb origin ip then history ++ [now] else history)
  | Tick now :: rest => serve ip rest (gcTick now buckets) history
  end.

End Limiter.

(* ===================================================================== *)
(** ** internal/auth *)
(* ===================================================================== *)

Module auth.

(** [strings.Join] *)
Fixpoint Join (elems : list string) (sep : string) : string :=
  match elems with
  | [] => ""
  | [e] => e
  | e :: rest => (e ++ sep ++ Join rest sep)%string
  end.

Section PasswordStrength.

(** [for _, c := range password] decodes the bytes into runes, and the
    [unicode] package classifies them. *)
Variable rune : Type.
Variable runes : string -> list rune.
Variable IsUpper IsLower IsDigit IsLetter : rune -> bool.

Record seen := {
  hasUpper : bool; hasLower : bool; hasDigit : bool; hasSpecial : bool }.

(** The [switch] in the loop body: the first case that applies wins. *)
Definition classify (f : seen) (c : rune) : seen :=
  if IsUpper c then
    {| hasUpper := true; hasLower := hasLower f;
       hasDigit := hasDigit f; hasSpecial := hasSpecial f |}
  else if IsLower c then
    {| hasUpper := hasUpper f; hasLower := true;
       hasDigit := hasDigit f; hasSpecial := hasSpecial f |}
  else if IsDigit c then
    {| hasUpper := hasUpper f; hasLower := hasLower f;
       hasDigit := true; hasSpecial := hasSpecial f |}
  else if negb (IsLetter c) && negb (IsDigit c) then
    {| hasUpper := hasUpper f; hasLower := hasLower f;
       hasDigit := hasDigit f; hasSpecial := true |}
  else f.

(** [ValidatePasswordStrength]; [None] is the nil error. *)
Definition ValidatePasswordStrength (password : string) (strict : bool)
  : option string :=
  if strict then
    if (String.length password <? 12)%nat
    then Some "password must be at least 12 characters"%string
    else
      let f := foldl classify
                 {| hasUpper := false; hasLower := false;
                    hasDigit := false; hasSpecial := false |}
                 (runes password) in
      let missing := [] in
      let missing := if negb (hasUpper f)
                     then missing ++ ["uppercase letter"%string] else missing in
      let missing := if negb (hasLower f)
                     then missing ++ ["lowercase letter"%string] else missing in
      let missing := if negb (hasDigit f)
                     then missing ++ ["number"%string] else missing in
      let missing := if negb (hasSpecial f)
                     then missing ++ ["special character"%string] else missing in
      if (0 <? length missing)%nat
      then Some ("password must contain: " ++ Join missing ", ")%string
      else None
  else
    if (String.length password <? 4)%nat
    then Some "password must be at least 4 characters"%string
    else None.

End PasswordStrength.

Record authStore := {
  PasswordHash : string;
  JWTSecret : string;
  SetupComplete : bool }.

(** The service: the store pointer ([None] is nil) and what [auth.json]
    holds ([None] when the file does not exist). *)
Record Service := {
  store : option authStore;
  persisted : option authStore }.

Definition IsSetupComplete (s : Service) : bool :=
  match store s with
  | Some st => SetupComplete st
  | None => false
  end.

Section Credentials.

(** [cfg.Auth.Strict], the password check above, and the collaborators:
    [bcrypt.GenerateFromPassword] (the salt is an input),
    [bcrypt.CompareHashAndPassword] ([true] is the nil error), and
    [issueToken] as a function of the signing secret. *)
Variable strict : bool.
Variable checkStrength : string -> bool -> option string.
Variable bcryptHash : string -> string -> outcome string.
Variable bcryptMatches : string -> string -> bool.
Variable issueToken : string -> outcome string.

(** [save]: [writeError] is the error of [os.WriteFile], if any. *)
Definition save (s : Service) (writeError : option string)
  : Service * option string :=
  match writeError with
  | Some e => (s, Some e)
  | None => ({| store := store s; persisted := store s |}, None)
  end.

(** [jwtSecret]: the environment variable wins when it is set. *)
Definition jwtSecret (envSecret : string) (st : authStore) : string :=
  if negb (String.eqb envSecret "") then envSecret else JWTSecret st.

(** [Setup].  [salt] and [secret] are what the random sources deliver on
    this call ([secret] is the outcome of [generateSecret]). *)
Definition Setup (s : Service) (password salt : string)
    (secret : outcome string) (writeError : option string)
    (envSecret : string) : outcome string * Service :=
  if IsSetupComplete s then (Err "already configured", s)
  else
    match checkStrength password strict with
    | Some e => (Err e, s)
    | None =>
        match bcryptHash salt password with
        | Err e => (Err ("hashing password: " ++ e), s)
        | Panic p => (Panic p, s)
        | Ok hash =>
            match secret with
            | Err e => (Err ("generating secret: " ++ e), s)
            | Panic p => (Panic p, s)
            | Ok sec =>
                let st := {| PasswordHash := hash; JWTSecret := sec;
                             SetupComplete := true |} in
                let s1 := {| store := Some st; persisted := persisted s |} in
                match save s1 writeError with
                | (s2, Some e) => (Err e, s2)
                | (s2, None) => (issueToken (jwtSecret envSecret st), s2)
                end
            end
        end
    end.

(** [Login] *)
Definition Login (s : Service) (password envSecret : string)
  : outcome string :=
  match store s with
  | None => Err "not configured"
  | Some st =>
      if negb (SetupComplete st) then Err "not configured"
      else if negb (bcryptMatches (PasswordHash st) password)
      then Err "invalid password"
      else issueToken (jwtSecret envSecret st)
  end.

(** [ChangePassword] *)
Definition ChangePassword (s : Service) (current newPwd salt : string)
    (secret : outcome string) (writeError : option string)
    (envSecret : string) : outcome string * Service :=
  match store s with
  | None => (Err "not configured", s)
  | Some st =>
      if negb (SetupComplete st) then (Err "not configured", s)
      else if negb (bcryptMatches (PasswordHash st) current)
      then (Err "invalid current password", s)
      else
        match checkStrength newPwd strict with
        | Some e => (Err e, s)
        | None =>
            match bcryptHash salt newPwd with
            | Err e => (Err ("hashing password: " ++ e), s)
            | Panic p => (Panic p, s)
            | Ok hash =>
                match secret with
                | Err e => (Err ("generating secret: " ++ e), s)
                | Panic p => (Panic p, s)
                | Ok sec =>
                    let st' := {| PasswordHash := hash; JWTSecret := sec;
                                  SetupComplete := SetupComplete st |} in
                    let s1 := {| store := Some st'; persisted := persisted s |} in
                    match save s1 writeError with
                    | (s2, Some e) => (Err e, s2)
                    | (s2, None) => (issueToken (jwtSecret envSecret st'), s2)
                    end
                end
            end
        end
  end.

End Credentials.

End auth.

(* ===================================================================== *)
(** ** internal/docker: images, container and stack actions *)
(* ===================================================================== *)

Module images.

Import container.

(** [image.Summary], the fields the hub reads; [RepoTags] may be nil. *)
Module Summary.
Record t := {
  ID : string;
  RepoTags : option (list string);
  Size : Z;
  Created : Z }.
End Summary.

(** [models.Image] *)
Module Image.
Record t := {
  ID : string;
  ShortID : string;
  Tags : list string;
  Size : Z;
  Created : Z;
  InUse : bool }.
End Image.

(** [s[lo:hi]] *)
Definition slice (s : string) (lo hi : nat) : outcome string :=
  if (lo <=? hi)%nat && (hi <=? String.length s)%nat
  then Ok (String.substring lo (hi - lo) s)
  else Panic "slice bounds out of range".

Section GetImages.

(** The [ImageID] field of [container.Summary]. *)
Variable ImageID : container.Summary.t -> string.

(** The first loop: the set of image ids some container uses. *)
Definition usedImages (containers : list container.Summary.t)
  : gmap string bool :=
  foldl (fun used c => <[ImageID c := true]> used) ∅ containers.

(** The body of the second loop. *)
Definition toImage (used : gmap string bool) (img : Summary.t)
  : outcome Image.t :=
  let id0 := Summary.ID img in
  shortID ← (if HasPrefix id0 "sha256:" && (19 <=? String.length id0)%nat
             then slice id0 7 19 else Ok id0);
  let tags := match Summary.RepoTags img with
              | Some ts => ts
              | None => []
              end in
  Ok {| Image.ID := id0;
        Image.ShortID := shortID;
        Image.Tags := tags;
        Image.Size := Summary.Size img;
        Image.Created := Summary.Created img;
        Image.InUse := Go.index false used id0 |}.

(** [GetImages] for the replies of [ContainerList] and [ImageList]. *)
Definition GetImages (listedContainers : outcome (list container.Summary.t))
    (listedImages : outcome (list Summary.t)) : outcome (list Image.t) :=
  containers ← listedContainers;
  let used := usedImages containers in
  imgs ← listedImages;
  Go.mapM (toImage used) imgs.

End GetImages.

End images.

Module actions.

Import container.

(** The mutating calls of the engine client. *)
Inductive engineCall :=
| ContainerStart (id0 : string)
| ContainerStop (id0 : string) (timeout : Z)
| ContainerRestart (id0 : string) (timeout : Z)
| ContainerRemove (id0 : string) (force : bool).

(** [resolveID] for the reply of the filtered [ContainerList]. *)
Definition resolveID (listed : outcome (list Summary.t)) (shortID : string)
  : outcome string :=
  list ← listed;
  match list with
  | [] => Err ("container not found: " ++ shortID)
  | c :: _ => Ok (Summary.ID c)
  end.

(** [ContainerAction]: the returned error ([Ok tt] is nil) and the
    mutating calls made on the engine, whose errors [engine] gives. *)
Definition ContainerAction (listed : outcome (list Summary.t))
    (engine : engineCall -> option string) (id0 action : string)
  : outcome unit * list engineCall :=
  match resolveID listed id0 with
  | Err e => (Err e, [])
  | Panic p => (Panic p, [])
  | Ok fullID =>
      let call c := (match engine c with Some e => Err e | None => Ok tt end, [c]) in
      if String.eqb action "start" then call (ContainerStart fullID)
      else if String.eqb action "stop" then call (ContainerStop fullID 10)
      else if String.eqb action "restart" then call (ContainerRestart fullID 10)
      else if String.eqb action "delete" then call (ContainerRemove fullID true)
      else (Err ("unknown action: " ++ action), [])
  end.

(** [strings.Contains] *)
Fixpoint Contains (s substr : string) : bool :=
  String.prefix substr s ||
  match s with
  | EmptyString => false
  | String _ rest => Contains rest substr
  end.

(** [detectComposeBinary]: [v2] is the outcome of running
    [docker compose version] (its output), [v1] tells whether
    [docker-compose] is on the path. *)
Definition detectComposeBinary (v2 : outcome string) (v1 : bool) : list string :=
  match v2 with
  | Ok out =>
      if Contains out "version" then ["docker"; "compose"]%string
      else if v1 then ["docker-compose"%string]
      else ["docker"; "compose"]%string
  | _ => if v1 then ["docker-compose"%string] else ["docker"; "compose"]%string
  end.

(** [l[1:]] and [l[0]] on a slice of strings. *)
Definition tail1 (l : list string) : outcome (list string) :=
  match l with
  | [] => Panic "slice bounds out of range"
  | _ :: rest => Ok rest
  end.

Definition head0 (l : list string) : outcome string :=
  match l with
  | [] => Panic "index out of range"
  | x :: _ => Ok x
  end.

(** The loop that looks the stack up by name: the first entry wins. *)
Fixpoint findCompose (composes : list config.ComposeConfig.t) (name : string)
  : option config.ComposeConfig.t :=
  match composes with
  | [] => None
  | c :: rest =>
      if String.eqb (config.ComposeConfig.Name c) name then Some c
      else findCompose rest name
  end.

(** An external command: program, arguments and working directory. *)
Record Cmd := { Path : string; Args : list string; Dir : string }.

(** [ComposeAction]: the returned error and the commands that were run;
    [run] gives a command's combined output and whether it failed. *)
Definition ComposeAction (composeCmds : list string)
    (composes : list config.ComposeConfig.t)
    (run : Cmd -> string * bool)
    (name action : string) (removeVolumes : bool)
  : outcome unit * list Cmd :=
  match findCompose composes name with
  | None => (Err ("compose stack not found: " ++ name), [])
  | Some cc =>
      let args : outcome (list string) :=
        if String.eqb action "start" then
          base ← tail1 composeCmds; Ok (base ++ ["up"; "-d"]%string)
        else if String.eqb action "stop" then
          base ← tail1 composeCmds;
          let args := base ++ ["down"%string] in
          Ok (if removeVolumes then args ++ ["-v"%string] else args)
        else if String.eqb action "restart" then
          base ← tail1 composeCmds; Ok (base ++ ["restart"%string])
        else Err ("unknown compose action: " ++ action) in
      match args with
      | Err e => (Err e, [])
      | Panic p => (Panic p, [])
      | Ok args =>
          match head0 composeCmds with
          | Err e => (Err e, [])
          | Panic p => (Panic p, [])
          | Ok prog =>
              let cmd := {| Path := prog; Args := args;
                            Dir := config.ComposeConfig.Path cc |} in
              let '(out, failed) := run cmd in
              if failed
              then (Err ("compose " ++ action ++ ": " ++ out), [cmd])
              else (Ok tt, [cmd])
          end
      end
  end.

End actions.

(* ===================================================================== *)
(** ** Sample traffic and collaborators *)
(* ===================================================================== *)

Module examples.

Import RateLimit Limiter.

Definition peer : string := "10.0.0.7".

(** A schedule in which a [gc] tick that read the clock at 120 s takes
    the mutex before an attempt that read it at 61 s. *)
Definition lateAttempt : list event :=
  [ Attempt peer (2 * Second); Attempt peer (3 * Second);
    Attempt peer (4 * Second); Attempt peer (5 * Second);
    Attempt peer (6 * Second); Tick (120 * Second);
    Attempt peer (61 * Second) ]%Z.

(** Seven attempts of [peer] within eight seconds, with an attempt of
    another origin and a [gc] tick in between. *)
Definition traffic : list event :=
  [ Attempt peer (1 * Second); Attempt "10.0.0.9" (2 * Second);
    Attempt peer (3 * Second); Tick (4 * Second);
    Attempt peer (5 * Second); Attempt peer (6 * Second);
    Attempt peer (7 * Second); Attempt peer (8 * Second);
    Attempt peer (9 * Second) ]%Z.

(** A bucket with one stale and one live timestamp at second 70. *)
Definition someBuckets : gmap string (list Time) :=
  {[ peer := [5 * Second; 50 * Second]%Z ]}.

(** Six requests of one peer, each with another [X-Real-IP] header. *)
Definition spoofed (header : string) : HttpRequest :=
  {| XRealIP := header; XForwardedFor := ""; RemoteAddr := "10.0.0.7:51234" |}.

Definition spoofedBurst : list (Time * HttpRequest) :=
  [ (1 * Second, spoofed "203.0.113.1"); (1 * Second, spoofed "203.0.113.2");
    (2 * Second, spoofed "203.0.113.3"); (2 * Second, spoofed "203.0.113.4");
    (3 * Second, spoofed "203.0.113.5"); (3 * Second, spoofed "203.0.113.6") ]%Z.

(** Stand-ins for the collaborators of the auth service. *)
Definition toyStrength (password : string) (strict : bool) : option string :=
  if (String.length password <? 4)%nat
  then Some "password must be at least 4 characters"%string else None.

Definition toyHash (salt password : string) : outcome string :=
  Ok ("$2a$10$" ++ password)%string.

Definition toyMatches (hash password : string) : bool :=
  String.eqb hash ("$2a$10$" ++ password).

Definition toyToken (secret : string) : outcome string :=
  Ok ("signed with " ++ secret)%string.

Definition fresh : auth.Service :=
  {| auth.store := None; auth.persisted := None |}.

Definition configured : auth.Service :=
  let st := {| auth.PasswordHash := "$2a$10$correct horse";
               auth.JWTSecret := "5ecret";
               auth.SetupComplete := true |} in
  {| auth.store := Some st; auth.persisted := Some st |}.

Definition halfConfigured : auth.Service :=
  {| auth.store := Some {| auth.PasswordHash := "$2a$10$correct horse";
                           auth.JWTSecret := "5ecret";
                           auth.SetupComplete := true |};
     auth.persisted := None |}.

(** The snapshot of [shop] for the sample batch, and its [web] entry. *)
Definition shopSnapshot : models.ComposeStack.t :=
  match compose.buildStack samples.shopHost [] samples.shop
          (compose.groupByProject samples.batch) with
  | Ok stack => stack
  | _ => samples.shopStack
  end.

Definition webEntry : models.ComposeService.t :=
  {| models.ComposeService.Name := "web";
     models.ComposeService.ContainerID := "4f1c2a9b7d3e";
     models.ComposeService.Status := "Up 2 hours";
     models.ComposeService.State := "running";
     models.ComposeService.Running := true |}.

(** The container list for the sample batch. *)
Definition listedBatch : list models.Container.t :=
  match (docker.GetContainers (Ok samples.batch) samples.engineStats []).1 with
  | Ok result => result
  | _ => []
  end.

End examples.
(* ===================================================================== *)
(** * Properties *)
(* ===================================================================== *)

(** ** Facts about the Go runtime helpers *)

Module GoFacts.

Lemma insert_at_perm {A} (k : nat) (x : A) (l : list A) :
  Permutation (Go.insert_at k x l) (x :: l).
Proof.
  revert k; induction l as [|y l IH]; intros [|k]; simpl; try reflexivity.
  rewrite IH. apply perm_swap.
Qed.

Lemma shuffle_perm {A} (seed : list nat) (l : list A) :
  Permutation (Go.shuffle seed l) l.
Proof.
  revert seed; induction l as [|x l IH]; intros seed; simpl; [reflexivity|].
  rewrite insert_at_perm. by constructor.
Qed.

(** Every order is the order of some seed. *)
Lemma insert_at_middle {A} (x : A) (l1 l2 : list A) :
  Go.insert_at (length l1) x (l1 ++ l2) = l1 ++ x :: l2.
Proof.
  induction l1 as [|y l1 IH]; simpl; [by destruct l2 | by rewrite IH].
Qed.

Lemma shuffle_complete {A} (l l' : list A) :
  Permutation l l' -> exists seed, Go.shuffle seed l = l'.
Proof.
  revert l'; induction l as [|x l IH]; intros l' Hp.
  - apply Permutation_nil in Hp as ->. by exists [].
  - assert (In x l') as Hx by (eapply Permutation_in; [exact Hp | by left]).
    apply in_split in Hx as [l1 [l2 ->]].
    apply Permutation_cons_app_inv in Hp.
    destruct (IH _ Hp) as [seed Hseed].
    exists (length l1 :: seed). simpl. rewrite Hseed.
    apply insert_at_middle.
Qed.

Lemma shuffle_length {A} (seed : list nat) (l : list A) :
  length (Go.shuffle seed l) = length l.
Proof. apply Permutation_length, shuffle_perm. Qed.

Lemma range_keys_perm {V} (seed : list nat) (m : gmap string V) :
  Permutation (Go.range_keys seed m) (map fst (map_to_list m)).
Proof. apply shuffle_perm. Qed.

Lemma range_keys_length {V} (seed : list nat) (m : gmap string V) :
  length (Go.range_keys seed m) = size m.
Proof.
  unfold Go.range_keys. rewrite shuffle_length, length_map.
  apply length_map_to_list.
Qed.

Lemma slice_to_ok (s : string) (n : nat) :
  (n <= String.length s)%nat ->
  Go.slice_to s n = Go.Ok (String.substring 0 n s).
Proof.
  intros H. unfold Go.slice_to.
  destruct (Nat.leb_spec n (String.length s)); [done | lia].
Qed.

Lemma slice_to_panics (s : string) (n : nat) :
  (String.length s < n)%nat <->
  Go.slice_to s n = Go.Panic "slice bounds out of range".
Proof.
  unfold Go.slice_to.
  destruct (Nat.leb_spec n (String.length s)); split; try done; lia.
Qed.

(** A loop whose body succeeds on every element yields one result per
    element, in order. *)
Lemma mapM_Forall2 {A B} (f : A -> Go.outcome B) (P : A -> B -> Prop)
    (l : list A) :
  (forall x, x ∈ l -> exists y, f x = Go.Ok y /\ P x y) ->
  exists ys, Go.mapM f l = Go.Ok ys /\ Forall2 P l ys.
Proof.
  induction l as [|x l IH]; intros Hf; simpl.
  - exists []. split; [done | constructor].
  - destruct (Hf x) as [y [Hy HP]]; [by left|].
    destruct IH as [ys [Hys HF]]; [intros z Hz; apply Hf; by right|].
    exists (y :: ys). rewrite Hy, Hys. split; [done | by constructor].
Qed.

(** A loop stops with the panic of the first element whose body panics. *)
Lemma mapM_panics {A B} (f : A -> Go.outcome B) (l : list A) (x : A)
    (msg : string) :
  x ∈ l -> f x = Go.Panic msg ->
  (forall y, y ∈ l -> (exists b, f y = Go.Ok b) \/ f y = Go.Panic msg) ->
  Go.mapM f l = Go.Panic msg.
Proof.
  induction l as [|y l IH]; intros Hx Hfx Hall; [by apply elem_of_nil in Hx|].
  simpl. destruct (Hall y) as [[b Hb] | Hp]; [by left | | by rewrite Hp].
  rewrite Hb. simpl. apply elem_of_cons in Hx as [-> | Hx]; [congruence|].
  rewrite IH; [done | done | done |]. intros z Hz. apply Hall. by right.
Qed.

End GoFacts.

(** ** Settings: defaults applied at load time *)

Module SettingsFacts.

Import Settings.

Lemma isZeroFeatureSet_spec (f : FeatureSet) :
  isZeroFeatureSet f = true <-> f = zeroFeatureSet.
Proof.
  split.
  - destruct f as [[[] [] [] [] []] [[] [] [] []] [[] [] [] []]];
      simpl; intros H; try discriminate H; reflexivity.
  - intros ->. reflexivity.
Qed.

Lemma applyDefaults_admin (cur : Settings) :
  AdminFeatures (applyDefaults cur) =
    if isZeroFeatureSet (AdminFeatures cur) then defaultAdminFeatures
    else AdminFeatures cur.
Proof.
  unfold applyDefaults.
  destruct (isZeroFeatureSet (AdminFeatures cur)); simpl;
    destruct (isZeroFeatureSet (PublicFeatures cur)); reflexivity.
Qed.

Lemma applyDefaults_public (cur : Settings) :
  PublicFeatures (applyDefaults cur) =
    if isZeroFeatureSet (PublicFeatures cur) then defaultPublicFeatures
    else PublicFeatures cur.
Proof.
  unfold applyDefaults.
  destruct (isZeroFeatureSet (AdminFeatures cur)); simpl;
    destruct (isZeroFeatureSet (PublicFeatures cur)); reflexivity.
Qed.

Lemma applyDefaults_toggles (cur : Settings) :
  AuthlessMode (applyDefaults cur) = AuthlessMode cur /\
  RemoveVolumesOnStop (applyDefaults cur) = RemoveVolumesOnStop cur.
Proof.
  unfold applyDefaults.
  destruct (isZeroFeatureSet (AdminFeatures cur)); simpl;
    destruct (isZeroFeatureSet (PublicFeatures cur)); split; reflexivity.
Qed.

(** A profile that was not all-false is kept as persisted. *)
Lemma load_keeps_nonzero_public (st : Settings) :
  PublicFeatures st <> zeroFeatureSet ->
  exists st', load (Document st) = Go.Ok st' /\
              PublicFeatures st' = PublicFeatures st.
Proof.
  intros Hnz. eexists; split; [reflexivity|].
  rewrite applyDefaults_public.
  destruct (isZeroFeatureSet (PublicFeatures st)) eqn:E; [|done].
  by apply isZeroFeatureSet_spec in E.
Qed.

(** C9.  Loading a persisted settings document replaces a profile whose
    every switch is false by the built-in defaults: all switches true for
    the admin profile, [containers.view] and [composes.view] true (and
    nothing else) for the public profile.  In particular, when [Update]
    disables every public feature and the write of the settings file
    succeeds, the file decoding to what was marshalled, a restart of the
    service gives the public profile its view access back. *)
Theorem load_resets_all_false_profile (st : Settings) :
  (AdminFeatures st = zeroFeatureSet ->
   exists st', load (Document st) = Go.Ok st' /\
     AdminFeatures st' =
       {| Containers := {| cView := true; cStart := true; cStop := true;
                           cRestart := true; cDelete := true |};
          Composes := {| sView := true; sStart := true; sStop := true;
                         sRestart := true |};
          Images := {| iView := true; iDelete := true; iPrune := true;
                       iPull := true |} |}) /\
  (PublicFeatures st = zeroFeatureSet ->
   exists st', load (Document st) = Go.Ok st' /\
     PublicFeatures st' =
       {| Containers := {| cView := true; cStart := false; cStop := false;
                           cRestart := false; cDelete := false |};
          Composes := {| sView := true; sStart := false; sStop := false;
                         sRestart := false |};
          Images := {| iView := false; iDelete := false; iPrune := false;
                       iPull := false |} |}) /\
  (forall json_MarshalIndent os_WriteFile decode file data,
     let disabled := patchPublicFeatures zeroFeatureSet st in
     json_MarshalIndent disabled = inl data ->
     os_WriteFile data = None ->
     decode data = Document disabled ->
     exists cur' file',
       Update json_MarshalIndent os_WriteFile decode
         (patchPublicFeatures zeroFeatureSet) st file = (None, cur', file') /\
       isZeroFeatureSet (PublicFeatures cur') = true /\
       exists st', NewService file' = Go.Ok st' /\
         cView (Containers (PublicFeatures st')) = true /\
         sView (Composes (PublicFeatures st')) = true).
Proof.
  split; [|split].
  - intros Hz. eexists; split; [reflexivity|].
    rewrite applyDefaults_admin, Hz. reflexivity.
  - intros Hz. eexists; split; [reflexivity|].
    rewrite applyDefaults_public, Hz. reflexivity.
  - intros marshal write decode file data disabled Hdata Hwrite Hdecode.
    exists disabled, (Document disabled). split; [|split].
    + unfold Update, save. fold disabled.
      by rewrite Hdata, Hwrite, Hdecode.
    + reflexivity.
    + eexists; split; [reflexivity|].
      rewrite applyDefaults_public. simpl. split; reflexivity.
Qed.

Lemma load_resets_all_false_profile_witness :
  (exists st', load (Document zeroSettings) = Go.Ok st' /\
               AdminFeatures st' = defaultAdminFeatures) /\
  (exists st', load (Document zeroSettings) = Go.Ok st' /\
               PublicFeatures st' = defaultPublicFeatures) /\
  (exists cur' file',
     Update samples.marshalSettings samples.diskWrites samples.decodeSettings
       (patchPublicFeatures zeroFeatureSet) (applyDefaults zeroSettings)
       NotExist = (None, cur', file') /\
     isZeroFeatureSet (PublicFeatures cur') = true /\
     exists st', NewService file' = Go.Ok st' /\
       cView (Containers (PublicFeatures st')) = true /\
       sView (Composes (PublicFeatures st')) = true).
Proof.
  split; [|split].
  - apply (proj1 (load_resets_all_false_profile zeroSettings)). reflexivity.
  - apply (proj1 (proj2 (load_resets_all_false_profile zeroSettings))).
    reflexivity.
  - eapply (proj2 (proj2 (load_resets_all_false_profile
                            (applyDefaults zeroSettings)))).
    + reflexivity.
    + reflexivity.
    + reflexivity.
Defined.

(** When the write fails, [Update] returns the error, the value in
    memory is the mutated one all the same, and the file is what the
    failed write left, not the new document. *)
Lemma Update_write_failure json_MarshalIndent os_WriteFile decode
    (fn : Settings -> Settings) (cur : Settings) (file remains : SettingsFile)
    (data msg : string) :
  json_MarshalIndent (fn cur) = inl data ->
  os_WriteFile data = Some (msg, remains) ->
  Update json_MarshalIndent os_WriteFile decode fn cur file
  = (Some msg, fn cur, remains).
Proof. intros Hdata Hwrite. unfold Update, save. by rewrite Hdata, Hwrite. Qed.

End SettingsFacts.

(** ** The auth middleware *)

Module ApiFacts.

Import Api.

Lemma prefix_append (p s : string) :
  String.prefix p s = true <-> exists t, s = (p ++ t)%string.
Proof.
  revert s; induction p as [|a p IH]; intros s.
  - destruct s; simpl; (split; [intros _; by eexists | done]).
  - destruct s as [|b s]; simpl.
    + split; [done | intros [t Ht]; discriminate Ht].
    + destruct (ascii_dec a b) as [->|Hne].
      * rewrite IH. split; intros [t Ht]; exists t; [by rewrite Ht | by injection Ht].
      * split; [done | intros [t Ht]; injection Ht; congruence].
Qed.

Lemma substring_all (s : string) : String.substring 0 (String.length s) s = s.
Proof. induction s as [|a s IH]; simpl; [done | by rewrite IH]. Qed.

Lemma substring_skip (p t : string) :
  String.substring (String.length p)
    (String.length (p ++ t)%string - String.length p) (p ++ t)%string = t.
Proof.
  induction p as [|a p IH]; simpl.
  - rewrite Nat.sub_0_r. apply substring_all.
  - exact IH.
Qed.

Lemma TrimPrefix_append (p t : string) : Go.TrimPrefix (p ++ t)%string p = t.
Proof.
  unfold Go.TrimPrefix, Go.HasPrefix.
  destruct (String.prefix p (p ++ t)%string) eqn:E.
  - apply substring_skip.
  - assert (String.prefix p (p ++ t)%string = true) as E'
      by (apply prefix_append; by exists t).
    congruence.
Qed.

(** The request carries a valid session token: the header is
    [Bearer <token>] with a non-empty token that [ValidateToken] accepts. *)
Lemma isValidToken_spec (V : string -> option string) (r : Request) :
  isValidToken V r = true <->
  exists token, Authorization r = ("Bearer " ++ token)%string /\
                token <> ""%string /\ V token = None.
Proof.
  unfold isValidToken, bearerToken, Go.HasPrefix.
  destruct (String.prefix "Bearer " (Authorization r)) eqn:E.
  - apply prefix_append in E as [t Ht]. rewrite Ht, TrimPrefix_append.
    rewrite andb_true_iff, negb_true_iff, String.eqb_neq. split.
    + intros [Hne HV]. exists t. destruct (V t); [discriminate | done].
    + intros [t' [Ht' [Hne HV]]].
      assert (t' = t) as ->
        by (cbv [String.append] in Ht'; by injection Ht').
      rewrite HV. done.
  - split; [done|]. intros [t [Ht _]].
    assert (String.prefix "Bearer " (Authorization r) = true) as E'
      by (apply prefix_append; by exists t).
    congruence.
Qed.

(** C1.  The auth middleware derives the effective permission level of
    every request: admin when a valid session token is presented
    (whatever the authless setting); otherwise public when authentication
    is not required (auth disabled in the configuration, or authless mode
    on); otherwise the request is answered 401 and goes no further. *)
Theorem authMiddleware_level
    (authEnabled : bool) (st : Settings.Settings)
    (V : string -> option string) (r : Request) :
  let valid := exists token, Authorization r = ("Bearer " ++ token)%string /\
                             token <> ""%string /\ V token = None in
  (valid -> authMiddleware authEnabled st V r = Next authLevelAdmin) /\
  (~ valid -> authEnabled = false \/ Settings.AuthlessMode st = true ->
   authMiddleware authEnabled st V r = Next authLevelPublic) /\
  (~ valid -> authEnabled = true -> Settings.AuthlessMode st = false ->
   authMiddleware authEnabled st V r = HttpError "unauthorized" 401).
Proof.
  intros valid. subst valid. rewrite <- isValidToken_spec.
  unfold authMiddleware, StatusUnauthorized.
  destruct (isValidToken V r); split; try split; try done.
  - by destruct (authEnabled && negb (Settings.AuthlessMode st)).
  - intros _ [-> | ->]; [done|]. by rewrite andb_false_r.
  - intros _ -> ->. done.
Qed.

Lemma authMiddleware_level_witness :
  let V := fun t : string =>
             if String.eqb t "s3cret" then None else Some "invalid token"%string in
  let authless := Settings.applyDefaults
                    {| Settings.AuthlessMode := true;
                       Settings.RemoveVolumesOnStop := false;
                       Settings.AdminFeatures := Settings.zeroFeatureSet;
                       Settings.PublicFeatures := Settings.zeroFeatureSet |} in
  let strict := Settings.applyDefaults Settings.zeroSettings in
  authMiddleware true strict V {| Authorization := "Bearer s3cret" |}
    = Next authLevelAdmin /\
  authMiddleware true authless V {| Authorization := "Bearer s3cret" |}
    = Next authLevelAdmin /\
  authMiddleware true authless V {| Authorization := "" |}
    = Next authLevelPublic /\
  authMiddleware true strict V {| Authorization := "Bearer expired" |}
    = HttpError "unauthorized" 401.
Proof.
  intros V authless strict. split; [|split; [|split]].
  - apply (authMiddleware_level true strict V).
    exists "s3cret"%string. split; [reflexivity | split; [discriminate | reflexivity]].
  - apply (authMiddleware_level true authless V).
    exists "s3cret"%string. split; [reflexivity | split; [discriminate | reflexivity]].
  - apply (authMiddleware_level true authless V).
    + intros [t [Ht _]]. discriminate Ht.
    + right. reflexivity.
  - apply (authMiddleware_level true strict V).
    + intros [t [Ht [_ HV]]]. cbv [String.append] in Ht. simpl in Ht.
      injection Ht as <-. discriminate HV.
    + reflexivity.
    + reflexivity.
Defined.

End ApiFacts.

(** ** The rate limiter *)

Module RateLimitFacts.

Import RateLimit.
Local Open Scope Z_scope.

Lemma slide_keep_all (cutoff : Time) (times : list Time) :
  Forall (fun t => cutoff < t) times -> slide cutoff times = times.
Proof.
  induction 1 as [|t times Ht _ IH]; simpl; [done|].
  unfold After. destruct (Z.ltb_spec cutoff t); [|lia].
  f_equal. exact IH.
Qed.

Lemma slide_drop_all (cutoff : Time) (times : list Time) :
  Forall (fun t => t <= cutoff) times -> slide cutoff times = [].
Proof.
  induction 1 as [|t times Ht _ IH]; simpl; [done|].
  unfold After. destruct (Z.ltb_spec cutoff t); [lia | exact IH].
Qed.

Lemma slide_live (cutoff t : Time) (times : list Time) :
  t ∈ slide cutoff times <-> t ∈ times /\ cutoff < t.
Proof.
  unfold slide. rewrite !list_elem_of_In, filter_In. unfold After.
  by rewrite Z.ltb_lt.
Qed.

(** The verdict of [allow] and what it leaves in the map. *)
Lemma allow_spec (now : Time) (ip : string) (buckets : gmap string (list Time)) :
  let valid := slide (now - rateLimitWindow) (Go.index [] buckets ip) in
  allow now ip buckets =
    (bool_decide (length valid < 5)%nat,
     <[ip := if bool_decide (length valid < 5)%nat
             then valid ++ [now] else valid]> buckets).
Proof.
  intros valid. unfold allow, rateLimitMax. fold valid.
  destruct (Nat.leb_spec 5 (length valid)).
  - rewrite bool_decide_eq_false_2 by lia. done.
  - rewrite bool_decide_eq_true_2 by lia. done.
Qed.

(** Other origins are not touched. *)
Lemma allow_other (now : Time) (ip ip' : string)
    (buckets : gmap string (list Time)) :
  ip <> ip' -> (allow now ip buckets).2 !! ip' = buckets !! ip'.
Proof.
  intros Hne. rewrite allow_spec. simpl. by rewrite lookup_insert_ne.
Qed.

Lemma index_insert {V} (zero v : V) (m : gmap string V) (k : string) :
  Go.index zero (<[k := v]> m) k = v.
Proof. unfold Go.index. by rewrite lookup_insert_eq. Qed.

(** A run of requests inside one window, from a bucket that holds
    [granted], all of it still live. *)
Lemma allowAll_window (ip : string) (lo : Time) (clock : list Time) :
  forall (granted : list Time) (buckets : gmap string (list Time)),
  Go.index [] buckets ip = granted ->
  Forall (fun a => lo <= a) granted ->
  Forall (fun t => lo <= t < lo + rateLimitWindow) clock ->
  (allowAll ip clock buckets).1 =
    map (fun i => bool_decide (length granted + i < 5)%nat)
        (seq 0 (length clock)) /\
  ((clock <> [] \/ buckets !! ip = Some granted) ->
   (allowAll ip clock buckets).2 !! ip
     = Some (granted ++ take (5 - length granted) clock)).
Proof.
  induction clock as [|now rest IH]; intros granted buckets Hb Hadm Hclk.
  - simpl. split; [done|]. intros [? | ->]; [done|].
    by rewrite take_nil, app_nil_r.
  - apply Forall_cons in Hclk as [Hnow Hrest].
    simpl. rewrite allow_spec. rewrite Hb.
    rewrite slide_keep_all
      by (eapply Forall_impl; [exact Hadm | simpl; intros; lia]).
    set (ok := bool_decide (length granted < 5)%nat).
    set (granted' := if ok then granted ++ [now] else granted).
    destruct (IH granted' (<[ip := granted']> buckets)) as [IH1 IH2].
    { apply index_insert. }
    { subst granted'. destruct ok; [|done].
      apply Forall_app; split; [done|]. constructor; [lia | done]. }
    { done. }
    destruct (allowAll ip rest (<[ip:=granted']> buckets)) as [oks b''] eqn:E.
    simpl in *. split.
    + f_equal.
      * subst ok. apply bool_decide_ext. lia.
      * rewrite IH1. rewrite <- seq_shift, map_map.
        apply map_ext. intros i. subst granted' ok.
        case_bool_decide as H5.
        -- rewrite length_app. simpl. apply bool_decide_ext. lia.
        -- rewrite !bool_decide_eq_false_2 by lia. done.
    + intros _. rewrite IH2 by (right; apply lookup_insert_eq).
      f_equal. subst granted' ok. case_bool_decide as H5.
      * rewrite <- app_assoc. f_equal. rewrite length_app. simpl.
        replace (5 - length granted)%nat
          with (S (5 - (length granted + 1)))%nat by lia.
        done.
      * replace (5 - length granted)%nat with 0%nat by lia. done.
Qed.

(** What one [gc] tick leaves of a bucket. *)
Lemma gcTick_lookup (now : Time) (ip : string)
    (buckets : gmap string (list Time)) :
  gcTick now buckets !! ip =
    match buckets !! ip with
    | None => None
    | Some times =>
        match slide (now - rateLimitWindow) times with
        | [] => None
        | valid => Some valid
        end
    end.
Proof.
  unfold gcTick. rewrite lookup_omap.
  destruct (buckets !! ip) as [times|]; simpl; [|done].
  by destruct (slide (now - rateLimitWindow) times).
Qed.

Lemma gcTick_removes (g : Time) (ip : string)
    (buckets : gmap string (list Time)) :
  Forall (fun t => t + rateLimitWindow <= g) (Go.index [] buckets ip) ->
  gcTick g buckets !! ip = None.
Proof.
  intros Hold. rewrite gcTick_lookup. unfold Go.index in Hold.
  destruct (buckets !! ip) as [times|]; [|done].
  rewrite slide_drop_all; [done|].
  eapply Forall_impl; [exact Hold | simpl; intros; lia].
Qed.

(** C4.  For one origin whose earlier attempts (if any) are older than
    the window, requests issued within 60 seconds of the first one are
    admitted for the first five and rejected from the sixth on; the bucket
    then holds exactly the five granted timestamps, so a rejected request
    records nothing; and once the window has elapsed for all of them a
    [gc] tick removes the origin from the bucket map.  More generally a
    single [allow] records the timestamp exactly when it admits, and a
    [gc] tick removes every origin whose bucket has no live timestamp. *)
Theorem allow_five_per_window_then_gc :
  (forall (ip : string) (now0 : Time) (rest : list Time)
          (buckets : gmap string (list Time)),
     Forall (fun t => t <= now0 - rateLimitWindow) (Go.index [] buckets ip) ->
     Forall (fun t => now0 <= t < now0 + 60 * Second) rest ->
     (allowAll ip (now0 :: rest) buckets).1 =
       map (fun i => bool_decide (i < 5)%nat) (seq 0 (length (now0 :: rest))) /\
     (allowAll ip (now0 :: rest) buckets).2 !! ip
       = Some (take 5 (now0 :: rest)) /\
     forall g, Forall (fun t => t + 60 * Second <= g) (now0 :: rest) ->
       gcTick g (allowAll ip (now0 :: rest) buckets).2 !! ip = None) /\
  (forall (now : Time) (ip : string) (buckets : gmap string (list Time)),
     let valid := slide (now - 60 * Second) (Go.index [] buckets ip) in
     ((length valid < 5)%nat ->
      (allow now ip buckets).1 = true /\
      (allow now ip buckets).2 !! ip = Some (valid ++ [now])) /\
     ((5 <= length valid)%nat ->
      (allow now ip buckets).1 = false /\
      (allow now ip buckets).2 !! ip = Some valid)) /\
  (forall (g : Time) (ip : string) (buckets : gmap string (list Time)),
     Forall (fun t => t + 60 * Second <= g) (Go.index [] buckets ip) ->
     gcTick g buckets !! ip = None).
Proof.
  change (60 * Second) with rateLimitWindow.
  split; [|split].
  - intros ip now0 rest buckets Hstale Hrest.
    assert (allow now0 ip buckets = (true, <[ip := [now0]]> buckets)) as Hfirst.
    { rewrite allow_spec. rewrite slide_drop_all by exact Hstale. done. }
    destruct (allowAll_window ip now0 rest [now0] (<[ip := [now0]]> buckets))
      as [Hv Hb].
    { apply index_insert. }
    { constructor; [lia | done]. }
    { exact Hrest. }
    specialize (Hb (or_intror (lookup_insert_eq _ _ _))).
    cbn [allowAll]. rewrite Hfirst.
    destruct (allowAll ip rest (<[ip := [now0]]> buckets)) as [oks b'] eqn:E.
    simpl in Hv, Hb. cbn [fst snd].
    split; [|split].
    + cbn [length seq map]. f_equal. rewrite Hv.
      rewrite <- seq_shift, map_map. apply map_ext. intros i.
      apply bool_decide_ext. lia.
    + rewrite Hb. done.
    + intros g Hg. apply gcTick_removes. unfold Go.index. rewrite Hb.
      apply Forall_forall. intros t Ht. rewrite Forall_forall in Hg.
      apply Hg. apply (subseteq_take 5 (now0 :: rest)). exact Ht.
  - intros now ip buckets valid. rewrite allow_spec. fold valid. cbn [fst snd].
    rewrite lookup_insert_eq. split; intros H.
    + rewrite bool_decide_eq_true_2 by lia. done.
    + rewrite bool_decide_eq_false_2 by lia. done.
  - apply gcTick_removes.
Qed.

Lemma allow_five_per_window_then_gc_witness :
  let clock := map (fun s => s * Second) [100; 110; 120; 130; 140; 159] in
  (allowAll "10.0.0.7" clock ∅).1 = [true; true; true; true; true; false] /\
  (allowAll "10.0.0.7" clock ∅).2 !! "10.0.0.7"%string
    = Some (map (fun s => s * Second) [100; 110; 120; 130; 140]) /\
  gcTick (400 * Second) (allowAll "10.0.0.7" clock ∅).2 !! "10.0.0.7"%string
    = None.
Proof.
  destruct (proj1 allow_five_per_window_then_gc "10.0.0.7"%string
              (100 * Second)
              (map (fun s => s * Second) [110; 120; 130; 140; 159]) ∅)
    as [H1 [H2 H3]].
  - constructor.
  - repeat constructor; vm_compute; discriminate.
  - split; [exact H1 | split; [exact H2 |]].
    apply H3. repeat constructor; vm_compute; discriminate.
Defined.

End RateLimitFacts.

(** ** float64: signs and zero tests *)

Module Float64Facts.

Import SpecFloat.

Abbreviation emin := (SpecFloat.emin float64.prec float64.emax).

Lemma leb_zero_not_above (x : float64.t) :
  float64.leb x float64.zero = true -> float64.ltb float64.zero x = false.
Proof. by destruct x as [[]|[]| |[] m e]. Qed.

Lemma above_not_below (x : float64.t) :
  float64.ltb float64.zero x = true -> float64.ltb x float64.zero = false.
Proof. by destruct x as [[]|[]| |[] m e]. Qed.

(** Rounding to the format keeps the sign it is given. *)
Lemma binary_round_aux_not_below (m e : Z) (l : location) :
  float64.ltb (binary_round_aux float64.prec float64.emax false m e l)
    float64.zero = false.
Proof.
  unfold binary_round_aux.
  destruct (shr_fexp _ _ m e l) as [mrs' e'].
  destruct (shr_fexp _ _ _ e' loc_Exact) as [mrs'' e''].
  destruct (shr_m mrs''); [done| |done].
  by destruct (e'' <=? _)%Z.
Qed.

Lemma binary_round_not_below (m : positive) (e : Z) :
  float64.ltb (binary_round float64.prec float64.emax false m e)
    float64.zero = false.
Proof.
  unfold binary_round. destruct (shl_align _ _ _) as [mz ez].
  apply binary_round_aux_not_below.
Qed.

Lemma of_Z_not_below (n : Z) :
  (0 <= n)%Z -> float64.ltb (float64.of_Z n) float64.zero = false.
Proof.
  intros Hn. destruct n as [|p|p]; [done| |lia].
  apply binary_round_not_below.
Qed.

Lemma mul_not_below (x y : float64.t) :
  float64.ltb x float64.zero = false -> float64.ltb y float64.zero = false ->
  float64.ltb (float64.mul x y) float64.zero = false.
Proof.
  destruct x as [sx|[]| |[] mx ex], y as [sy|[]| |[] my ey]; try done.
  intros _ _. apply binary_round_aux_not_below.
Qed.

Lemma div_not_below (x y : float64.t) :
  float64.ltb x float64.zero = false -> float64.ltb float64.zero y = true ->
  float64.ltb (float64.div x y) float64.zero = false.
Proof.
  destruct x as [sx|[]| |[] mx ex], y as [sy|[]| |[] my ey]; try done.
  intros _ _. unfold float64.div, SFdiv.
  destruct (SFdiv_core_binary _ _ _ _ _ _) as [[mz ez] lz].
  apply binary_round_aux_not_below.
Qed.

Lemma math_Round_not_below (x : float64.t) :
  float64.ltb x float64.zero = false ->
  float64.ltb (docker.math_Round x) float64.zero = false.
Proof.
  destruct x as [sx|sx| |[] mx [|k|k]]; try done.
  intros _. unfold docker.math_Round.
  set (n := if Z.testbit _ _ then _ else _).
  assert (0 <= n)%Z as Hn.
  { subst n.
    assert (0 <= Z.shiftr (Z.pos mx) (Z.pos k))%Z
      by (apply Z.shiftr_nonneg; lia).
    destruct (Z.testbit _ _); lia. }
  destruct n as [|p|p]; [done| |lia].
  apply binary_round_not_below.
Qed.

(** [iter_pos] is iteration. *)
Lemma iter_pos_nat {A} (f : A -> A) (p : positive) (x : A) :
  iter_pos f p x = Nat.iter (Pos.to_nat p) f x.
Proof.
  revert x. induction p as [p IH|p IH|]; intros x; cbn [iter_pos].
  - rewrite !IH, Pos2Nat.inj_xI.
    replace (S (2 * Pos.to_nat p)) with (Pos.to_nat p + (Pos.to_nat p + 1))%nat
      by lia.
    by rewrite !Nat.iter_add.
  - rewrite !IH, Pos2Nat.inj_xO.
    replace (2 * Pos.to_nat p)%nat with (Pos.to_nat p + Pos.to_nat p)%nat by lia.
    by rewrite Nat.iter_add.
  - done.
Qed.

(** One step of the right shift halves a non-negative mantissa. *)
Lemma shr_1_m (r : shr_record) :
  (0 <= shr_m r)%Z -> shr_m (shr_1 r) = Z.div2 (shr_m r).
Proof.
  destruct r as [m r s]. simpl. intros Hm.
  destruct m as [|[p|p|]|p]; try done; lia.
Qed.

Lemma shr_iter_m (n : nat) (r : shr_record) :
  (0 <= shr_m r)%Z ->
  shr_m (Nat.iter n shr_1 r) = Z.shiftr (shr_m r) (Z.of_nat n).
Proof.
  intros Hm. induction n as [|n IH].
  - by rewrite Z.shiftr_0_r.
  - rewrite Nat.iter_succ, shr_1_m, IH.
    + rewrite Z.div2_spec, Z.shiftr_shiftr by lia. f_equal. lia.
    + rewrite IH. by apply Z.shiftr_nonneg.
Qed.

(** A mantissa of [d] binary digits is at least [2^(d-1)]. *)
Lemma digits2_pos_lower (p : positive) :
  (2 ^ (Z.pos (digits2_pos p) - 1) <= Z.pos p)%Z.
Proof.
  induction p as [p IH|p IH|]; simpl; [| |done].
  - rewrite Pos2Z.inj_succ.
    replace (Z.succ (Z.pos (digits2_pos p)) - 1)%Z
      with (Z.succ (Z.pos (digits2_pos p) - 1)) by lia.
    rewrite Z.pow_succ_r by lia. lia.
  - rewrite Pos2Z.inj_succ.
    replace (Z.succ (Z.pos (digits2_pos p)) - 1)%Z
      with (Z.succ (Z.pos (digits2_pos p) - 1)) by lia.
    rewrite Z.pow_succ_r by lia. lia.
Qed.

(** Shifting a positive mantissa to the exponent of the format leaves a
    positive mantissa, as long as the exponent is not below the smallest
    one: at most all digits but the leading 53 are dropped. *)
Lemma shr_fexp_pos (m e : Z) (l : location) :
  (0 < m)%Z -> (emin <= e)%Z ->
  (0 < shr_m (shr_fexp float64.prec float64.emax m e l).1)%Z /\
  (emin <= (shr_fexp float64.prec float64.emax m e l).2)%Z.
Proof.
  intros Hm He. unfold shr_fexp, shr.
  assert (shr_m (shr_record_of_loc m l) = m) as Hrec
    by (by destruct l as [|[]]).
  destruct m as [|p|p]; [lia| |lia]. simpl Zdigits2.
  destruct (fexp float64.prec float64.emax (Z.pos (digits2_pos p) + e) - e)%Z
    as [|k|k] eqn:Ek; simpl; rewrite ?Hrec; [lia| |lia].
  split; [|lia].
  rewrite iter_pos_nat, shr_iter_m by (rewrite Hrec; lia).
  rewrite Hrec, positive_nat_Z, Z.shiftr_div_pow2 by lia.
  unfold fexp in Ek.
  assert (Z.pos k = Z.pos (digits2_pos p) - float64.prec)%Z as Hk
    by (unfold SpecFloat.emin in *; lia).
  pose proof (digits2_pos_lower p) as Hlow.
  assert (2 ^ Z.pos k <= 2 ^ (Z.pos (digits2_pos p) - 1))%Z.
  { apply Z.pow_le_mono_r; [lia|]. unfold float64.prec in Hk. lia. }
  apply Z.div_str_pos. split; [apply Z.pow_pos_nonneg; lia|lia].
Qed.

(** So rounding a positive mantissa never gives zero or NaN. *)
Lemma binary_round_aux_above (m e : Z) (l : location) :
  (0 < m)%Z -> (emin <= e)%Z ->
  float64.ltb float64.zero
    (binary_round_aux float64.prec float64.emax false m e l) = true.
Proof.
  intros Hm He. unfold binary_round_aux.
  destruct (shr_fexp_pos m e l Hm He) as [H1 H1'].
  destruct (shr_fexp _ _ m e l) as [mrs' e']. simpl in H1, H1'.
  assert (0 < round_nearest_even (shr_m mrs') (loc_of_shr_record mrs'))%Z as H2.
  { unfold round_nearest_even.
    destruct (loc_of_shr_record mrs') as [|[]]; try lia.
    destruct (Z.even _); lia. }
  destruct (shr_fexp_pos _ e' loc_Exact H2 H1') as [H3 _].
  destruct (shr_fexp _ _ _ e' loc_Exact) as [mrs'' e'']. simpl in H3.
  destruct (shr_m mrs''); [lia| |lia].
  by destruct (e'' <=? _)%Z.
Qed.

(** A positive integer converts to a value above zero. *)
Lemma of_Z_above (n : Z) :
  (0 < n)%Z -> float64.ltb float64.zero (float64.of_Z n) = true.
Proof.
  intros Hn. destruct n as [|p|p]; [lia| |lia].
  unfold float64.of_Z, binary_normalize, binary_round, shl_align.
  set (e' := fexp _ _ _).
  assert (emin <= e')%Z by (subst e'; unfold fexp; lia).
  destruct (e' - 0)%Z; by apply binary_round_aux_above.
Qed.

(** The test [float64(n) == 0] on a count. *)
Lemma of_Z_eqb_zero (n : Z) :
  (0 <= n)%Z ->
  float64.eqb (float64.of_Z n) float64.zero = bool_decide (n = 0%Z).
Proof.
  intros Hn. destruct (decide (n = 0%Z)) as [->|Hne]; [done|].
  rewrite bool_decide_eq_false_2 by done.
  assert (float64.ltb float64.zero (float64.of_Z n) = true) as H
    by (apply of_Z_above; lia).
  by destruct (float64.of_Z n) as [[]|[]| |[] m e].
Qed.

(** A value minus itself is never above zero. *)
Lemma sub_diag_not_above (x : float64.t) :
  float64.ltb float64.zero (float64.sub x x) = false.
Proof.
  destruct x as [[]|[]| |s m e]; try done.
  unfold float64.sub, SFsub. by rewrite Z.sub_diag.
Qed.

End Float64Facts.

(** ** Stats: CPU percentage and memory *)

Module StatsFacts.

Import container docker.

Lemma numCPU_spec (stats : StatsResponse.t) :
  let cpu := StatsResponse.CPUStats stats in
  (0 <= CPUStats.OnlineCPUs cpu)%Z ->
  numCPU stats =
    float64.of_Z (if decide (CPUStats.OnlineCPUs cpu = 0%Z)
                  then Z.of_nat (length (CPUUsage.PercpuUsage (CPUStats.CPUUsage cpu)))
                  else CPUStats.OnlineCPUs cpu).
Proof.
  intros cpu Hon. unfold numCPU. fold cpu.
  rewrite Float64Facts.of_Z_eqb_zero by done.
  destruct (decide (CPUStats.OnlineCPUs cpu = 0%Z)) as [E|E].
  - by rewrite bool_decide_eq_true_2.
  - by rewrite bool_decide_eq_false_2.
Qed.

(** The value is zero unless both deltas are above zero. *)
Lemma calcCPUPercent_zero (stats : StatsResponse.t) :
  float64.ltb float64.zero (sysDelta stats) = false \/
  float64.ltb float64.zero (cpuDelta stats) = false ->
  calcCPUPercent stats = float64.zero.
Proof.
  intros [H|H]; unfold calcCPUPercent; rewrite H; [done|].
  by rewrite andb_false_r.
Qed.

Lemma calcCPUPercent_positive (stats : StatsResponse.t) :
  float64.ltb float64.zero (sysDelta stats) = true ->
  float64.ltb float64.zero (cpuDelta stats) = true ->
  calcCPUPercent stats =
    float64.div
      (math_Round
         (float64.mul
            (float64.mul
               (float64.mul (float64.div (cpuDelta stats) (sysDelta stats))
                            (numCPU stats))
               (float64.of_Z 100))
            (float64.of_Z 100)))
      (float64.of_Z 100).
Proof. intros Hs Hc. unfold calcCPUPercent. by rewrite Hs, Hc. Qed.

Lemma numCPU_not_below (stats : StatsResponse.t) :
  (0 <= CPUStats.OnlineCPUs (StatsResponse.CPUStats stats))%Z ->
  float64.ltb (numCPU stats) float64.zero = false.
Proof.
  intros Hon. unfold numCPU.
  destruct (float64.eqb _ _); apply Float64Facts.of_Z_not_below; lia.
Qed.

Lemma calcCPUPercent_not_below (stats : StatsResponse.t) :
  (0 <= CPUStats.OnlineCPUs (StatsResponse.CPUStats stats))%Z ->
  float64.ltb (calcCPUPercent stats) float64.zero = false.
Proof.
  intros Hon.
  destruct (float64.ltb float64.zero (sysDelta stats)) eqn:Hs;
    [destruct (float64.ltb float64.zero (cpuDelta stats)) eqn:Hc|].
  - rewrite calcCPUPercent_positive by done.
    apply Float64Facts.div_not_below; [|done].
    apply Float64Facts.math_Round_not_below.
    repeat apply Float64Facts.mul_not_below; try done.
    + apply Float64Facts.div_not_below; [|done].
      by apply Float64Facts.above_not_below.
    + by apply numCPU_not_below.
  - by rewrite calcCPUPercent_zero by (by right).
  - by rewrite calcCPUPercent_zero by (by left).
Qed.

(** C5, as the code has it.  The deltas are differences of the counters
    converted to [float64].  With both deltas above zero the CPU
    percentage is [(cpuDelta / systemDelta) * cpus * 100], times 100,
    rounded to the nearest integer and divided by 100, every operation
    in [float64]; [cpus] is the reported online-CPU count or, when that
    count is 0, the number of per-CPU usage entries.  It is exactly 0
    when either delta is at most zero, and it is never below zero. *)
Theorem calcCPUPercent_value (stats : StatsResponse.t) :
  let cpu := StatsResponse.CPUStats stats in
  let pre := StatsResponse.PreCPUStats stats in
  let cpuD := float64.sub
                (float64.of_Z (CPUUsage.TotalUsage (CPUStats.CPUUsage cpu)))
                (float64.of_Z (CPUUsage.TotalUsage (CPUStats.CPUUsage pre))) in
  let sysD := float64.sub (float64.of_Z (CPUStats.SystemUsage cpu))
                          (float64.of_Z (CPUStats.SystemUsage pre)) in
  let cpus := if decide (CPUStats.OnlineCPUs cpu = 0%Z)
              then Z.of_nat (length (CPUUsage.PercpuUsage (CPUStats.CPUUsage cpu)))
              else CPUStats.OnlineCPUs cpu in
  (0 <= CPUStats.OnlineCPUs cpu)%Z ->
  (float64.ltb float64.zero sysD = true ->
   float64.ltb float64.zero cpuD = true ->
   calcCPUPercent stats =
     float64.div
       (math_Round
          (float64.mul
             (float64.mul
                (float64.mul (float64.div cpuD sysD) (float64.of_Z cpus))
                (float64.of_Z 100))
             (float64.of_Z 100)))
       (float64.of_Z 100)) /\
  (float64.leb sysD float64.zero = true \/
   float64.leb cpuD float64.zero = true ->
   calcCPUPercent stats = float64.zero) /\
  float64.ltb (calcCPUPercent stats) float64.zero = false.
Proof.
  intros cpu pre cpuD sysD cpus Hon. split; [|split].
  - intros Hs Hc. rewrite calcCPUPercent_positive by done.
    by rewrite numCPU_spec.
  - intros [H|H]; apply calcCPUPercent_zero; [left|right];
      by apply Float64Facts.leb_zero_not_above.
  - by apply calcCPUPercent_not_below.
Qed.

Lemma calcCPUPercent_value_witness :
  (0 <= CPUStats.OnlineCPUs (StatsResponse.CPUStats samples.statsFourCPUs))%Z /\
  calcCPUPercent samples.statsFourCPUs = float64.of_Z 40 /\
  float64.ltb (calcCPUPercent samples.statsFourCPUs) float64.zero = false.
Proof.
  assert (0 <= CPUStats.OnlineCPUs (StatsResponse.CPUStats samples.statsFourCPUs))%Z
    as Hon by (simpl; lia).
  destruct (calcCPUPercent_value samples.statsFourCPUs Hon) as [H1 [_ H3]].
  split; [exact Hon|]. split; [|exact H3].
  rewrite H1; reflexivity.
Defined.

(** The claim of C5 read with the reported online-CPU count fails on a
    sample whose count is 0: the code falls back to the two per-CPU
    entries and reports 100, where the formula with a count of 0 gives 0. *)
Lemma calcCPUPercent_online_count_zero :
  let s := samples.statsNoOnlineCount in
  let online := CPUStats.OnlineCPUs (StatsResponse.CPUStats s) in
  online = 0%Z /\
  float64.ltb float64.zero (sysDelta s) = true /\
  float64.ltb float64.zero (cpuDelta s) = true /\
  calcCPUPercent s = float64.of_Z 100 /\
  float64.div
    (math_Round
       (float64.mul
          (float64.mul
             (float64.mul (float64.div (cpuDelta s) (sysDelta s))
                          (float64.of_Z online))
             (float64.of_Z 100))
          (float64.of_Z 100)))
    (float64.of_Z 100) = float64.zero /\
  calcCPUPercent s <> float64.zero.
Proof. repeat split. discriminate. Qed.

(** The percentage is computed in binary.  With a CPU delta of 23
    against a system delta of 160 on one CPU the exact value is 14.375,
    that is 1437 hundredths and a half; the code reports 1437 hundredths,
    not 1438, because the product it rounds lies just below 1437.5. *)
Lemma calcCPUPercent_binary_rounding :
  let s := samples.statsOneCPU in
  let cpu := StatsResponse.CPUStats s in
  let pre := StatsResponse.PreCPUStats s in
  let cpuD := (CPUUsage.TotalUsage (CPUStats.CPUUsage cpu) -
               CPUUsage.TotalUsage (CPUStats.CPUUsage pre))%Z in
  let sysD := (CPUStats.SystemUsage cpu - CPUStats.SystemUsage pre)%Z in
  (2 * (cpuD * CPUStats.OnlineCPUs cpu * 100 * 100) = (2 * 1437 + 1) * sysD)%Z /\
  calcCPUPercent s = float64.div (float64.of_Z 1437) (float64.of_Z 100) /\
  calcCPUPercent s <> float64.div (float64.of_Z 1438) (float64.of_Z 100).
Proof. split; [reflexivity | split; [reflexivity | discriminate]]. Qed.

(** Counters that did not move give a percentage of zero. *)
Lemma calcCPUPercent_unchanged_counters (stats : StatsResponse.t) :
  let cpu := StatsResponse.CPUStats stats in
  let pre := StatsResponse.PreCPUStats stats in
  CPUUsage.TotalUsage (CPUStats.CPUUsage cpu)
    = CPUUsage.TotalUsage (CPUStats.CPUUsage pre) \/
  CPUStats.SystemUsage cpu = CPUStats.SystemUsage pre ->
  calcCPUPercent stats = float64.zero.
Proof.
  intros cpu pre [H|H]; apply calcCPUPercent_zero; [right|left].
  - unfold cpuDelta. fold cpu pre. rewrite H.
    apply Float64Facts.sub_diag_not_above.
  - unfold sysDelta. fold cpu pre. rewrite H.
    apply Float64Facts.sub_diag_not_above.
Qed.

(** Counters that differ by one above [2^53] convert to the same
    [float64]: the delta is zero and so is the percentage. *)
Lemma calcCPUPercent_close_counters (system : Z) :
  let stats :=
    {| StatsResponse.CPUStats := samples.cpuStats (2 ^ 53 + 1) system 1 [];
       StatsResponse.PreCPUStats := samples.cpuStats (2 ^ 53) 0 1 [];
       StatsResponse.MemoryStats :=
         StatsResponse.MemoryStats samples.statsNoCache |} in
  calcCPUPercent stats = float64.zero.
Proof. intros stats. apply calcCPUPercent_zero. by right. Qed.

(** [math.Round] on a few values: halves go away from zero, and a
    negative value below one half in magnitude rounds to [-0]. *)
Lemma math_Round_samples :
  math_Round (float64.div (float64.of_Z 5) (float64.of_Z 2)) = float64.of_Z 3 /\
  math_Round (float64.div (float64.of_Z (-5)) (float64.of_Z 2)) = float64.of_Z (-3) /\
  math_Round (float64.div (float64.of_Z 7) (float64.of_Z 5)) = float64.of_Z 1 /\
  math_Round (float64.div (float64.of_Z 1) (float64.of_Z 3)) = float64.zero /\
  math_Round (float64.div (float64.of_Z (-1)) (float64.of_Z 3))
    = SpecFloat.S754_zero true /\
  math_Round (float64.of_Z 1437) = float64.of_Z 1437.
Proof. repeat split. Qed.

(** [calcMemory] on well-formed [uint64] figures. *)
Lemma calcMemory_spec (stats : StatsResponse.t) :
  let m := StatsResponse.MemoryStats stats in
  let cache := Go.index 0%Z (MemoryStats.Stats m) "cache" in
  is_u64 (MemoryStats.Usage m) -> is_u64 cache ->
  calcMemory stats =
    (if decide (cache < MemoryStats.Usage m)%Z
     then (MemoryStats.Usage m - cache)%Z else 0%Z,
     MemoryStats.Limit m).
Proof.
  intros m cache Hu Hc. unfold calcMemory. fold m cache. f_equal.
  unfold is_u64 in *.
  destruct (Z.ltb_spec cache (MemoryStats.Usage m)); case_decide; try lia.
  unfold u64_sub. apply Z.mod_small. lia.
Qed.

(** C3, as the code has it.  Reported memory used is usage minus the
    page-cache figure when that figure is available and not larger than
    usage, raw usage when the figure is unavailable, and 0 when the
    figure is larger than usage; the limit is the engine's, verbatim. *)
Theorem calcMemory_value (stats : StatsResponse.t) :
  let m := StatsResponse.MemoryStats stats in
  is_u64 (MemoryStats.Usage m) ->
  (forall c, MemoryStats.Stats m !! "cache"%string = Some c -> is_u64 c) ->
  (forall c, MemoryStats.Stats m !! "cache"%string = Some c ->
             (c <= MemoryStats.Usage m)%Z ->
             (calcMemory stats).1 = (MemoryStats.Usage m - c)%Z) /\
  (MemoryStats.Stats m !! "cache"%string = None ->
   (calcMemory stats).1 = MemoryStats.Usage m) /\
  (forall c, MemoryStats.Stats m !! "cache"%string = Some c ->
             (MemoryStats.Usage m < c)%Z ->
             (calcMemory stats).1 = 0%Z) /\
  (calcMemory stats).2 = MemoryStats.Limit m.
Proof.
  intros m Hu Hc.
  assert (is_u64 (Go.index 0%Z (MemoryStats.Stats m) "cache")) as Hc'.
  { unfold Go.index. destruct (MemoryStats.Stats m !! "cache"%string) as [c|];
      [by apply Hc | unfold is_u64, u64; lia]. }
  rewrite (calcMemory_spec stats Hu Hc'). fold m. cbn [fst snd].
  unfold Go.index. unfold is_u64 in Hu.
  split; [|split; [|split]].
  - intros c -> Hle. case_decide; lia.
  - intros ->. case_decide; lia.
  - intros c -> Hlt. case_decide; lia.
  - reflexivity.
Qed.

Lemma calcMemory_value_witness :
  (calcMemory samples.statsFourCPUs).1 = 3800%Z /\
  (calcMemory samples.statsNoCache).1 = 4096%Z /\
  (calcMemory samples.statsNoOnlineCount).1 = 0%Z /\
  (calcMemory samples.statsFourCPUs).2 = 80000%Z.
Proof.
  assert (forall z : Z, (z <? 0)%Z = false -> (z <? 2 ^ 32)%Z = true -> is_u64 z)
    as Hsmall by (unfold is_u64, u64; lia).
  split; [|split; [|split]].
  - apply (proj1 (calcMemory_value samples.statsFourCPUs
                    ltac:(by apply Hsmall)
                    ltac:(intros c Hc; vm_compute in Hc; injection Hc as <-;
                          by apply Hsmall)) 1200%Z);
      [reflexivity | vm_compute; discriminate].
  - apply (proj1 (proj2 (calcMemory_value samples.statsNoCache
                    ltac:(by apply Hsmall)
                    ltac:(intros c Hc; vm_compute in Hc; discriminate Hc))));
      reflexivity.
  - apply (proj1 (proj2 (proj2 (calcMemory_value samples.statsNoOnlineCount
                    ltac:(by apply Hsmall)
                    ltac:(intros c Hc; vm_compute in Hc; injection Hc as <-;
                          by apply Hsmall)))) 300%Z);
      [reflexivity | reflexivity].
  - apply (proj2 (proj2 (proj2 (calcMemory_value samples.statsFourCPUs
                    ltac:(by apply Hsmall)
                    ltac:(intros c Hc; vm_compute in Hc; injection Hc as <-;
                          by apply Hsmall))))).
Defined.

(** The claim of C3 fails when the cache figure is larger than usage:
    the code reports 0, not the raw usage. *)
Lemma calcMemory_cache_above_usage :
  let m := StatsResponse.MemoryStats samples.statsNoOnlineCount in
  MemoryStats.Stats m !! "cache"%string = Some 300%Z /\
  MemoryStats.Usage m = 100%Z /\
  (calcMemory samples.statsNoOnlineCount).1 = 0%Z /\
  (calcMemory samples.statsNoOnlineCount).1 <> MemoryStats.Usage m.
Proof.
  split; [reflexivity | split; [reflexivity | split; [reflexivity|]]].
  intros H. vm_compute in H. discriminate H.
Qed.

End StatsFacts.

(** ** The stats aggregation pass *)

Module AggregatorFacts.

Import container docker.

Lemma concat_perm {A} (l1 l2 : list (list A)) :
  Permutation l1 l2 -> Permutation (concat l1) (concat l2).
Proof.
  induction 1 as [|x l1 l2 _ IH|x y l|l1 l2 l3 _ IH1 _ IH2]; simpl.
  - reflexivity.
  - by rewrite IH.
  - rewrite !app_assoc. apply Permutation_app_tail, Permutation_app_comm.
  - by rewrite IH1.
Qed.

Lemma lookup_map {A B} (f : A -> B) (l : list A) (i : nat) :
  map f l !! i = match l !! i with Some x => Some (f x) | None => None end.
Proof.
  revert i; induction l as [|x l IH]; intros [|i]; simpl; done.
Qed.

Section Drain.

Let put (statsMap : gmap string containerStats) (s : containerStats) :=
  <[id s := s]> statsMap.

Lemma put_all_other (l : list containerStats) (m : gmap string containerStats)
    (k : string) :
  k ∉ map id l -> foldl put m l !! k = m !! k.
Proof.
  revert m; induction l as [|s l IH]; intros m Hk; simpl; [done|].
  simpl in Hk. apply not_elem_of_cons in Hk as [Hne Hk].
  rewrite IH by done. unfold put. by rewrite lookup_insert_ne.
Qed.

Lemma put_all_member (l : list containerStats) (m : gmap string containerStats)
    (s : containerStats) :
  NoDup (map id l) -> s ∈ l -> foldl put m l !! id s = Some s.
Proof.
  revert m; induction l as [|s0 l IH]; intros m Hnd Hs; simpl.
  - by apply elem_of_nil in Hs.
  - simpl in Hnd. apply NoDup_cons in Hnd as [Hfresh Hnd].
    apply elem_of_cons in Hs as [-> | Hs].
    + rewrite put_all_other by done. unfold put. apply lookup_insert_eq.
    + by apply IH.
Qed.

(** With distinct identifiers the map holds each sample under its key,
    whatever the arrival order. *)
Lemma drain_lookup (arrivals : list containerStats) (s : containerStats) :
  NoDup (map id arrivals) -> s ∈ arrivals -> drain arrivals !! id s = Some s.
Proof. apply put_all_member. Qed.

End Drain.

Lemma statsWorker_id CS (id0 : string) (running : bool) :
  id (statsWorker CS id0 running).1 = id0.
Proof.
  unfold statsWorker. destruct running; simpl; [|done].
  by destruct (fetchStats (CS id0)) as [[c m] l].
Qed.

(** The engine is asked only for the running identifiers. *)
Lemma statsWorker_calls CS (l : list Summary.t) :
  concat (map (fun c => (statsWorker CS (Summary.ID c)
                           (String.eqb (Summary.State c) "running")).2) l)
  = map Summary.ID
        (List.filter (fun c => String.eqb (Summary.State c) "running") l).
Proof.
  induction l as [|c l IH]; simpl; [done|]. rewrite IH.
  unfold statsWorker.
  destruct (String.eqb (Summary.State c) "running"); simpl; [|done].
  by destruct (fetchStats (CS (Summary.ID c))) as [[? ?] ?].
Qed.

Lemma fetchStats_failure (reply : StatsReply) :
  (forall stats, reply <> StatsBody stats) -> fetchStats reply = (float64.zero, 0%Z, 0%Z).
Proof. intros H. destruct reply; try done. by destruct (H stats). Qed.

Lemma toContainer_ok (statsMap : gmap string containerStats) (c : Summary.t)
    (s : containerStats) :
  statsMap !! Summary.ID c = Some s ->
  (12 <= String.length (Summary.ID c))%nat ->
  exists r, toContainer statsMap c = Go.Ok r /\
    models.Container.FullID r = Summary.ID c /\
    models.Container.ID r = String.substring 0 12 (Summary.ID c) /\
    models.Container.CPU r = cpu s /\
    models.Container.Memory r = mem s /\
    models.Container.MemoryLimit r = memLim s.
Proof.
  intros Hs Hlen. unfold toContainer.
  rewrite GoFacts.slice_to_ok by done. unfold Go.index. rewrite Hs.
  eexists. split; [reflexivity|]. simpl. done.
Qed.

(** The pass on distinct, well-formed identifiers, whatever the order in
    which the goroutines report. *)
Lemma GetContainers_samples
    (batch : list Summary.t) (CS : string -> StatsReply) (schedule : list nat) :
  NoDup (map Summary.ID batch) ->
  Forall (fun c => (12 <= String.length (Summary.ID c))%nat) batch ->
  let isRunning := fun c => String.eqb (Summary.State c) "running" in
  let pass := GetContainers (Go.Ok batch) CS schedule in
  exists result,
    pass.1 = Go.Ok result /\
    length result = length batch /\
    (forall i c, batch !! i = Some c ->
       exists r, result !! i = Some r /\
         models.Container.FullID r = Summary.ID c /\
         let sample := (models.Container.CPU r, models.Container.Memory r,
                        models.Container.MemoryLimit r) in
         (isRunning c = false -> sample = (float64.zero, 0%Z, 0%Z)) /\
         (isRunning c = true -> sample = fetchStats (CS (Summary.ID c))) /\
         (isRunning c = true ->
          (forall stats, CS (Summary.ID c) <> StatsBody stats) ->
          sample = (float64.zero, 0%Z, 0%Z))) /\
    Permutation pass.2 (map Summary.ID (List.filter isRunning batch)) /\
    (forall c, c ∈ batch -> isRunning c = false -> Summary.ID c ∉ pass.2).
Proof.
  intros Hnd Hlen isRunning pass.
  set (runs := map (fun c => statsWorker CS (Summary.ID c) (isRunning c)) batch).
  set (sent := Go.shuffle schedule runs).
  assert (Permutation sent runs) as Hperm by apply GoFacts.shuffle_perm.
  assert (map id (map fst runs) = map Summary.ID batch) as Hids.
  { subst runs. rewrite !map_map. apply map_ext. intros c.
    apply statsWorker_id. }
  assert (NoDup (map id (map fst sent))) as Hnd'.
  { rewrite Hperm, Hids. exact Hnd. }
  assert (forall c, c ∈ batch ->
            drain (map fst sent) !! Summary.ID c
            = Some (statsWorker CS (Summary.ID c) (isRunning c)).1) as Hlook.
  { intros c Hc.
    rewrite <- (statsWorker_id CS (Summary.ID c) (isRunning c)) at 1.
    apply drain_lookup; [exact Hnd'|].
    rewrite Hperm. subst runs. rewrite map_map.
    apply list_elem_of_In, in_map_iff. exists c. split; [done|].
    by apply list_elem_of_In. }
  assert (Permutation pass.2 (map Summary.ID (List.filter isRunning batch)))
    as Hcalls.
  { subst pass. cbn [GetContainers snd].
    change (Permutation (concat (map snd sent))
              (map Summary.ID (List.filter isRunning batch))).
    rewrite (concat_perm _ _ (Permutation_map snd Hperm)).
    subst runs. rewrite map_map. by rewrite statsWorker_calls. }
  destruct (GoFacts.mapM_Forall2 (toContainer (drain (map fst sent)))
              (fun c r =>
                 models.Container.FullID r = Summary.ID c /\
                 (models.Container.CPU r, models.Container.Memory r,
                  models.Container.MemoryLimit r)
                 = (cpu (statsWorker CS (Summary.ID c) (isRunning c)).1,
                    mem (statsWorker CS (Summary.ID c) (isRunning c)).1,
                    memLim (statsWorker CS (Summary.ID c) (isRunning c)).1))
              batch) as [result [Hres HF]].
  { intros c Hc.
    destruct (toContainer_ok _ c _ (Hlook c Hc)) as [r [Hr [H1 [_ [H2 [H3 H4]]]]]].
    - rewrite Forall_forall in Hlen. by apply Hlen.
    - exists r. split; [exact Hr|]. split; [exact H1|]. by rewrite H2, H3, H4. }
  exists result. split; [exact Hres|].
  split; [symmetry; by eapply Forall2_length|].
  split; [|split; [exact Hcalls|]].
  - intros i c Hi.
    destruct (Forall2_lookup_l _ _ _ _ _ HF Hi) as [r [Hr [Hfull Hsample]]].
    exists r. split; [exact Hr|]. split; [exact Hfull|].
    cbn zeta. rewrite Hsample. unfold statsWorker.
    destruct (isRunning c); cbn [negb].
    + destruct (fetchStats (CS (Summary.ID c))) as [[x y] z] eqn:E.
      split; [done|]. split; [done|]. intros _ Hfail.
      rewrite fetchStats_failure in E by done. by injection E as <- <- <-.
    + done.
  - intros c Hc Hstop Hin. rewrite Hcalls in Hin.
    apply list_elem_of_In, in_map_iff in Hin as [c' [Hid Hc']].
    apply filter_In in Hc' as [Hc' Hrun].
    assert (c' = c) as ->; [|congruence].
    apply list_elem_of_In, list_elem_of_lookup in Hc' as [j Hj].
    apply list_elem_of_lookup in Hc as [i Hi].
    assert (map Summary.ID batch !! j = Some (Summary.ID c')) as Hj'
      by (by rewrite lookup_map, Hj).
    assert (map Summary.ID batch !! i = Some (Summary.ID c)) as Hi'
      by (by rewrite lookup_map, Hi).
    rewrite <- Hid in Hi'.
    assert (i = j) as -> by exact (NoDup_lookup _ _ _ _ Hnd Hi' Hj').
    congruence.
Qed.

(** The result loop is total up to the identifier slice. *)
Lemma toContainer_long_id (statsMap : gmap string containerStats)
    (c : Summary.t) :
  (12 <= String.length (Summary.ID c))%nat ->
  exists r, toContainer statsMap c = Go.Ok r.
Proof.
  intros Hlen. unfold toContainer. rewrite GoFacts.slice_to_ok by done.
  by eexists.
Qed.

Lemma toContainer_short_id (statsMap : gmap string containerStats)
    (c : Summary.t) :
  (String.length (Summary.ID c) < 12)%nat ->
  toContainer statsMap c = Go.Panic "slice bounds out of range".
Proof.
  intros Hlen. unfold toContainer.
  apply GoFacts.slice_to_panics in Hlen. by rewrite Hlen.
Qed.

Lemma GetContainers_short_id (batch : list Summary.t)
    (CS : string -> StatsReply) (schedule : list nat) (c : Summary.t) :
  c ∈ batch -> (String.length (Summary.ID c) < 12)%nat ->
  (GetContainers (Go.Ok batch) CS schedule).1
    = Go.Panic "slice bounds out of range".
Proof.
  intros Hc Hlen. cbn [GetContainers fst].
  eapply GoFacts.mapM_panics; [exact Hc | by apply toContainer_short_id |].
  intros y _. destruct (le_lt_dec 12 (String.length (Summary.ID y))).
  - left. by apply toContainer_long_id.
  - right. by apply toContainer_short_id.
Qed.

Lemma GetContainers_long_ids (batch : list Summary.t)
    (CS : string -> StatsReply) (schedule : list nat) :
  Forall (fun c => (12 <= String.length (Summary.ID c))%nat) batch ->
  exists result, (GetContainers (Go.Ok batch) CS schedule).1 = Go.Ok result.
Proof.
  intros Hlen. cbn [GetContainers fst].
  destruct (GoFacts.mapM_Forall2
              (toContainer
                 (drain (map fst (Go.shuffle schedule
                    (map (fun c => statsWorker CS (Summary.ID c)
                            (String.eqb (Summary.State c) "running")) batch)))))
              (fun _ _ => True) batch) as [result [Hres _]].
  - intros c Hc. rewrite Forall_forall in Hlen.
    destruct (toContainer_long_id
                (drain (map fst (Go.shuffle schedule
                    (map (fun c => statsWorker CS (Summary.ID c)
                            (String.eqb (Summary.State c) "running")) batch))))
                c (Hlen c Hc)) as [r Hr].
    by exists r.
  - by exists result.
Qed.

(** C6.  For a batch of N listed containers with distinct identifiers,
    whatever the order in which the goroutines report: the pass returns
    whenever the identifiers are well-formed, and every result it returns
    has exactly N entries, the i-th keyed by the i-th identifier.  An
    entry whose container is not running carries the zero sample, and the
    engine stats call is made for the running identifiers only (M calls).
    An entry whose stats call fails (error, unreadable body or
    unparseable body) carries the zero sample, and every other running
    entry carries the sample computed from its own reply. *)
Theorem GetContainers_one_sample_each
    (batch : list Summary.t) (CS : string -> StatsReply) (schedule : list nat) :
  NoDup (map Summary.ID batch) ->
  let isRunning := fun c => String.eqb (Summary.State c) "running" in
  let pass := GetContainers (Go.Ok batch) CS schedule in
  (Forall (fun c => (12 <= String.length (Summary.ID c))%nat) batch ->
   exists result, pass.1 = Go.Ok result) /\
  (forall result, pass.1 = Go.Ok result ->
     length result = length batch /\
     forall i c, batch !! i = Some c ->
       exists r, result !! i = Some r /\
         models.Container.FullID r = Summary.ID c /\
         let sample := (models.Container.CPU r, models.Container.Memory r,
                        models.Container.MemoryLimit r) in
         (isRunning c = false -> sample = (float64.zero, 0%Z, 0%Z)) /\
         (isRunning c = true -> sample = fetchStats (CS (Summary.ID c))) /\
         (isRunning c = true ->
          (forall stats, CS (Summary.ID c) <> StatsBody stats) ->
          sample = (float64.zero, 0%Z, 0%Z))) /\
  Permutation pass.2 (map Summary.ID (List.filter isRunning batch)) /\
  (forall c, c ∈ batch -> isRunning c = false -> Summary.ID c ∉ pass.2).
Proof.
  intros Hnd isRunning pass.
  assert (Permutation pass.2 (map Summary.ID (List.filter isRunning batch)))
    as Hcalls.
  { subst pass. unfold isRunning. cbn [GetContainers snd].
    set (runs := map (fun c => statsWorker CS (Summary.ID c)
                                 (String.eqb (Summary.State c) "running")) batch).
    rewrite (concat_perm _ _
               (Permutation_map snd (GoFacts.shuffle_perm schedule runs))).
    subst runs. rewrite map_map. by rewrite statsWorker_calls. }
  split; [apply GetContainers_long_ids|]. split; [|split; [exact Hcalls|]].
  - intros result Hres.
    assert (Forall (fun c => (12 <= String.length (Summary.ID c))%nat) batch)
      as Hlen.
    { apply Forall_forall. intros c Hc.
      destruct (le_lt_dec 12 (String.length (Summary.ID c))) as [Hle|Hlt];
        [done|].
      subst pass.
      rewrite (GetContainers_short_id batch CS schedule c Hc Hlt) in Hres.
      discriminate Hres. }
    destruct (GetContainers_samples batch CS schedule Hnd Hlen)
      as [result' [Hres' [Hn [Heach _]]]].
    fold pass in Hres'. rewrite Hres in Hres'. injection Hres' as <-.
    split; [exact Hn | exact Heach].
  - intros c Hc Hstop Hin. rewrite Hcalls in Hin.
    apply list_elem_of_In, in_map_iff in Hin as [c' [Hid Hc']].
    apply filter_In in Hc' as [Hc' Hrun].
    assert (c' = c) as ->; [|congruence].
    apply list_elem_of_In, list_elem_of_lookup in Hc' as [j Hj].
    apply list_elem_of_lookup in Hc as [i Hi].
    assert (map Summary.ID batch !! j = Some (Summary.ID c')) as Hj'
      by (by rewrite lookup_map, Hj).
    assert (map Summary.ID batch !! i = Some (Summary.ID c)) as Hi'
      by (by rewrite lookup_map, Hi).
    rewrite <- Hid in Hi'.
    assert (i = j) as -> by exact (NoDup_lookup _ _ _ _ Hnd Hi' Hj').
    congruence.
Qed.

Lemma GetContainers_one_sample_each_witness :
  exists result,
    (GetContainers (Go.Ok samples.batch) samples.engineStats [2; 0; 1]%nat).1
      = Go.Ok result /\
    length result = 3%nat /\
    Permutation
      (GetContainers (Go.Ok samples.batch) samples.engineStats [2; 0; 1]%nat).2
      [samples.webID; samples.cacheID] /\
    (exists r, result !! 1%nat = Some r /\
               models.Container.FullID r = samples.dbID /\
               models.Container.Memory r = 0%Z) /\
    (exists r, result !! 2%nat = Some r /\
               models.Container.FullID r = samples.cacheID /\
               models.Container.Memory r = 0%Z).
Proof.
  destruct (GetContainers_one_sample_each samples.batch samples.engineStats
              [2; 0; 1]%nat)
    as [Hex [Hall [Hcalls _]]].
  { apply (bool_decide_unpack _). vm_compute. exact I. }
  destruct Hex as [result Hres].
  - repeat constructor; vm_compute; discriminate.
  - destruct (Hall result Hres) as [Hlen Heach].
    exists result. split; [exact Hres|]. split; [exact Hlen|].
    split; [exact Hcalls|]. split.
    + destruct (Heach 1%nat samples.db eq_refl) as [r [Hr [Hfull [Hstop _]]]].
      exists r. split; [exact Hr|]. split; [exact Hfull|].
      specialize (Hstop eq_refl). by injection Hstop.
    + destruct (Heach 2%nat samples.cache eq_refl)
        as [r [Hr [Hfull [_ [_ Hfail]]]]].
      exists r. split; [exact Hr|]. split; [exact Hfull|].
      assert ((models.Container.CPU r, models.Container.Memory r,
               models.Container.MemoryLimit r) = (float64.zero, 0%Z, 0%Z)) as Hz
        by (apply Hfail; [reflexivity | intros stats; vm_compute; discriminate]).
      by injection Hz.
Defined.

End AggregatorFacts.

(** ** Stack reconciliation *)

Module ReconcilerFacts.

Import container compose.

Section Binding.

Let step (m : gmap string Summary.t) (c : Summary.t) :=
  let svc := label c "com.docker.compose.service" in
  if negb (String.eqb svc "") then <[svc := c]> m else m.

(** A service is bound to the last listed container that carries its
    name in the service label; nothing is bound to the empty name. *)
Lemma containerByService_lookup (l : list Summary.t) (name : string) :
  containerByService l !! name =
    if decide (name = ""%string) then None
    else last (filter (fun c => label c "com.docker.compose.service" = name) l).
Proof.
  unfold containerByService. fold step.
  induction l as [|c l IH] using rev_ind.
  - simpl. rewrite lookup_empty. by case_decide.
  - rewrite foldl_snoc, filter_app, last_app. unfold step at 1.
    destruct (String.eqb_spec (label c "com.docker.compose.service") "")
      as [Hz|Hnz]; cbn [negb].
    + rewrite IH. case_decide as Hname; [done|].
      rewrite filter_cons_False by congruence. done.
    + destruct (decide (label c "com.docker.compose.service" = name)) as [<-|Hne].
      * rewrite lookup_insert_eq. rewrite decide_False by done.
        rewrite filter_cons_True by done. done.
      * rewrite lookup_insert_ne by done. rewrite IH.
        rewrite filter_cons_False by done. done.
Qed.

Lemma containerByService_unbound (l : list Summary.t) (name : string) :
  (forall c, c ∈ l -> label c "com.docker.compose.service" <> name) ->
  containerByService l !! name = None.
Proof.
  intros H. rewrite containerByService_lookup. case_decide; [done|].
  induction l as [|c l IH]; [done|].
  rewrite filter_cons_False by (apply H; by left).
  apply IH. intros c' Hc'. apply H. by right.
Qed.

Lemma containerByService_member (l : list Summary.t) (name : string)
    (c : Summary.t) :
  containerByService l !! name = Some c ->
  c ∈ l /\ label c "com.docker.compose.service" = name.
Proof.
  rewrite containerByService_lookup. case_decide; [done|]. intros Hlast.
  apply last_Some in Hlast as [l' Hl'].
  assert (c ∈ filter (fun c => label c "com.docker.compose.service" = name) l)
    as Hc by (rewrite Hl'; apply elem_of_app; right; by left).
  by apply list_elem_of_filter in Hc as [? ?].
Qed.

End Binding.

(** The snapshot of a declared service without a live counterpart. *)
Lemma serviceOf_unbound (byService : gmap string Summary.t) (name : string) :
  byService !! name = None ->
  serviceOf byService name =
    Go.Ok {| models.ComposeService.Name := name;
             models.ComposeService.ContainerID := "";
             models.ComposeService.Status := "not created";
             models.ComposeService.State := "stopped";
             models.ComposeService.Running := false |}.
Proof. intros H. unfold serviceOf. by rewrite H. Qed.

Lemma serviceOf_short_id (byService : gmap string Summary.t) (name : string)
    (c : Summary.t) :
  byService !! name = Some c ->
  (String.length (Summary.ID c) < 12)%nat ->
  serviceOf byService name = Go.Panic "slice bounds out of range".
Proof.
  intros H Hlen. unfold serviceOf. rewrite H.
  apply GoFacts.slice_to_panics in Hlen. by rewrite Hlen.
Qed.

(** The code's notion of "bound and running". *)
Lemma serviceOf_running (byService : gmap string Summary.t) (name : string)
    (svc : models.ComposeService.t) :
  serviceOf byService name = Go.Ok svc ->
  models.ComposeService.Name svc = name /\
  (models.ComposeService.Running svc = true <->
   exists c, byService !! name = Some c /\
             Summary.State c = "running"%string).
Proof.
  unfold serviceOf. destruct (byService !! name) as [c|] eqn:E.
  - destruct (Go.slice_to (Summary.ID c) 12) as [cid| |]; simpl; try done.
    intros [= <-]. simpl. split; [done|]. rewrite String.eqb_eq. split.
    + intros Hr. by exists c.
    + by intros [c' [[= <-] Hr]].
  - intros [= <-]. simpl. split; [done|]. split; [done|]. by intros [c [? _]].
Qed.

Lemma serviceOf_ok (byService : gmap string Summary.t) (name : string) :
  (forall c, byService !! name = Some c ->
             (12 <= String.length (Summary.ID c))%nat) ->
  exists svc, serviceOf byService name = Go.Ok svc.
Proof.
  intros H. unfold serviceOf. destruct (byService !! name) as [c|]; [|by eexists].
  rewrite GoFacts.slice_to_ok by (by apply H). by eexists.
Qed.

(** The service loop appends one snapshot per declared name and counts
    the running ones. *)
Lemma serviceLoop_ok (byService : gmap string Summary.t) (names : list string) :
  forall (running : nat) (services : list models.ComposeService.t),
  Forall (fun name => exists svc, serviceOf byService name = Go.Ok svc) names ->
  exists svcs,
    serviceLoop byService names running services =
      Go.Ok ((running + length (List.filter models.ComposeService.Running svcs))%nat,
             services ++ svcs) /\
    Forall2 (fun name svc => serviceOf byService name = Go.Ok svc) names svcs.
Proof.
  induction names as [|name names IH]; intros running services Hok.
  - exists []. simpl. rewrite Nat.add_0_r, app_nil_r. split; [done | constructor].
  - apply Forall_cons in Hok as [[svc Hsvc] Hok].
    destruct (IH (if models.ComposeService.Running svc then S running else running)
                 (services ++ [svc]) Hok) as [svcs [Hloop HF]].
    exists (svc :: svcs). split; [|by constructor].
    simpl. rewrite Hsvc. simpl. rewrite Hloop. rewrite <- app_assoc.
    destruct (models.ComposeService.Running svc); simpl; do 2 f_equal; lia.
Qed.

(** Conversely, a loop that returns has appended one snapshot per name. *)
Lemma serviceLoop_inv (byService : gmap string Summary.t) (names : list string) :
  forall (running : nat) (services : list models.ComposeService.t)
         (running' : nat) (out : list models.ComposeService.t),
  serviceLoop byService names running services = Go.Ok (running', out) ->
  exists svcs,
    out = services ++ svcs /\
    running' =
      (running + length (List.filter models.ComposeService.Running svcs))%nat /\
    Forall2 (fun name svc => serviceOf byService name = Go.Ok svc) names svcs.
Proof.
  induction names as [|name names IH]; intros running services running' out.
  - simpl. intros [= <- <-]. exists []. rewrite app_nil_r. simpl.
    split; [done|]. split; [lia | constructor].
  - simpl. destruct (serviceOf byService name) as [svc| |] eqn:Hsvc;
      simpl; try done.
    intros Hloop. apply IH in Hloop as [svcs [-> [-> HF]]].
    exists (svc :: svcs). rewrite <- app_assoc. split; [done|].
    split; [|by constructor].
    simpl. destruct (models.ComposeService.Running svc); simpl; lia.
Qed.

Lemma serviceLoop_short_id (byService : gmap string Summary.t)
    (names : list string) (name : string) (c : Summary.t) :
  forall (running : nat) (services : list models.ComposeService.t),
  name ∈ names -> byService !! name = Some c ->
  (String.length (Summary.ID c) < 12)%nat ->
  serviceLoop byService names running services
    = Go.Panic "slice bounds out of range".
Proof.
  induction names as [|n names IH]; intros running services Hin Hb Hlen.
  - by apply elem_of_nil in Hin.
  - simpl. unfold serviceOf at 1.
    destruct (byService !! n) as [c'|] eqn:E.
    + unfold Go.slice_to. destruct (12 <=? String.length (Summary.ID c'))%nat eqn:E12.
      * simpl. apply elem_of_cons in Hin as [-> | Hin].
        -- rewrite Hb in E. injection E as <-. apply Nat.leb_le in E12. lia.
        -- by eapply IH.
      * done.
    + simpl. apply elem_of_cons in Hin as [-> | Hin]; [congruence|].
      by eapply IH.
Qed.

Lemma stackStatus_cases (running declared : nat) :
  (running <= declared)%nat ->
  (stackStatus running declared = "running"%string
     <-> (0 < declared)%nat /\ running = declared) /\
  (stackStatus running declared = "stopped"%string <-> running = 0%nat) /\
  (stackStatus running declared = "partial"%string
     <-> (0 < running)%nat /\ (running < declared)%nat).
Proof.
  intros Hle. unfold stackStatus.
  destruct (Nat.ltb_spec 0 running), (Nat.eqb_spec running declared);
    cbn [andb]; (split; [|split]); split; try done; try lia;
    intros [? ?]; lia.
Qed.

(** Reading the running count back on the declared names. *)
Lemma running_count (byService : gmap string Summary.t)
    (names : list string) (svcs : list models.ComposeService.t) :
  let up := fun name => exists c, byService !! name = Some c /\
                                  Summary.State c = "running"%string in
  let r := length (List.filter models.ComposeService.Running svcs) in
  Forall2 (fun name svc => serviceOf byService name = Go.Ok svc) names svcs ->
  (r <= length names)%nat /\
  (r = length names <-> Forall up names) /\
  (r = 0%nat <-> Forall (fun name => ~ up name) names) /\
  ((0 < r)%nat <-> Exists up names) /\
  ((r < length names)%nat <-> Exists (fun name => ~ up name) names).
Proof.
  intros up r. subst r. induction 1 as [|name svc names svcs Hsvc _ IH].
  - simpl. rewrite !Forall_nil, !Exists_nil. intuition lia.
  - destruct IH as [Hle [Hall [Hnone [Hsome Hmiss]]]].
    apply serviceOf_running in Hsvc as [_ Hup]. fold (up name) in Hup.
    rewrite !Forall_cons, !Exists_cons. cbn [List.filter length].
    destruct (models.ComposeService.Running svc); cbn [length];
      set (r := length (List.filter models.ComposeService.Running svcs)) in *;
      set (n := length names) in *.
    + assert (up name) as Hname by (by apply Hup).
      assert (S r = S n <-> r = n) as -> by lia.
      assert (S r = 0%nat <-> False) as -> by lia.
      assert ((0 < S r)%nat <-> True) as -> by lia.
      assert ((S r < S n)%nat <-> (r < n)%nat) as -> by lia.
      rewrite Hall, Hmiss. split; [lia | tauto].
    + assert (~ up name) as Hname by (intros Hn; apply Hup in Hn; done).
      assert (r = S n <-> False) as -> by lia.
      assert ((r < S n)%nat <-> True) as -> by lia.
      rewrite Hnone, Hsome. split; [lia | tauto].
Qed.

Section Stack.

Variable host : Host.
Variable seed : list nat.
Variable cc : config.ComposeConfig.t.
Variable byProject : gmap string (list Summary.t).

Let path := config.ComposeConfig.Path cc.
Let names := parseServiceNames host seed path.
Let live := Go.index [] byProject (resolveProjectName host path).
Let byService := containerByService live.

Lemma parseServiceNames_declared :
  Permutation names
    (match readComposeFile host path with
     | Some cf => map fst (map_to_list (Services cf))
     | None => []
     end).
Proof.
  subst names. unfold parseServiceNames.
  destruct (readComposeFile host path); [apply GoFacts.range_keys_perm | done].
Qed.

(** With well-formed identifiers [buildStack] returns, with one snapshot
    per declared name and the status computed from the running count. *)
Lemma buildStack_ok :
  Forall (fun c => (12 <= String.length (Summary.ID c))%nat) live ->
  exists svcs,
    buildStack host seed cc byProject =
      Go.Ok {| models.ComposeStack.Name := config.ComposeConfig.Name cc;
               models.ComposeStack.Path := path;
               models.ComposeStack.Status :=
                 stackStatus
                   (length (List.filter models.ComposeService.Running svcs))
                   (length names);
               models.ComposeStack.Services := svcs;
               models.ComposeStack.Host := "" |} /\
    Forall2 (fun name svc => serviceOf byService name = Go.Ok svc) names svcs.
Proof.
  intros Hlen.
  destruct (serviceLoop_ok byService names 0 []) as [svcs [Hloop HF]].
  { apply Forall_forall. intros name _. apply serviceOf_ok. intros c Hc.
    apply containerByService_member in Hc as [Hc _].
    rewrite Forall_forall in Hlen. by apply Hlen. }
  exists svcs. split; [|exact HF].
  unfold buildStack. fold path names live byService.
  change (mbind ?f ?x) with (Go.bind x f). rewrite Hloop. done.
Qed.

(** Every snapshot [buildStack] returns has that shape. *)
Lemma buildStack_inv (stack : models.ComposeStack.t) :
  buildStack host seed cc byProject = Go.Ok stack ->
  exists svcs,
    stack = {| models.ComposeStack.Name := config.ComposeConfig.Name cc;
               models.ComposeStack.Path := path;
               models.ComposeStack.Status :=
                 stackStatus
                   (length (List.filter models.ComposeService.Running svcs))
                   (length names);
               models.ComposeStack.Services := svcs;
               models.ComposeStack.Host := "" |} /\
    Forall2 (fun name svc => serviceOf byService name = Go.Ok svc) names svcs.
Proof.
  unfold buildStack. fold path names live byService.
  change (mbind ?f ?x) with (Go.bind x f).
  destruct (serviceLoop byService names 0 []) as [[running out]| |] eqn:Hloop;
    simpl; try done.
  apply serviceLoop_inv in Hloop as [svcs [-> [-> HF]]].
  intros [= <-]. exists svcs. split; [done | exact HF].
Qed.

(** C7.  [buildStack] returns a snapshot whenever the live containers of
    the project have well-formed identifiers, and every snapshot it
    returns has exactly one service entry per service declared in the
    declaration file (none when no file parses), under the declared
    names; an entry whose name no live container of the project carries
    in its service label has no container id, status "not created",
    state "stopped" and is not running. *)
Theorem buildStack_service_list :
  (Forall (fun c => (12 <= String.length (Summary.ID c))%nat) live ->
   exists stack, buildStack host seed cc byProject = Go.Ok stack) /\
  forall stack,
    buildStack host seed cc byProject = Go.Ok stack ->
    length (models.ComposeStack.Services stack) =
      match readComposeFile host path with
      | Some cf => size (Services cf)
      | None => 0%nat
      end /\
    Permutation
      (map models.ComposeService.Name (models.ComposeStack.Services stack))
      (match readComposeFile host path with
       | Some cf => map fst (map_to_list (Services cf))
       | None => []
       end) /\
    forall svc, svc ∈ models.ComposeStack.Services stack ->
      (forall c, c ∈ live ->
         label c "com.docker.compose.service" <> models.ComposeService.Name svc) ->
      models.ComposeService.ContainerID svc = ""%string /\
      models.ComposeService.Status svc = "not created"%string /\
      models.ComposeService.State svc = "stopped"%string /\
      models.ComposeService.Running svc = false.
Proof.
  split.
  { intros Hlen. destruct (buildStack_ok Hlen) as [svcs [Hb _]]. by eexists. }
  intros stack Hb. apply buildStack_inv in Hb as [svcs [-> HF]].
  cbn [models.ComposeStack.Services].
  assert (map models.ComposeService.Name svcs = names) as Hnames.
  { induction HF as [|name svc ns ss Hsvc _ IH]; [done|].
    simpl. apply serviceOf_running in Hsvc as [-> _]. by rewrite IH. }
  split; [|split].
  - rewrite <- (length_map models.ComposeService.Name), Hnames.
    rewrite (Permutation_length parseServiceNames_declared).
    destruct (readComposeFile host path); [|done].
    by rewrite length_map, length_map_to_list.
  - rewrite Hnames. apply parseServiceNames_declared.
  - intros svc Hsvc Hfree.
    apply list_elem_of_lookup in Hsvc as [i Hi].
    destruct (Forall2_lookup_r _ _ _ _ _ HF Hi) as [name [_ Hname]].
    pose proof (serviceOf_running _ _ _ Hname) as [Heq _].
    rewrite serviceOf_unbound in Hname.
    + by injection Hname as <-.
    + apply containerByService_unbound. intros c Hc. rewrite <- Heq.
      by apply Hfree.
Qed.

(** C2, as the code has it.  [buildStack] returns a snapshot whenever the
    live containers of the project have well-formed identifiers, and the
    status of every snapshot it returns is "running" iff at least one
    service is declared and every declared service is bound to a live
    container in state running, "stopped" iff no declared service is (in
    particular when none is declared), and "partial" iff some declared
    service is and some is not. *)
Theorem buildStack_status :
  let up := fun name => exists c, byService !! name = Some c /\
                                  Summary.State c = "running"%string in
  (Forall (fun c => (12 <= String.length (Summary.ID c))%nat) live ->
   exists stack, buildStack host seed cc byProject = Go.Ok stack) /\
  forall stack,
    buildStack host seed cc byProject = Go.Ok stack ->
    (models.ComposeStack.Status stack = "running"%string <->
       names <> [] /\ forall name, name ∈ names -> up name) /\
    (models.ComposeStack.Status stack = "stopped"%string <->
       forall name, name ∈ names -> ~ up name) /\
    (models.ComposeStack.Status stack = "partial"%string <->
       (exists name, name ∈ names /\ up name) /\
       (exists name, name ∈ names /\ ~ up name)).
Proof.
  intros up. split.
  { intros Hlen. destruct (buildStack_ok Hlen) as [svcs [Hb _]]. by eexists. }
  intros stack Hb. apply buildStack_inv in Hb as [svcs [-> HF]].
  cbn [models.ComposeStack.Status].
  destruct (running_count byService names svcs HF)
    as [Hle [Hall [Hnone [Hsome Hmiss]]]].
  fold up in Hall, Hnone, Hsome, Hmiss.
  destruct (stackStatus_cases _ _ Hle) as [Hrun [Hstop Hpart]].
  rewrite Hrun, Hstop, Hpart, Hall, Hnone, Hsome, Hmiss.
  rewrite !Forall_forall, !Exists_exists.
  split; [|done].
  split; intros [Hn Hup]; (split; [|done]).
  - intros ->. simpl in Hn. lia.
  - destruct names; [done | simpl; lia].
Qed.

(** A declared service bound to a container with a shorter identifier
    makes the call panic. *)
Lemma buildStack_short_id (name : string) (c : Summary.t) :
  name ∈ names -> byService !! name = Some c ->
  (String.length (Summary.ID c) < 12)%nat ->
  buildStack host seed cc byProject = Go.Panic "slice bounds out of range".
Proof.
  intros Hin Hb Hlen. unfold buildStack. fold path names live byService.
  change (mbind ?f ?x) with (Go.bind x f).
  by rewrite (serviceLoop_short_id byService names name c 0 [] Hin Hb Hlen).
Qed.

End Stack.

Lemma in_names {A} (x : A) (l : list A) : In x l -> x ∈ l.
Proof. apply list_elem_of_In. Qed.

Lemma buildStack_service_list_witness :
  exists stack,
    buildStack samples.shopHost [1%nat] samples.shop
      (groupByProject [samples.web]) = Go.Ok stack /\
    length (models.ComposeStack.Services stack) = 2%nat /\
    forall svc, svc ∈ models.ComposeStack.Services stack ->
      models.ComposeService.Name svc = "db"%string ->
      models.ComposeService.Status svc = "not created"%string /\
      models.ComposeService.Running svc = false.
Proof.
  destruct (buildStack_service_list samples.shopHost [1%nat] samples.shop
              (groupByProject [samples.web])) as [Hex Hall].
  destruct Hex as [stack Hb].
  - repeat constructor; vm_compute; discriminate.
  - destruct (Hall stack Hb) as [Hlen [_ Hfree]].
    exists stack. split; [exact Hb|]. split; [exact Hlen|].
    intros svc Hsvc Hname. destruct (Hfree svc Hsvc) as [_ [Hst [_ Hrun]]].
    + rewrite Hname. intros c Hc.
      apply list_elem_of_In in Hc. vm_compute in Hc.
      destruct Hc as [<- | []]. vm_compute. discriminate.
    + split; [exact Hst | exact Hrun].
Defined.

Lemma buildStack_status_witness :
  exists stack,
    buildStack samples.shopHost [1%nat] samples.shop
      (groupByProject samples.batch) = Go.Ok stack /\
    models.ComposeStack.Status stack = "partial"%string.
Proof.
  destruct (buildStack_status samples.shopHost [1%nat] samples.shop
              (groupByProject samples.batch)) as [Hex Hall].
  destruct Hex as [stack Hb].
  - repeat constructor; vm_compute; discriminate.
  - destruct (Hall stack Hb) as [_ [_ Hpart]].
    exists stack. split; [exact Hb|]. apply Hpart. split.
    + exists "web"%string. split; [apply in_names; vm_compute; tauto|].
      exists samples.web. split; reflexivity.
    + exists "db"%string. split; [apply in_names; vm_compute; tauto|].
      intros [c [Hc Hs]]. vm_compute in Hc. injection Hc as <-.
      discriminate Hs.
Defined.

(** C2 as stated fails for a stack without declared services: every
    declared service is (vacuously) bound and running, yet the status is
    "stopped", not "running". *)
Lemma buildStack_no_services_stopped :
  let names := parseServiceNames samples.bareHost [] "/srv/shop" in
  let byService :=
    containerByService
      (Go.index [] (groupByProject samples.batch)
         (resolveProjectName samples.bareHost "/srv/shop")) in
  exists stack,
    buildStack samples.bareHost [] samples.shop (groupByProject samples.batch)
      = Go.Ok stack /\
    models.ComposeStack.Services stack = [] /\
    (forall name, name ∈ names ->
       exists c, byService !! name = Some c /\
                 Summary.State c = "running"%string) /\
    models.ComposeStack.Status stack = "stopped"%string /\
    ~ (models.ComposeStack.Status stack = "running"%string <->
       forall name, name ∈ names ->
         exists c, byService !! name = Some c /\
                   Summary.State c = "running"%string).
Proof.
  intros names byService. eexists. split; [reflexivity|].
  assert (forall name, name ∈ names ->
            exists c, byService !! name = Some c /\
                      Summary.State c = "running"%string) as Hvac
    by (intros name Hn; by apply elem_of_nil in Hn).
  split; [reflexivity|]. split; [exact Hvac|]. split; [reflexivity|].
  intros [_ H]. specialize (H Hvac). discriminate H.
Qed.

End ReconcilerFacts.

(** ** The unguarded identifier slice *)

Module SliceFacts.

Import container docker compose.

(** C10.  [c.ID[:12]] is out of bounds exactly for identifiers shorter
    than twelve bytes.  The container list succeeds exactly when every
    listed identifier has at least twelve bytes and panics otherwise;
    stack reconciliation succeeds when every live container of the
    project has such an identifier, and panics when a declared service is
    bound to a container with a shorter one. *)
Theorem id_slice_needs_twelve_bytes :
  (forall id0 : string,
     (String.length id0 < 12)%nat <->
     Go.slice_to id0 12 = Go.Panic "slice bounds out of range") /\
  (forall (batch : list Summary.t) (CS : string -> StatsReply)
          (schedule : list nat),
     Forall (fun c => (12 <= String.length (Summary.ID c))%nat) batch <->
     exists result, (GetContainers (Go.Ok batch) CS schedule).1 = Go.Ok result) /\
  (forall (batch : list Summary.t) (CS : string -> StatsReply)
          (schedule : list nat) (c : Summary.t),
     c ∈ batch -> (String.length (Summary.ID c) < 12)%nat ->
     (GetContainers (Go.Ok batch) CS schedule).1
       = Go.Panic "slice bounds out of range") /\
  (forall (host : Host) (seed : list nat) (cc : config.ComposeConfig.t)
          (byProject : gmap string (list Summary.t)),
     Forall (fun c => (12 <= String.length (Summary.ID c))%nat)
       (Go.index [] byProject
          (resolveProjectName host (config.ComposeConfig.Path cc))) ->
     exists stack, buildStack host seed cc byProject = Go.Ok stack) /\
  (forall (host : Host) (seed : list nat) (cc : config.ComposeConfig.t)
          (byProject : gmap string (list Summary.t))
          (name : string) (c : Summary.t),
     name ∈ parseServiceNames host seed (config.ComposeConfig.Path cc) ->
     containerByService
       (Go.index [] byProject
          (resolveProjectName host (config.ComposeConfig.Path cc))) !! name
       = Some c ->
     (String.length (Summary.ID c) < 12)%nat ->
     buildStack host seed cc byProject = Go.Panic "slice bounds out of range").
Proof.
  split; [|split; [|split; [|split]]].
  - intros id0. apply GoFacts.slice_to_panics.
  - intros batch CS schedule. split.
    + apply AggregatorFacts.GetContainers_long_ids.
    + intros [result Hres]. apply Forall_forall. intros c Hc.
      destruct (le_lt_dec 12 (String.length (Summary.ID c))) as [Hle|Hlt];
        [done|].
      rewrite (AggregatorFacts.GetContainers_short_id batch CS schedule c Hc Hlt)
        in Hres.
      discriminate Hres.
  - apply AggregatorFacts.GetContainers_short_id.
  - intros host seed cc byProject Hlen.
    destruct (ReconcilerFacts.buildStack_ok host seed cc byProject Hlen)
      as [svcs [Hb _]].
    by eexists.
  - apply ReconcilerFacts.buildStack_short_id.
Qed.

Lemma id_slice_needs_twelve_bytes_witness :
  Go.slice_to "deadbeef" 12 = Go.Panic "slice bounds out of range" /\
  (exists result,
     (GetContainers (Go.Ok samples.batch) samples.engineStats []).1
       = Go.Ok result) /\
  (GetContainers (Go.Ok [samples.web; samples.stub]) samples.engineStats []).1
    = Go.Panic "slice bounds out of range" /\
  (exists stack,
     buildStack samples.shopHost [] samples.shop (groupByProject samples.batch)
       = Go.Ok stack) /\
  buildStack samples.shopHost [] samples.shop
    (groupByProject [samples.db; samples.stub])
    = Go.Panic "slice bounds out of range".
Proof.
  destruct id_slice_needs_twelve_bytes as [H1 [H2 [H3 [H4 H5]]]].
  split; [|split; [|split; [|split]]].
  - apply H1. vm_compute. lia.
  - apply H2. repeat constructor; vm_compute; discriminate.
  - apply (H3 _ _ _ samples.stub).
    + apply ReconcilerFacts.in_names. right. left. reflexivity.
    + vm_compute. lia.
  - apply H4. repeat constructor; vm_compute; discriminate.
  - apply (H5 _ _ _ _ "web"%string samples.stub).
    + apply ReconcilerFacts.in_names. vm_compute. tauto.
    + reflexivity.
    + vm_compute. lia.
Defined.

End SliceFacts.

(** ** The state broadcaster *)

Module BroadcasterFacts.

Import container docker compose broadcaster.

Lemma GetContainers_list_error (e : string) (CS : string -> StatsReply)
    (schedule : list nat) :
  GetContainers (Go.Err e) CS schedule = (Go.Err e, []).
Proof. reflexivity. Qed.

Lemma GetComposeStacks_list_error (host : Host) (e : string)
    (composes : list config.ComposeConfig.t) (seeds : nat -> list nat) :
  GetComposeStacks host (Go.Err e) composes seeds = Go.Err e.
Proof. reflexivity. Qed.

(** C8.  A sub-fetch that returns an error is treated exactly as one that
    returned the empty list: the state message carries [[]] for the
    failed half and the other half as fetched, and whenever that message
    encodes it is offered to the hub.  This holds when the engine list
    call behind either sub-fetch fails. *)
Theorem pushState_keeps_surviving_half
    (json_Marshal : models.WSMessage.t -> string + string) (now : Z) :
  let message := fun containers composes =>
    {| models.WSMessage.Type_ := "state";
       models.WSMessage.Containers := containers;
       models.WSMessage.Composes := composes;
       models.WSMessage.Timestamp := now |} in
  (forall e composes,
     pushState json_Marshal (Go.Err e) (Go.Ok composes) now
       = pushState json_Marshal (Go.Ok []) (Go.Ok composes) now /\
     forall data, json_Marshal (message [] composes) = inl data ->
       pushState json_Marshal (Go.Err e) (Go.Ok composes) now
         = Go.Ok [Offer data]) /\
  (forall e containers,
     pushState json_Marshal (Go.Ok containers) (Go.Err e) now
       = pushState json_Marshal (Go.Ok containers) (Go.Ok []) now /\
     forall data, json_Marshal (message containers []) = inl data ->
       pushState json_Marshal (Go.Ok containers) (Go.Err e) now
         = Go.Ok [Offer data]) /\
  (forall e1 e2 data, json_Marshal (message [] []) = inl data ->
     pushState json_Marshal (Go.Err e1) (Go.Err e2) now = Go.Ok [Offer data]) /\
  (forall e CS schedule fetchedComposes,
     pushState json_Marshal (GetContainers (Go.Err e) CS schedule).1
       fetchedComposes now
       = pushState json_Marshal (Go.Ok []) fetchedComposes now) /\
  (forall host e composes seeds fetchedContainers,
     pushState json_Marshal fetchedContainers
       (GetComposeStacks host (Go.Err e) composes seeds) now
       = pushState json_Marshal fetchedContainers (Go.Ok []) now).
Proof.
  intros message. split; [|split; [|split; [|split]]].
  - intros e composes. split; [reflexivity|].
    intros data Hdata. unfold pushState. simpl. fold (message [] composes).
    by rewrite Hdata.
  - intros e containers. split; [reflexivity|].
    intros data Hdata. unfold pushState. simpl. fold (message containers []).
    by rewrite Hdata.
  - intros e1 e2 data Hdata. unfold pushState. simpl. fold (message [] []).
    by rewrite Hdata.
  - intros e CS schedule fetched. reflexivity.
  - intros host e composes seeds fetched. rewrite GetComposeStacks_list_error.
    destruct fetched; reflexivity.
Qed.

Lemma pushState_keeps_surviving_half_witness :
  pushState samples.encode (Go.Err "docker: connection refused")
    (Go.Ok [samples.shopStack]) 1700000000
  = Go.Ok [Offer "state:no containers:stacks"].
Proof.
  apply (proj1 (pushState_keeps_surviving_half samples.encode 1700000000)
           "docker: connection refused"%string [samples.shopStack]).
  reflexivity.
Defined.

End BroadcasterFacts.

(* ===================================================================== *)
(** * Further properties of the code *)
(* ===================================================================== *)

(** ** Settings: persistence *)

Module SettingsMore.

Import Settings.

Lemma defaults_not_zero :
  isZeroFeatureSet defaultAdminFeatures = false /\
  isZeroFeatureSet defaultPublicFeatures = false.
Proof. split; reflexivity. Qed.

Lemma applyDefaults_fixpoint (st : Settings) :
  applyDefaults st = st <->
  isZeroFeatureSet (AdminFeatures st) = false /\
  isZeroFeatureSet (PublicFeatures st) = false.
Proof.
  split.
  - intros Heq.
    pose proof (SettingsFacts.applyDefaults_admin st) as Ha.
    pose proof (SettingsFacts.applyDefaults_public st) as Hp.
    rewrite Heq in Ha, Hp.
    destruct (isZeroFeatureSet (AdminFeatures st)) eqn:Ea;
      destruct (isZeroFeatureSet (PublicFeatures st)) eqn:Ep; try done;
      try (rewrite Ha in Ea; discriminate Ea);
      try (rewrite Hp in Ep; discriminate Ep).
  - intros [Ha Hp]. unfold applyDefaults. rewrite Ha, Hp. reflexivity.
Qed.

(** The sample codec gives back what it was given. *)
Lemma sample_codec_round_trip (st : Settings) :
  exists data, samples.marshalSettings st = inl data /\
               samples.decodeSettings data = Document st.
Proof.
  eexists; split; [reflexivity|].
  unfold samples.decodeSettings.
  rewrite list_ascii_of_string_of_list_ascii, map_map.
  assert (forall b : bool,
            Ascii.eqb (if b then "1"%char else "0"%char) "1" = b) as Hbit
    by (by intros []).
  destruct st as [a r [[c1 c2 c3 c4 c5] [s1 s2 s3 s4] [i1 i2 i3 i4]]
                      [[d1 d2 d3 d4 d5] [t1 t2 t3 t4] [j1 j2 j3 j4]]].
  simpl. by rewrite !Hbit.
Qed.

(** X1.  When [save] goes through, the marshalling and the write both
    succeeding and the file decoding to what was marshalled, starting
    the service again gives the same settings back exactly when neither
    profile is all-false. *)
Theorem save_then_load json_MarshalIndent os_WriteFile decode
    (st : Settings) (file : SettingsFile) (data : string) :
  json_MarshalIndent st = inl data ->
  os_WriteFile data = None ->
  decode data = Document st ->
  (save json_MarshalIndent os_WriteFile decode st file).1 = None /\
  (NewService (save json_MarshalIndent os_WriteFile decode st file).2
     = Go.Ok st <->
   AdminFeatures st <> zeroFeatureSet /\ PublicFeatures st <> zeroFeatureSet).
Proof.
  intros Hdata Hwrite Hdecode. unfold save.
  rewrite Hdata, Hwrite, Hdecode. split; [done|].
  unfold NewService, load. cbn [snd].
  rewrite <- !SettingsFacts.isZeroFeatureSet_spec, !not_true_iff_false.
  rewrite <- applyDefaults_fixpoint.
  split; [by intros [= ->] | by intros ->].
Qed.

(** X2.  [load] fails only when the file exists and cannot be read; in
    every other case (no file, a document, a malformed document, with or
    without the old flat format) it yields settings in which neither
    profile is all-false, and on which applying the defaults again
    changes nothing. *)
Theorem load_never_leaves_empty_profile (file : SettingsFile) :
  match file with
  | ReadError msg => load file = Go.Err ("reading settings: " ++ msg)
  | _ =>
      exists st, load file = Go.Ok st /\
        AdminFeatures st <> zeroFeatureSet /\
        PublicFeatures st <> zeroFeatureSet /\
        applyDefaults st = st
  end.
Proof.
  assert (forall cur,
            AdminFeatures (applyDefaults cur) <> zeroFeatureSet /\
            PublicFeatures (applyDefaults cur) <> zeroFeatureSet /\
            applyDefaults (applyDefaults cur) = applyDefaults cur) as Hd.
  { intros cur.
    assert (isZeroFeatureSet (AdminFeatures (applyDefaults cur)) = false) as Ha.
    { rewrite SettingsFacts.applyDefaults_admin.
      by destruct (isZeroFeatureSet (AdminFeatures cur)) eqn:E. }
    assert (isZeroFeatureSet (PublicFeatures (applyDefaults cur)) = false) as Hp.
    { rewrite SettingsFacts.applyDefaults_public.
      by destruct (isZeroFeatureSet (PublicFeatures cur)) eqn:E. }
    rewrite <- !SettingsFacts.isZeroFeatureSet_spec, !not_true_iff_false.
    split; [exact Ha | split; [exact Hp |]].
    by apply applyDefaults_fixpoint. }
  destruct file as [|msg|st|partial [[a r]|]]; simpl; try done;
    eexists; (split; [reflexivity | apply Hd]).
Qed.

End SettingsMore.

(** ** The middleware chain *)

Module ApiRoutesFacts.

Import Api ApiRoutes.

Section Chain.

Variable authEnabled : bool.
Variable V : string -> option string.
Variable stAuth stGate : Settings.Settings.
Variable getter : Settings.FeatureSet -> bool.
Variable r : Request.

Let authRequired := authEnabled && negb (Settings.AuthlessMode stAuth).
Let valid := isValidToken V r.

(** X3.  A feature-gated route answers 401 exactly when authentication
    is required and the request carries no valid token; otherwise it
    answers 403 exactly when the switch is off in the caller's profile
    (the admin profile for a valid token, the public profile without
    one); otherwise the handler runs, at admin level exactly for a valid
    token. *)
Theorem featureRoute_outcomes :
  let profile := if valid then Settings.AdminFeatures stGate
                 else Settings.PublicFeatures stGate in
  featureRoute authEnabled V stAuth stGate getter r =
    if authRequired && negb valid
    then HttpError "unauthorized" 401
    else if negb (getter profile)
    then HttpError "feature not enabled" 403
    else Next (if valid then authLevelAdmin else authLevelPublic).
Proof.
  unfold featureRoute, authMiddleware, requireFeature.
  fold authRequired valid.
  destruct authRequired, valid; cbn [andb negb]; try reflexivity;
    match goal with |- context [getter ?f] => destruct (getter f) end;
    reflexivity.
Qed.

(** X4.  An admin-only route runs its handler exactly for requests that
    carry a valid token, whatever the configuration and the settings:
    with authentication disabled or authless mode on, a caller without a
    token is answered 403. *)
Theorem adminRoute_needs_token :
  (valid = true ->
   adminRoute authEnabled V stAuth r = Next authLevelAdmin) /\
  (valid = false ->
   adminRoute authEnabled V stAuth r =
     if authRequired then HttpError "unauthorized" 401
     else HttpError "admin access required" 403) /\
  (forall level, adminRoute authEnabled V stAuth r = Next level ->
                 valid = true /\ level = authLevelAdmin).
Proof.
  unfold adminRoute, authMiddleware, requireAdmin.
  fold authRequired valid.
  destruct authRequired, valid; cbn [negb];
    (split; [|split]); try done; intros lv [= <-]; done.
Qed.

End Chain.

(** X5.  The WebSocket endpoint admits a connection presenting [token]
    as query parameter exactly when [authMiddleware] lets the request
    with header [Bearer token] through. *)
Theorem handleWS_agrees_with_middleware
    (authEnabled : bool) (V : string -> option string)
    (st : Settings.Settings) (token : string) :
  handleWS_check authEnabled V st token = None <->
  exists level,
    authMiddleware authEnabled st V
      {| Authorization := ("Bearer " ++ token)%string |} = Next level.
Proof.
  unfold handleWS_check, authMiddleware, isValidToken, bearerToken.
  cbn [Authorization].
  assert (Go.HasPrefix ("Bearer " ++ token) "Bearer " = true) as ->
    by (apply ApiFacts.prefix_append; by exists token).
  rewrite ApiFacts.TrimPrefix_append.
  destruct (authEnabled && negb (Settings.AuthlessMode st));
    [|split; [by eexists | done]].
  destruct (String.eqb token ""); cbn [negb andb].
  - split; [done | by intros [level H]].
  - destruct (V token); cbn [negb]; split; try done.
    + by intros [level H].
    + by eexists.
Qed.

End ApiRoutesFacts.

(** ** The rate limiter over time *)

Module LimiterFacts.

Import RateLimit Limiter.
Local Open Scope Z_scope.

Lemma window_positive : 0 < rateLimitWindow.
Proof. reflexivity. Qed.

Lemma slide_slide (c1 c2 : Time) (times : list Time) :
  c1 <= c2 -> slide c2 (slide c1 times) = slide c2 times.
Proof.
  intros Hc. unfold slide, After.
  induction times as [|t times IH]; simpl; [done|].
  destruct (Z.ltb_spec c1 t); simpl; destruct (Z.ltb_spec c2 t);
    try lia; by rewrite IH.
Qed.

Lemma slide_snoc (now : Time) (times : list Time) :
  slide (now - rateLimitWindow) (times ++ [now])
  = slide (now - rateLimitWindow) times ++ [now].
Proof.
  unfold slide. rewrite List.filter_app. simpl. unfold After.
  pose proof window_positive.
  destruct (Z.ltb_spec (now - rateLimitWindow) now); [done | lia].
Qed.

(** Reading one origin's bucket after a [gc] tick and after [allow]. *)
Lemma index_gcTick (g : Time) (ip : string) (buckets : gmap string (list Time)) :
  Go.index [] (gcTick g buckets) ip
  = slide (g - rateLimitWindow) (Go.index [] buckets ip).
Proof.
  unfold Go.index. rewrite RateLimitFacts.gcTick_lookup.
  destruct (buckets !! ip) as [times|]; [|done].
  by destruct (slide (g - rateLimitWindow) times).
Qed.

Lemma index_allow (now : Time) (ip : string) (buckets : gmap string (list Time)) :
  let valid := slide (now - rateLimitWindow) (Go.index [] buckets ip) in
  Go.index [] (allow now ip buckets).2 ip
  = if bool_decide (length valid < 5)%nat then valid ++ [now] else valid.
Proof.
  intros valid. rewrite RateLimitFacts.allow_spec. cbn [snd].
  apply RateLimitFacts.index_insert.
Qed.

Lemma index_allow_other (now : Time) (ip origin : string)
    (buckets : gmap string (list Time)) :
  origin <> ip ->
  Go.index [] (allow now origin buckets).2 ip = Go.index [] buckets ip.
Proof.
  intros Hne. unfold Go.index. by rewrite RateLimitFacts.allow_other.
Qed.

Section Window.

Variable ip : string.

(** No window ending at an admitted attempt holds more than five. *)
Let bounded (history : list Time) : Prop :=
  forall before t after, history = before ++ t :: after ->
    (length (slide (t - rateLimitWindow)%Z (before ++ [t])) <= 5)%nat.

Lemma bounded_snoc (history : list Time) (now : Time) :
  bounded history ->
  (length (slide (now - rateLimitWindow)%Z history) < 5)%nat ->
  bounded (history ++ [now]).
Proof.
  intros Hb Hroom before t after Heq.
  destruct after as [|z after' _] using rev_ind.
  - apply app_inj_tail in Heq as [<- <-]. rewrite slide_snoc, length_app.
    simpl. lia.
  - change (before ++ t :: after' ++ [z])
      with (before ++ (t :: after') ++ [z]) in Heq.
    rewrite app_assoc in Heq. apply app_inj_tail in Heq as [-> _].
    by eapply Hb.
Qed.

Lemma serve_bounded (events : list event) :
  forall (buckets : gmap string (list Time)) (history : list Time) (c t0 : Time),
  c <= t0 -> clockFrom t0 events ->
  Go.index [] buckets ip = slide (c - rateLimitWindow) history ->
  bounded history ->
  bounded (serve ip events buckets history).1.
Proof.
  induction events as [|e events IH]; intros buckets history c t0 Hc Hclock Hidx Hb.
  - exact Hb.
  - destruct Hclock as [Ht0 Hclock]. destruct e as [origin now | g];
      cbn [eventTime] in *; cbn [serve].
    + destruct (allow now origin buckets) as [ok buckets'] eqn:Hallow.
      destruct (String.eqb_spec origin ip) as [-> | Hne].
      * pose proof (index_allow now ip buckets) as Hnew.
        rewrite Hallow in Hnew. cbn [snd] in Hnew.
        rewrite Hidx, slide_slide in Hnew by lia.
        rewrite RateLimitFacts.allow_spec in Hallow.
        rewrite Hidx, slide_slide in Hallow by lia.
        injection Hallow as <- _.
        case_bool_decide as Hroom; cbn [andb].
        -- apply (IH buckets' _ now now); [lia | done | | ].
           ++ by rewrite Hnew, slide_snoc.
           ++ by apply bounded_snoc.
        -- apply (IH buckets' _ now now); [lia | done | done | done].
      * rewrite andb_false_r.
        apply (IH buckets' _ c now); [lia | done | | done].
        rewrite <- Hidx. replace buckets' with (allow now origin buckets).2
          by (by rewrite Hallow).
        by apply index_allow_other.
    + apply (IH _ _ g g); [lia | done | | done].
      rewrite index_gcTick, Hidx. apply slide_slide. lia.
Qed.

(** X6.  Take attempts from any origin and [gc] ticks in the order in
    which they hold the mutex, and assume that their clock readings never
    decrease along that order.  Then, starting with no bucket for [ip],
    every window of 60 seconds that ends at an admitted attempt of [ip]
    holds at most five admitted attempts of [ip].  The assumption is on
    the schedule: the code reads the clock before it locks. *)
Theorem at_most_five_per_window
    (events : list event) (buckets : gmap string (list Time)) (t0 : Time) :
  clockFrom t0 events ->
  buckets !! ip = None ->
  forall before t after,
    (serve ip events buckets []).1 = before ++ t :: after ->
    (length (List.filter (fun u => (t - 60 * Second <? u)%Z) (before ++ [t]))
     <= 5)%nat.
Proof.
  intros Hclock Hnone.
  apply (serve_bounded events buckets [] t0 t0); [lia | done | | ].
  - unfold Go.index. by rewrite Hnone.
  - intros before t after Heq. by destruct before.
Qed.

End Window.

(** The assumption on the readings cannot be dropped: when a [gc] tick
    that read the clock at 120 s locks before an attempt that read it at
    61 s, the tick deletes the bucket and six attempts are admitted
    between 2 s and 61 s. *)
Lemma late_reading_admits_six :
  ~ clockFrom 0 examples.lateAttempt /\
  (serve examples.peer examples.lateAttempt ∅ []).1
  = [2 * Second; 3 * Second; 4 * Second; 5 * Second; 6 * Second; 61 * Second] /\
  length (List.filter (fun u => (61 * Second - 60 * Second <? u)%Z)
            (serve examples.peer examples.lateAttempt ∅ []).1) = 6%nat.
Proof.
  split; [|split].
  - cbn. unfold Second. lia.
  - reflexivity.
  - reflexivity.
Qed.

(** X7.  A [gc] tick never changes what a later [allow] decides: the
    verdict and the bucket the call leaves for its origin are the same
    with and without the tick. *)
Theorem gc_is_transparent_to_allow
    (g now : Time) (ip : string) (buckets : gmap string (list Time)) :
  g <= now ->
  (allow now ip (gcTick g buckets)).1 = (allow now ip buckets).1 /\
  (allow now ip (gcTick g buckets)).2 !! ip = (allow now ip buckets).2 !! ip.
Proof.
  intros Hg. rewrite !RateLimitFacts.allow_spec. cbn [fst snd].
  rewrite index_gcTick, slide_slide by lia.
  split; [done|]. by rewrite !lookup_insert_eq.
Qed.

(** X8.  After a [gc] tick every bucket left in the map is non-empty and
    holds only timestamps inside the window, in their recorded order; an
    origin is dropped exactly when none of its timestamps is inside the
    window; and a later tick makes an earlier one redundant. *)
Theorem gc_keeps_live_buckets
    (g : Time) (buckets : gmap string (list Time)) :
  (forall ip times, gcTick g buckets !! ip = Some times ->
     times <> [] /\ Forall (fun t => g - 60 * Second < t) times /\
     exists recorded, buckets !! ip = Some recorded /\
       times = List.filter (fun t => g - 60 * Second <? t) recorded) /\
  (forall ip, gcTick g buckets !! ip = None <->
     Forall (fun t => t <= g - 60 * Second) (Go.index [] buckets ip)) /\
  (forall g', g' <= g -> gcTick g (gcTick g' buckets) = gcTick g buckets).
Proof.
  change (60 * Second) with rateLimitWindow.
  split; [|split].
  - intros ip times. rewrite RateLimitFacts.gcTick_lookup.
    destruct (buckets !! ip) as [recorded|]; [|done].
    destruct (slide (g - rateLimitWindow) recorded) as [|t l] eqn:E; [done|].
    intros [= <-]. split; [done|]. split; [|by exists recorded].
    rewrite <- E. apply Forall_forall. intros u Hu.
    by apply RateLimitFacts.slide_live in Hu as [_ ?].
  - intros ip. rewrite RateLimitFacts.gcTick_lookup. unfold Go.index.
    destruct (buckets !! ip) as [recorded|]; [|split; [constructor | done]].
    split.
    + destruct (slide (g - rateLimitWindow) recorded) as [|t l] eqn:E; [|done].
      intros _. apply Forall_forall. intros u Hu.
      destruct (Z.le_gt_cases u (g - rateLimitWindow)) as [?|Hlive]; [done|].
      assert (u ∈ slide (g - rateLimitWindow) recorded) as Hin
        by (apply RateLimitFacts.slide_live; split; [done | lia]).
      rewrite E in Hin. by apply elem_of_nil in Hin.
    + intros Hall. by rewrite RateLimitFacts.slide_drop_all.
  - intros g' Hg. apply map_eq. intros ip.
    rewrite !RateLimitFacts.gcTick_lookup.
    destruct (buckets !! ip) as [recorded|]; [|done].
    destruct (slide (g' - rateLimitWindow) recorded) as [|t l] eqn:E.
    + assert (slide (g - rateLimitWindow) recorded = []) as ->; [|done].
      rewrite <- (slide_slide (g' - rateLimitWindow)) by lia. by rewrite E.
    + rewrite <- E. by rewrite slide_slide by lia.
Qed.

(** X9.  No bucket ever holds more than five timestamps: from the empty
    map, after any sequence of attempts and [gc] ticks (whatever the
    clock does), every bucket has at most five entries. *)
Theorem buckets_hold_at_most_five (ip : string) (events : list event) :
  forall origin times,
    (serve ip events ∅ []).2 !! origin = Some times ->
    (length times <= 5)%nat.
Proof.
  assert (forall (buckets : gmap string (list Time)) history,
            (forall k l, buckets !! k = Some l -> (length l <= 5)%nat) ->
            forall k l, (serve ip events buckets history).2 !! k = Some l ->
                        (length l <= 5)%nat) as Hinv.
  { induction events as [|e events IH]; intros buckets history Hb; [exact Hb|].
    destruct e as [origin now | g]; cbn [serve].
    - destruct (allow now origin buckets) as [ok buckets'] eqn:Hallow.
      apply IH. intros k l.
      rewrite RateLimitFacts.allow_spec in Hallow. injection Hallow as _ <-.
      destruct (decide (origin = k)) as [<-|Hne].
      + rewrite lookup_insert_eq. intros [= <-].
        case_bool_decide; [rewrite length_app; simpl; lia | ].
        pose proof (filter_length_le
                      (fun t => After t (now - rateLimitWindow))
                      (Go.index [] buckets origin)) as Hle.
        fold (slide (now - rateLimitWindow) (Go.index [] buckets origin)) in Hle.
        unfold Go.index in *.
        destruct (buckets !! origin) as [old|] eqn:E; [|simpl; lia].
        specialize (Hb _ _ E). lia.
      + rewrite lookup_insert_ne by done. apply Hb.
    - apply IH. intros k l. rewrite RateLimitFacts.gcTick_lookup.
      destruct (buckets !! k) as [old|] eqn:E; [|done].
      destruct (slide (g - rateLimitWindow) old) as [|t l'] eqn:Es; [done|].
      intros [= <-]. rewrite <- Es.
      pose proof (filter_length_le
                    (fun t => After t (g - rateLimitWindow)) old) as Hle.
      fold (slide (g - rateLimitWindow) old) in Hle.
      specialize (Hb _ _ E). lia. }
  apply Hinv. intros k l. by rewrite lookup_empty.
Qed.

(** [strings.IndexByte] finds the first occurrence. *)
Lemma IndexByte_first (s : string) (c : ascii) :
  IndexByte s c = -1 \/
  exists first rest,
    s = (first ++ String c rest)%string /\
    IndexByte first c = -1 /\
    IndexByte s c = Z.of_nat (String.length first).
Proof.
  induction s as [|a s IH]; [by left|].
  simpl. destruct (Ascii.eqb_spec a c) as [->|Hne].
  - right. exists ""%string, s. done.
  - destruct IH as [Hnone | [first [rest [-> [Hfirst Hidx]]]]].
    + left. by rewrite Hnone.
    + right. exists (String a first), rest. split; [done|]. split.
      * simpl. destruct (Ascii.eqb_spec a c); [done|]. by rewrite Hfirst.
      * rewrite Hidx. simpl String.length.
        destruct (Z.ltb_spec (Z.of_nat (String.length first)) 0); lia.
Qed.

Lemma substring_first (first rest : string) :
  String.substring 0 (String.length first) (first ++ rest)%string = first.
Proof.
  induction first as [|a first IH]; simpl.
  - by destruct rest.
  - by rewrite IH.
Qed.

Lemma length_append (s1 s2 : string) :
  String.length (s1 ++ s2)%string = (String.length s1 + String.length s2)%nat.
Proof. induction s1 as [|a s1 IH]; simpl; [done | by rewrite IH]. Qed.

(** X10.  [clientIP] never panics, and the key it returns is: the
    trimmed [X-Real-IP] header when that header is set, whatever the
    other fields hold; else the trimmed leftmost element of
    [X-Forwarded-For] (the part before the first comma) when that header
    is set; else the host part of the peer address, or the whole peer
    address when it does not split. *)
Theorem clientIP_key
    (TrimSpace : string -> string)
    (SplitHostPort : string -> option (string * string)) (r : HttpRequest) :
  exists ip, clientIP TrimSpace SplitHostPort r = Go.Ok ip /\
    (XRealIP r <> ""%string -> ip = TrimSpace (XRealIP r)) /\
    (XRealIP r = ""%string -> XForwardedFor r <> ""%string ->
     exists first, ip = TrimSpace first /\ IndexByte first "," = -1 /\
       (XForwardedFor r = first \/
        exists rest, XForwardedFor r = (first ++ String "," rest)%string)) /\
    (XRealIP r = ""%string -> XForwardedFor r = ""%string ->
     ip = match SplitHostPort (RemoteAddr r) with
          | Some (host, _) => host
          | None => RemoteAddr r
          end).
Proof.
  unfold clientIP.
  destruct (String.eqb_spec (XRealIP r) "") as [Hreal|Hreal]; cbn [negb].
  - destruct (String.eqb_spec (XForwardedFor r) "") as [Hfwd|Hfwd]; cbn [negb].
    + destruct (SplitHostPort (RemoteAddr r)) as [[host port]|];
        (eexists; split; [reflexivity|]); (split; [done|]); (split; done).
    + destruct (IndexByte_first (XForwardedFor r) ",")
        as [Hnone | [first [rest [Hsplit [Hfirst Hidx]]]]].
      * rewrite Hnone. cbn. eexists. split; [reflexivity|].
        split; [done|]. split; [|done]. intros _ _.
        exists (XForwardedFor r). split; [done|]. split; [done | by left].
      * rewrite Hidx.
        destruct (Z.leb_spec 0 (Z.of_nat (String.length first))); [|lia].
        rewrite Nat2Z.id. rewrite GoFacts.slice_to_ok
          by (rewrite Hsplit, length_append; lia).
        replace (String.substring 0 (String.length first) (XForwardedFor r))
          with first by (rewrite Hsplit; symmetry; apply substring_first).
        cbn.
        eexists. split; [reflexivity|]. split; [done|]. split; [|done].
        intros _ _. exists first. split; [done|]. split; [done|].
        right. by exists rest.
  - eexists. split; [reflexivity|]. split; [done|]. split; done.
Qed.

Lemma middleware_fresh
    (TrimSpace : string -> string)
    (SplitHostPort : string -> option (string * string))
    (now : Time) (r : HttpRequest) (buckets : gmap string (list Time)) :
  XRealIP r <> ""%string ->
  buckets !! TrimSpace (XRealIP r) = None ->
  middleware TrimSpace SplitHostPort now r buckets
  = Go.Ok (Forwarded, <[TrimSpace (XRealIP r) := [now]]> buckets).
Proof.
  intros Hr Hk. unfold middleware.
  destruct (clientIP_key TrimSpace SplitHostPort r) as [ip [Hc [Hip _]]].
  rewrite Hc, (Hip Hr). cbn [mbind outcome_bind Go.bind].
  rewrite RateLimitFacts.allow_spec. unfold Go.index. rewrite Hk.
  cbn [slide List.filter length]. by rewrite bool_decide_eq_true_2 by lia.
Qed.

(** X11.  The limiter trusts the [X-Real-IP] header: requests whose
    headers differ pairwise (after trimming) and have no bucket yet are
    all forwarded, however many there are and whatever peer sends them. *)
Theorem fresh_header_is_never_limited
    (TrimSpace : string -> string)
    (SplitHostPort : string -> option (string * string))
    (reqs : list (Time * HttpRequest)) (buckets : gmap string (list Time)) :
  Forall (fun q => XRealIP q.2 <> ""%string) reqs ->
  NoDup (map (fun q => TrimSpace (XRealIP q.2)) reqs) ->
  Forall (fun q => buckets !! TrimSpace (XRealIP q.2) = None) reqs ->
  exists buckets',
    middlewareAll TrimSpace SplitHostPort reqs buckets
    = Go.Ok (map (fun _ => Forwarded) reqs, buckets').
Proof.
  revert buckets. induction reqs as [|[now r] reqs IH];
    intros buckets Hset Hnd Hfresh.
  - by eexists.
  - apply Forall_cons in Hset as [Hr Hset]. apply Forall_cons in Hfresh as [Hk Hfresh].
    cbn [map snd] in *. apply NoDup_cons in Hnd as [Hnotin Hnd].
    cbn [middlewareAll]. rewrite middleware_fresh by done.
    cbn [mbind outcome_bind Go.bind].
    destruct (IH (<[TrimSpace (XRealIP r) := [now]]> buckets)) as [b' Hb'].
    + done.
    + done.
    + apply Forall_forall. intros q Hq. rewrite lookup_insert_ne.
      * rewrite Forall_forall in Hfresh. by apply Hfresh.
      * intros Heq. apply Hnotin. rewrite Heq.
        apply list_elem_of_In, in_map_iff. exists q. split; [done|].
        by apply list_elem_of_In.
    + rewrite Hb'. cbn. by eexists.
Qed.

End LimiterFacts.

(** ** Credentials *)

Module AuthFacts.

Import auth.

Section Strength.

Variable rune : Type.
Variable runes : string -> list rune.
Variable IsUpper IsLower IsDigit IsLetter : rune -> bool.

Let classify := classify rune IsUpper IsLower IsDigit IsLetter.

(** What the loop has seen after a run of runes. *)
Lemma classify_all (l : list rune) (f : seen) :
  let f' := foldl classify f l in
  hasUpper f' = hasUpper f || existsb IsUpper l /\
  hasLower f' = hasLower f
                || existsb (fun c => negb (IsUpper c) && IsLower c) l /\
  hasDigit f' = hasDigit f
                || existsb (fun c => negb (IsUpper c) && negb (IsLower c)
                                     && IsDigit c) l /\
  hasSpecial f' = hasSpecial f
                  || existsb (fun c => negb (IsUpper c) && negb (IsLower c)
                                       && negb (IsDigit c)
                                       && negb (IsLetter c)) l.
Proof.
  revert f. induction l as [|c l IH]; intros f; cbn zeta.
  - simpl. by rewrite !orb_false_r.
  - cbn [foldl existsb]. destruct (IH (classify f c)) as [H1 [H2 [H3 H4]]].
    cbn zeta in *. rewrite H1, H2, H3, H4.
    unfold classify, auth.classify.
    destruct (IsUpper c), (IsLower c), (IsDigit c), (IsLetter c); cbn;
      rewrite ?orb_true_r, ?orb_false_r; done.
Qed.

(** X12.  In strict mode a password is accepted exactly when it has at
    least 12 bytes and contains an uppercase rune, a lowercase rune, a
    digit, and a rune that is neither letter nor digit (each rune counted
    under the first of these classes it falls in); otherwise exactly when
    it has at least 4 bytes.  Every password accepted in strict mode is
    accepted in non-strict mode. *)
Theorem password_strength (password : string) :
  let check := ValidatePasswordStrength rune runes
                 IsUpper IsLower IsDigit IsLetter password in
  let rs := runes password in
  (check true = None <->
     (12 <= String.length password)%nat /\
     (exists c, c ∈ rs /\ IsUpper c = true) /\
     (exists c, c ∈ rs /\ IsUpper c = false /\ IsLower c = true) /\
     (exists c, c ∈ rs /\ IsUpper c = false /\ IsLower c = false /\
                IsDigit c = true) /\
     (exists c, c ∈ rs /\ IsUpper c = false /\ IsLower c = false /\
                IsDigit c = false /\ IsLetter c = false)) /\
  (check false = None <-> (4 <= String.length password)%nat) /\
  (check true = None -> check false = None).
Proof.
  intros check rs.
  assert (check false = None <-> (4 <= String.length password)%nat) as Hloose.
  { unfold check, ValidatePasswordStrength.
    destruct (Nat.ltb_spec (String.length password) 4); split; try done; lia. }
  assert (check true = None <->
     (12 <= String.length password)%nat /\
     (exists c, c ∈ rs /\ IsUpper c = true) /\
     (exists c, c ∈ rs /\ IsUpper c = false /\ IsLower c = true) /\
     (exists c, c ∈ rs /\ IsUpper c = false /\ IsLower c = false /\
                IsDigit c = true) /\
     (exists c, c ∈ rs /\ IsUpper c = false /\ IsLower c = false /\
                IsDigit c = false /\ IsLetter c = false)) as Hstrict.
  { unfold check, ValidatePasswordStrength.
    destruct (Nat.ltb_spec (String.length password) 12) as [Hshort|Hlong].
    { split; [done | lia]. }
    fold classify. fold rs.
    destruct (classify_all rs
                {| hasUpper := false; hasLower := false;
                   hasDigit := false; hasSpecial := false |})
      as [H1 [H2 [H3 H4]]].
    cbn zeta in *. cbn [hasUpper hasLower hasDigit hasSpecial orb] in *.
    rewrite H1, H2, H3, H4.
    assert (forall (P : rune -> bool) (Q : rune -> Prop),
              (forall c, P c = true <-> Q c) ->
              existsb P rs = true <-> exists c, c ∈ rs /\ Q c) as Hex.
    { intros P Q HPQ. rewrite existsb_exists. split.
      - intros [c [Hin HP]]. exists c. split; [by apply list_elem_of_In|].
        by apply HPQ.
      - intros [c [Hin HQ]]. exists c. split; [by apply list_elem_of_In|].
        by apply HPQ. }
    rewrite <- (Hex IsUpper (fun c => IsUpper c = true)) by done.
    rewrite <- (Hex (fun c => negb (IsUpper c) && IsLower c)
                    (fun c => IsUpper c = false /\ IsLower c = true))
      by (intros c; destruct (IsUpper c), (IsLower c); simpl; intuition congruence).
    rewrite <- (Hex (fun c => negb (IsUpper c) && negb (IsLower c) && IsDigit c)
                    (fun c => IsUpper c = false /\ IsLower c = false /\
                              IsDigit c = true))
      by (intros c; destruct (IsUpper c), (IsLower c), (IsDigit c); simpl;
          intuition congruence).
    rewrite <- (Hex (fun c => negb (IsUpper c) && negb (IsLower c)
                              && negb (IsDigit c) && negb (IsLetter c))
                    (fun c => IsUpper c = false /\ IsLower c = false /\
                              IsDigit c = false /\ IsLetter c = false))
      by (intros c; destruct (IsUpper c), (IsLower c), (IsDigit c),
            (IsLetter c); simpl; intuition congruence).
    destruct (existsb IsUpper rs), (existsb _ rs), (existsb _ rs), (existsb _ rs);
      cbn; split; try done; try (intros [_ H]; intuition congruence);
      intuition lia. }
  split; [exact Hstrict|]. split; [exact Hloose|].
  intros Hs. apply Hloose. apply Hstrict in Hs as [Hlen _]. lia.
Qed.

End Strength.

Section Service.

Variable strict : bool.
Variable checkStrength : string -> bool -> option string.
Variable bcryptHash : string -> string -> Go.outcome string.
Variable bcryptMatches : string -> string -> bool.
Variable issueToken : string -> Go.outcome string.

Let Setup := Setup strict checkStrength bcryptHash issueToken.
Let Login := Login bcryptMatches issueToken.
Let ChangePassword :=
  ChangePassword strict checkStrength bcryptHash bcryptMatches issueToken.

(** X13.  [Setup] succeeds at most once: when it returns a token the
    service is configured, the store is on disk, the password passed the
    strength check, and every later [Setup] is refused with "already
    configured" and changes nothing. *)
Theorem Setup_only_once
    (s s' : Service) (password salt envSecret token : string)
    (secret : Go.outcome string) (writeError : option string) :
  Setup s password salt secret writeError envSecret = (Go.Ok token, s') ->
  IsSetupComplete s = false /\
  checkStrength password strict = None /\
  IsSetupComplete s' = true /\
  persisted s' = store s' /\
  forall password2 salt2 secret2 writeError2 envSecret2,
    Setup s' password2 salt2 secret2 writeError2 envSecret2
    = (Go.Err "already configured", s').
Proof.
  unfold Setup, auth.Setup.
  destruct (IsSetupComplete s) eqn:Hdone; [done|].
  destruct (checkStrength password strict) eqn:Hcheck; [done|].
  destruct (bcryptHash salt password) as [hash| |]; try done.
  destruct secret as [sec| |]; try done.
  destruct writeError as [e|]; cbn [save]; [done|].
  intros [= Htok <-]. cbn [store persisted].
  split; [done|]. split; [done|]. split; [done|]. split; [done|].
  intros password2 salt2 secret2 writeError2 envSecret2. reflexivity.
Qed.

(** X14.  [Setup] installs the new store before it writes the file: when
    the write fails, [Setup] returns the write error, nothing is
    persisted, and yet the service is configured in memory, so a retry is
    refused with "already configured". *)
Theorem Setup_write_failure
    (s : Service) (password salt envSecret hash sec e : string) :
  IsSetupComplete s = false ->
  checkStrength password strict = None ->
  bcryptHash salt password = Go.Ok hash ->
  exists s',
    Setup s password salt (Go.Ok sec) (Some e) envSecret = (Go.Err e, s') /\
    persisted s' = persisted s /\
    store s' = Some {| PasswordHash := hash; JWTSecret := sec;
                       SetupComplete := true |} /\
    IsSetupComplete s' = true /\
    forall password2 salt2 secret2 writeError2 envSecret2,
      Setup s' password2 salt2 secret2 writeError2 envSecret2
      = (Go.Err "already configured", s').
Proof.
  intros Hdone Hcheck Hhash. unfold Setup, auth.Setup.
  rewrite Hdone, Hcheck, Hhash. cbn [save].
  eexists. split; [reflexivity|]. cbn [store persisted].
  split; [done|]. split; [done|]. split; [done|].
  intros password2 salt2 secret2 writeError2 envSecret2. reflexivity.
Qed.

(** X15.  After a successful [Setup], and as long as a hash matches the
    password it was made from, [Login] with the same password issues a
    token signed with the effective secret (the environment's when set,
    else the stored one); [Login] with a password the hash does not match
    is refused, and so is any [Login] before the service is configured. *)
Theorem Login_after_Setup
    (s s' : Service) (password salt envSecret token : string)
    (secret : Go.outcome string) (writeError : option string) :
  (forall salt0 pw hash, bcryptHash salt0 pw = Go.Ok hash ->
                         bcryptMatches hash pw = true) ->
  Setup s password salt secret writeError envSecret = (Go.Ok token, s') ->
  (exists st, store s' = Some st /\
     forall env, Login s' password env = issueToken (jwtSecret env st)) /\
  (forall st other env, store s' = Some st ->
     bcryptMatches (PasswordHash st) other = false ->
     Login s' other env = Go.Err "invalid password") /\
  (forall u pw env, IsSetupComplete u = false ->
     Login u pw env = Go.Err "not configured").
Proof.
  intros Hbcrypt. unfold Setup, auth.Setup.
  destruct (IsSetupComplete s) eqn:Hdone; [done|].
  destruct (checkStrength password strict) eqn:Hcheck; [done|].
  destruct (bcryptHash salt password) as [hash| |] eqn:Hhash; try done.
  destruct secret as [sec| |]; try done.
  destruct writeError as [e|]; cbn [save]; [done|].
  intros [= Htok <-]. cbn [store persisted].
  split; [|split].
  - eexists. split; [reflexivity|]. intros env.
    unfold Login, auth.Login. cbn [store SetupComplete PasswordHash negb].
    by rewrite (Hbcrypt _ _ _ Hhash).
  - intros st other env [= <-] Hno. unfold Login, auth.Login.
    cbn [store SetupComplete PasswordHash negb] in *. by rewrite Hno.
  - intros u pw env Hu. unfold Login, auth.Login. unfold IsSetupComplete in Hu.
    destruct (store u) as [st|]; [|done]. by rewrite Hu.
Qed.

(** X16.  [ChangePassword] changes nothing unless the service is
    configured, the current password matches and the new one passes the
    strength check (and the hash and the secret can be made); when it
    returns a token, the stored hash is the new password's, the stored
    signing secret is the freshly generated one, and both are on disk. *)
Theorem ChangePassword_rotates_secret
    (s : Service) (current newPwd salt envSecret : string)
    (secret : Go.outcome string) (writeError : option string) :
  let result := ChangePassword s current newPwd salt secret writeError envSecret in
  (IsSetupComplete s = false \/
   (exists st, store s = Some st /\
               bcryptMatches (PasswordHash st) current = false) \/
   checkStrength newPwd strict <> None ->
   result.2 = s /\ exists e, result.1 = Go.Err e) /\
  (forall token, result.1 = Go.Ok token ->
     exists hash sec,
       bcryptHash salt newPwd = Go.Ok hash /\ secret = Go.Ok sec /\
       store result.2 = Some {| PasswordHash := hash; JWTSecret := sec;
                                SetupComplete := true |} /\
       persisted result.2 = store result.2 /\
       issueToken (jwtSecret envSecret
                     {| PasswordHash := hash; JWTSecret := sec;
                        SetupComplete := true |}) = Go.Ok token).
Proof.
  intros result. subst result. unfold ChangePassword, auth.ChangePassword.
  unfold IsSetupComplete.
  destruct (store s) as [st|] eqn:Hstore.
  2: { split; [intros _; split; [done | by eexists] | done]. }
  destruct (SetupComplete st) eqn:Hdone; cbn [negb].
  2: { split; [intros _; split; [done | by eexists] | done]. }
  destruct (bcryptMatches (PasswordHash st) current) eqn:Hmatch; cbn [negb].
  2: { split; [intros _; split; [done | by eexists] | done]. }
  destruct (checkStrength newPwd strict) as [e|] eqn:Hcheck.
  { split; [intros _; split; [done | by eexists] | done]. }
  split.
  { intros [H | [[st' [[= <-] H]] | H]]; congruence. }
  destruct (bcryptHash salt newPwd) as [hash| |]; try done.
  destruct secret as [sec| |]; try done.
  destruct writeError as [e|]; cbn [save fst snd]; [done|].
  intros token Htok. exists hash, sec. cbn [store persisted].
  repeat (split; [done|]). exact Htok.
Qed.

End Service.

End AuthFacts.

(** ** Images *)

Module ImagesFacts.

Import container images.

Lemma substring_drop (p t : string) (n : nat) :
  String.substring (String.length p) n (p ++ t)%string = String.substring 0 n t.
Proof. induction p as [|a p IH]; simpl; [done | exact IH]. Qed.

Lemma slice_ok (s : string) (lo hi : nat) :
  (lo <= hi)%nat -> (hi <= String.length s)%nat ->
  slice s lo hi = Go.Ok (String.substring lo (hi - lo) s).
Proof.
  intros H1 H2. unfold slice.
  destruct (Nat.leb_spec lo hi); [|lia].
  destruct (Nat.leb_spec hi (String.length s)); [done | lia].
Qed.

Section Used.

Variable ImageID : container.Summary.t -> string.

Let mark (used : gmap string bool) (c : container.Summary.t) :=
  <[ImageID c := true]> used.

Lemma mark_all (l : list container.Summary.t) (used : gmap string bool)
    (id0 : string) :
  foldl mark used l !! id0 = Some true <->
  used !! id0 = Some true \/ exists c, c ∈ l /\ ImageID c = id0.
Proof.
  revert used. induction l as [|c l IH]; intros used; simpl.
  - split; [by left | intros [? | [c [Hc _]]]; [done | by apply elem_of_nil in Hc]].
  - rewrite IH. unfold mark at 1. split.
    + intros [Hin | [c' [Hc' Hid]]].
      * destruct (decide (ImageID c = id0)) as [Heq|Hne].
        -- right. exists c. split; [by left | done].
        -- rewrite lookup_insert_ne in Hin by done. by left.
      * right. exists c'. split; [by right | done].
    + intros [Hin | [c' [Hc' Hid]]].
      * left. destruct (decide (ImageID c = id0)) as [<-|Hne].
        -- by rewrite lookup_insert_eq.
        -- by rewrite lookup_insert_ne.
      * apply elem_of_cons in Hc' as [-> | Hc'].
        -- left. rewrite <- Hid. by rewrite lookup_insert_eq.
        -- right. by exists c'.
Qed.

Lemma mark_all_true (l : list container.Summary.t) (used : gmap string bool)
    (id0 : string) :
  (forall k b, used !! k = Some b -> b = true) ->
  forall b, foldl mark used l !! id0 = Some b -> b = true.
Proof.
  revert used. induction l as [|c l IH]; intros used Hused b; simpl.
  - apply Hused.
  - apply IH. intros k b'. unfold mark.
    destruct (decide (ImageID c = k)) as [<-|Hne].
    + rewrite lookup_insert_eq. by intros [= <-].
    + rewrite lookup_insert_ne by done. apply Hused.
Qed.

(** An image is in use exactly when some container was made from it. *)
Lemma usedImages_index (containers : list container.Summary.t) (id0 : string) :
  Go.index false (usedImages ImageID containers) id0 = true <->
  exists c, c ∈ containers /\ ImageID c = id0.
Proof.
  unfold Go.index, usedImages. fold mark.
  destruct (foldl mark ∅ containers !! id0) as [b|] eqn:E.
  - assert (b = true) as ->.
    { apply (mark_all_true containers ∅ id0); [|done].
      intros k b'. by rewrite lookup_empty. }
    split; [intros _ | done].
    apply (mark_all containers ∅ id0) in E as [E | E];
      [by rewrite lookup_empty in E | done].
  - split; [done|]. intros Hex.
    assert (foldl mark ∅ containers !! id0 = Some true) as Habs
      by (apply mark_all; by right).
    congruence.
Qed.

(** X17.  [GetImages] returns one entry per listed image, in order, and
    never panics on an image id: the short id is the first twelve bytes
    of the digest for an id [sha256:<digest>] with a digest of at least
    twelve bytes, and the id itself in every other case; an image is
    marked in use exactly when some listed container was created from
    it; nil tags become the empty list.  A failing list call fails the
    whole operation. *)
Theorem GetImages_entries
    (containers : list container.Summary.t) (imgs : list Summary.t) :
  (exists result,
     GetImages ImageID (Go.Ok containers) (Go.Ok imgs) = Go.Ok result /\
     Forall2
       (fun img e =>
          Image.ID e = Summary.ID img /\
          (forall digest, Summary.ID img = ("sha256:" ++ digest)%string ->
             (12 <= String.length digest)%nat ->
             Image.ShortID e = String.substring 0 12 digest) /\
          ((forall digest, Summary.ID img = ("sha256:" ++ digest)%string ->
                           (String.length digest < 12)%nat) ->
           Image.ShortID e = Summary.ID img) /\
          (Image.InUse e = true <->
           exists c, c ∈ containers /\ ImageID c = Summary.ID img) /\
          Image.Tags e = default [] (Summary.RepoTags img))
       imgs result) /\
  (forall e listedImages,
     GetImages ImageID (Go.Err e) listedImages = Go.Err e) /\
  (forall e, GetImages ImageID (Go.Ok containers) (Go.Err e) = Go.Err e).
Proof.
  split; [|split; [done | done]].
  unfold GetImages. cbn [mbind outcome_bind Go.bind].
  apply GoFacts.mapM_Forall2. intros img _. unfold toImage.
  destruct (Go.HasPrefix (Summary.ID img) "sha256:") eqn:Hpre; cbn [andb].
  - apply ApiFacts.prefix_append in Hpre as [digest Hid].
    destruct (Nat.leb_spec 19 (String.length (Summary.ID img))) as [Hlen|Hlen].
    + rewrite slice_ok by lia.
      cbn [mbind outcome_bind Go.bind]. eexists. split; [reflexivity|].
      cbn [Image.ID Image.ShortID Image.InUse Image.Tags].
      split; [done|]. split; [|split; [|split]].
      * intros digest' Hid' _. rewrite Hid'.
        apply (substring_drop "sha256:").
      * intros Hshort. specialize (Hshort digest Hid).
        rewrite Hid, LimiterFacts.length_append in Hlen. simpl in Hlen. lia.
      * apply usedImages_index.
      * by destruct (Summary.RepoTags img).
    + cbn [mbind outcome_bind Go.bind]. eexists. split; [reflexivity|].
      cbn [Image.ID Image.ShortID Image.InUse Image.Tags].
      split; [done|]. split; [|split; [|split]].
      * intros digest' Hid' Hlong.
        rewrite Hid', LimiterFacts.length_append in Hlen. simpl in Hlen. lia.
      * done.
      * apply usedImages_index.
      * by destruct (Summary.RepoTags img).
  - cbn [mbind outcome_bind Go.bind]. eexists. split; [reflexivity|].
    cbn [Image.ID Image.ShortID Image.InUse Image.Tags].
    split; [done|]. split; [|split; [|split]].
    + intros digest Hid _.
      assert (Go.HasPrefix (Summary.ID img) "sha256:" = true) as Habs
        by (apply ApiFacts.prefix_append; by exists digest).
      congruence.
    + done.
    + apply usedImages_index.
    + by destruct (Summary.RepoTags img).
Qed.

End Used.

End ImagesFacts.

(** ** Stack actions *)

Module ActionsFacts.

Import actions.

(** The lookup by name finds the first configured stack of that name. *)
Lemma findCompose_first (composes : list config.ComposeConfig.t)
    (name : string) (cc : config.ComposeConfig.t) :
  findCompose composes name = Some cc <->
  exists before after,
    composes = before ++ cc :: after /\
    config.ComposeConfig.Name cc = name /\
    Forall (fun c => config.ComposeConfig.Name c <> name) before.
Proof.
  induction composes as [|c composes IH]; simpl.
  - split; [done | intros [[|? ?] [after [H _]]]; discriminate H].
  - destruct (String.eqb_spec (config.ComposeConfig.Name c) name) as [Heq|Hne].
    + split.
      * intros [= <-]. exists [], composes. done.
      * intros [[|b before] [after [Hsplit [Hname Hnot]]]].
        -- by injection Hsplit as ->.
        -- injection Hsplit as -> _. apply Forall_cons in Hnot as [? _]. done.
    + rewrite IH. split.
      * intros [before [after [-> [Hname Hnot]]]].
        exists (c :: before), after. split; [done|]. split; [done|].
        by constructor.
      * intros [[|b before] [after [Hsplit [Hname Hnot]]]].
        -- injection Hsplit as -> _. done.
        -- injection Hsplit as -> ->. apply Forall_cons in Hnot as [_ Hnot].
           by exists before, after.
Qed.

Lemma findCompose_none (composes : list config.ComposeConfig.t) (name : string) :
  findCompose composes name = None <->
  Forall (fun c => config.ComposeConfig.Name c <> name) composes.
Proof.
  induction composes as [|c composes IH]; simpl; [split; [constructor | done]|].
  destruct (String.eqb_spec (config.ComposeConfig.Name c) name) as [Heq|Hne].
  - split; [done|]. intros H. apply Forall_cons in H as [? _]. done.
  - rewrite IH, Forall_cons. tauto.
Qed.

(** The binary found at start-up is never the empty command. *)
Lemma detectComposeBinary_cases (v2 : Go.outcome string) (v1 : bool) :
  detectComposeBinary v2 v1 = ["docker"; "compose"]%string \/
  detectComposeBinary v2 v1 = ["docker-compose"%string].
Proof.
  unfold detectComposeBinary.
  destruct v2 as [out| |]; [destruct (Contains out "version")|..];
    destruct v1; auto.
Qed.

(** X18.  With the compose binary detected at start-up, whatever the
    probes answered, [ComposeAction] never panics.  It runs nothing and
    reports "compose stack not found" when no configured stack has the
    name, and runs nothing and reports "unknown compose action" for an
    action other than start, stop and restart.  Otherwise it runs exactly
    one command, in the directory of the first configured stack of that
    name: the detected binary followed by [up -d], by [down] (and [-v]
    exactly when volumes are to be removed), or by [restart]; a failing
    command is reported with its combined output. *)
Theorem ComposeAction_command
    (v2 : Go.outcome string) (v1 : bool)
    (composes : list config.ComposeConfig.t) (run : Cmd -> string * bool)
    (name action : string) (removeVolumes : bool) :
  let binary := detectComposeBinary v2 v1 in
  let result := ComposeAction binary composes run name action removeVolumes in
  let verb :=
    if String.eqb action "start" then Some ["up"; "-d"]%string
    else if String.eqb action "stop"
    then Some (if removeVolumes then ["down"; "-v"]%string else ["down"%string])
    else if String.eqb action "restart" then Some ["restart"%string]
    else None in
  (Forall (fun c => config.ComposeConfig.Name c <> name) composes ->
   result = (Go.Err ("compose stack not found: " ++ name), [])) /\
  (forall before cc after,
     composes = before ++ cc :: after ->
     config.ComposeConfig.Name cc = name ->
     Forall (fun c => config.ComposeConfig.Name c <> name) before ->
     match verb with
     | None => result = (Go.Err ("unknown compose action: " ++ action), [])
     | Some words =>
         exists cmd,
           Path cmd :: Args cmd = binary ++ words /\
           Dir cmd = config.ComposeConfig.Path cc /\
           result.2 = [cmd] /\
           result.1 = (if (run cmd).2
                       then Go.Err ("compose " ++ action ++ ": " ++ (run cmd).1)
                       else Go.Ok tt)
     end).
Proof.
  intros binary result verb. split.
  - intros Hnone. apply findCompose_none in Hnone.
    subst result. unfold ComposeAction. by rewrite Hnone.
  - intros before cc after Hsplit Hname Hfirst.
    assert (findCompose composes name = Some cc) as Hfound
      by (apply findCompose_first; by exists before, after).
    subst result verb. unfold ComposeAction. rewrite Hfound.
    destruct (detectComposeBinary_cases v2 v1) as [Hb | Hb];
      subst binary; rewrite Hb; cbn [tail1 head0];
      destruct (String.eqb action "start");
      [| destruct (String.eqb action "stop");
         [| destruct (String.eqb action "restart"); [|reflexivity]] | |
         destruct (String.eqb action "stop");
         [| destruct (String.eqb action "restart"); [|reflexivity]]];
      cbn [mbind outcome_bind Go.bind app];
      try destruct removeVolumes; cbn [app];
      match goal with
      | |- context [run ?c] =>
          exists c; destruct (run c) as [out failed]; destruct failed; done
      end.
Qed.

End ActionsFacts.

(** ** The container list, whatever the schedule *)

Module ContainersFacts.

Import container docker.

Lemma mapM_ext {A B} (f g : A -> Go.outcome B) (l : list A) :
  (forall x, x ∈ l -> f x = g x) -> Go.mapM f l = Go.mapM g l.
Proof.
  induction l as [|x l IH]; intros H; simpl; [done|].
  rewrite (H x) by left. rewrite IH; [done|]. intros y Hy. apply H. by right.
Qed.

Lemma mapM_inv {A B} (f : A -> Go.outcome B) (l : list A) (ys : list B) :
  Go.mapM f l = Go.Ok ys -> Forall2 (fun x y => f x = Go.Ok y) l ys.
Proof.
  revert ys; induction l as [|x l IH]; intros ys; simpl.
  - intros [= <-]. constructor.
  - destruct (f x) as [y| |] eqn:Hx; simpl; try done.
    destruct (Go.mapM f l) as [ys'| |]; simpl; try done.
    intros [= <-]. constructor; [done | by apply IH].
Qed.

(** X19.  With distinct identifiers the result of [GetContainers] does
    not depend on the order in which the goroutines deliver their
    samples. *)
Theorem GetContainers_any_schedule
    (batch : list Summary.t) (CS : string -> StatsReply)
    (schedule1 schedule2 : list nat) :
  NoDup (map Summary.ID batch) ->
  (GetContainers (Go.Ok batch) CS schedule1).1
  = (GetContainers (Go.Ok batch) CS schedule2).1.
Proof.
  intros Hnd. cbn [GetContainers fst].
  set (runs := map (fun c => statsWorker CS (Summary.ID c)
                               (String.eqb (Summary.State c) "running")) batch).
  assert (forall schedule c, c ∈ batch ->
            drain (map fst (Go.shuffle schedule runs)) !! Summary.ID c
            = Some (statsWorker CS (Summary.ID c)
                      (String.eqb (Summary.State c) "running")).1) as Hlook.
  { intros schedule c Hc.
    pose proof (GoFacts.shuffle_perm schedule runs) as Hperm.
    rewrite <- (AggregatorFacts.statsWorker_id CS (Summary.ID c)
                  (String.eqb (Summary.State c) "running")) at 1.
    apply AggregatorFacts.drain_lookup.
    - rewrite Hperm. subst runs. rewrite !map_map.
      erewrite map_ext; [exact Hnd|]. intros a.
      apply AggregatorFacts.statsWorker_id.
    - rewrite Hperm. subst runs. rewrite map_map.
      apply list_elem_of_In, in_map_iff. exists c. split; [done|].
      by apply list_elem_of_In. }
  apply mapM_ext. intros c Hc. unfold toContainer, Go.index.
  by rewrite !Hlook.
Qed.

Lemma substring_length (s : string) (n : nat) :
  (n <= String.length s)%nat -> String.length (String.substring 0 n s) = n.
Proof.
  revert n; induction s as [|a s IH]; intros [|n] Hn; simpl in *; try done.
  - lia.
  - rewrite IH; [done | lia].
Qed.

Lemma substring_prefix (s : string) (n : nat) :
  String.prefix (String.substring 0 n s) s = true.
Proof.
  revert n; induction s as [|a s IH]; intros [|n]; simpl; try done.
  destruct (ascii_dec a a); [apply IH | done].
Qed.

(** X20.  Every entry [GetContainers] returns carries a short id of
    exactly twelve bytes that is a prefix of the full id; its name is the
    first engine name without the leading slash, or "unknown" when the
    engine gave no name; its stack is the compose project label, empty
    when the container has none. *)
Theorem GetContainers_entry_identity
    (batch : list Summary.t) (CS : string -> StatsReply)
    (schedule : list nat) (result : list models.Container.t) :
  (GetContainers (Go.Ok batch) CS schedule).1 = Go.Ok result ->
  Forall2
    (fun c r =>
       models.Container.FullID r = Summary.ID c /\
       String.length (models.Container.ID r) = 12%nat /\
       Go.HasPrefix (models.Container.FullID r) (models.Container.ID r) = true /\
       models.Container.Name r =
         match Summary.Names c with
         | [] => "unknown"%string
         | n :: _ => Go.TrimPrefix n "/"
         end /\
       models.Container.Compose r =
         default ""%string (Summary.Labels c !! "com.docker.compose.project"%string) /\
       length (models.Container.Ports r) = length (Summary.Ports c))
    batch result.
Proof.
  cbn [GetContainers fst]. intros Hres. apply mapM_inv in Hres.
  eapply Forall2_impl; [exact Hres|]. intros c r. cbn beta.
  unfold toContainer, Go.slice_to.
  destruct (Nat.leb_spec 12 (String.length (Summary.ID c))) as [Hlen|Hlen];
    [|done].
  cbn [mbind outcome_bind Go.bind]. intros [= <-].
  cbn [models.Container.FullID models.Container.ID models.Container.Name
       models.Container.Compose models.Container.Ports].
  split; [done|]. split; [by apply substring_length|].
  split; [apply substring_prefix|]. split; [by destruct (Summary.Names c)|].
  split; [|by rewrite length_map].
  unfold Go.index. by destruct (Summary.Labels c !! _).
Qed.

(** X21.  On well-formed [uint64] figures the reported memory never
    exceeds the raw usage and never wraps around; it is 0 exactly when
    the cache figure is at least the usage. *)
Theorem calcMemory_bounds (stats : StatsResponse.t) :
  let m := StatsResponse.MemoryStats stats in
  let cache := Go.index 0%Z (MemoryStats.Stats m) "cache" in
  is_u64 (MemoryStats.Usage m) -> is_u64 cache ->
  (0 <= (calcMemory stats).1 <= MemoryStats.Usage m)%Z /\
  ((calcMemory stats).1 = 0%Z <-> (MemoryStats.Usage m <= cache)%Z) /\
  ((cache < MemoryStats.Usage m)%Z ->
   ((calcMemory stats).1 + cache = MemoryStats.Usage m)%Z).
Proof.
  intros m cache Hu Hc.
  pose proof (StatsFacts.calcMemory_spec stats Hu Hc) as Hspec.
  cbn zeta in Hspec. rewrite Hspec. cbn [fst]. clear Hspec.
  subst cache m. unfold is_u64, u64 in *. case_decide; lia.
Qed.

End ContainersFacts.

(** ** Stacks: declaration files, grouping and binding *)

Module StacksFacts.

Import container compose.

Section Grouping.

Let add (byProject : gmap string (list Summary.t)) (c : Summary.t) :=
  let proj := label c "com.docker.compose.project" in
  if negb (String.eqb proj "")
  then <[proj := Go.index [] byProject proj ++ [c]]> byProject
  else byProject.

(** X22.  Grouping by project label: the group of a non-empty project
    name is the list of the containers that carry that name in their
    project label, in listing order; a container without the label, or
    with an empty one, is in no group. *)
Theorem groupByProject_groups (allContainers : list Summary.t) (proj : string) :
  Go.index [] (groupByProject allContainers) proj =
    if decide (proj = ""%string) then []
    else filter (fun c => label c "com.docker.compose.project" = proj)
           allContainers.
Proof.
  unfold groupByProject. fold add.
  induction allContainers as [|c l IH] using rev_ind.
  - simpl. unfold Go.index. rewrite lookup_empty. by case_decide.
  - rewrite foldl_snoc, filter_app. unfold add at 1.
    destruct (String.eqb_spec (label c "com.docker.compose.project") "")
      as [Hz|Hnz]; cbn [negb].
    + rewrite IH. case_decide as Hproj; [done|].
      rewrite filter_cons_False by congruence. by rewrite app_nil_r.
    + destruct (decide (label c "com.docker.compose.project" = proj)) as [<-|Hne].
      * rewrite RateLimitFacts.index_insert, IH.
        repeat case_decide; try done.
        by rewrite filter_cons_True by done.
      * unfold Go.index in *. rewrite lookup_insert_ne by done. rewrite IH.
        case_decide; [done|].
        rewrite filter_cons_False by done. by rewrite app_nil_r.
Qed.

End Grouping.

Section Files.

Variable host : Host.

Let parses (p : string) : option composeFile :=
  match ReadFile host p with
  | Some data => yaml_Unmarshal host data
  | None => None
  end.

Lemma firstParsed_spec (paths : list string) (cf : composeFile) :
  firstParsed host paths = Some cf <->
  exists i p, paths !! i = Some p /\ parses p = Some cf /\
    forall j q, (j < i)%nat -> paths !! j = Some q -> parses q = None.
Proof.
  induction paths as [|p paths IH]; simpl.
  - split; [done | by intros [i [q [H _]]]].
  - assert (firstParsed host (p :: paths)
            = match parses p with Some c => Some c | None => firstParsed host paths end)
      as Hstep.
    { simpl. unfold parses. destruct (ReadFile host p); [|done].
      by destruct (yaml_Unmarshal host s). }
    simpl in Hstep. rewrite Hstep. clear Hstep.
    destruct (parses p) as [c|] eqn:Hp.
    + split.
      * intros [= <-]. exists 0%nat, p. split; [done|]. split; [done|].
        intros j q Hj. lia.
      * intros [[|i] [q [Hq [Hcf Hbefore]]]].
        -- injection Hq as <-. congruence.
        -- specialize (Hbefore 0%nat p ltac:(lia) eq_refl). congruence.
    + rewrite IH. split.
      * intros [i [q [Hq [Hcf Hbefore]]]]. exists (S i), q.
        split; [done|]. split; [done|].
        intros [|j] q' Hj Hq'; [by injection Hq' as <- |].
        apply (Hbefore j); [lia | done].
      * intros [[|i] [q [Hq [Hcf Hbefore]]]].
        -- injection Hq as <-. congruence.
        -- exists i, q. split; [done|]. split; [done|].
           intros j q' Hj Hq'. apply (Hbefore (S j)); [lia | done].
Qed.

(** X23.  The declaration of a stack is the first of
    [docker-compose.yml], [docker-compose.yaml], [compose.yml],
    [compose.yaml] (in this order, inside the stack's directory) that can
    be read and parsed: a file that is missing or does not parse is
    skipped, and a later file is never preferred to an earlier one that
    parses. *)
Theorem readComposeFile_priority (dir : string) (cf : composeFile) :
  let names := ["docker-compose.yml"; "docker-compose.yaml";
                "compose.yml"; "compose.yaml"]%string in
  readComposeFile host dir = Some cf <->
  exists i name, names !! i = Some name /\
    parses (filepath_Join host dir name) = Some cf /\
    forall j earlier, (j < i)%nat -> names !! j = Some earlier ->
      parses (filepath_Join host dir earlier) = None.
Proof.
  intros names. unfold readComposeFile. rewrite firstParsed_spec.
  assert (candidates host dir = map (filepath_Join host dir) names) as ->
    by reflexivity.
  split.
  - intros [i [p [Hp [Hcf Hbefore]]]].
    rewrite AggregatorFacts.lookup_map in Hp.
    destruct (names !! i) as [name|] eqn:Hname; [|done]. injection Hp as <-.
    exists i, name. split; [done|]. split; [done|].
    intros j earlier Hj Hearlier. apply (Hbefore j); [done|].
    by rewrite AggregatorFacts.lookup_map, Hearlier.
  - intros [i [name [Hname [Hcf Hbefore]]]].
    exists i, (filepath_Join host dir name).
    split; [by rewrite AggregatorFacts.lookup_map, Hname|]. split; [done|].
    intros j q Hj Hq. rewrite AggregatorFacts.lookup_map in Hq.
    destruct (names !! j) as [earlier|] eqn:He; [|done]. injection Hq as <-.
    by apply (Hbefore j).
Qed.

(** X24.  A stack whose directory holds no declaration that can be read
    and parsed still gets a snapshot: no services, status "stopped",
    whatever the engine reports, even containers with malformed
    identifiers. *)
Theorem buildStack_without_declaration
    (seed : list nat) (cc : config.ComposeConfig.t)
    (byProject : gmap string (list Summary.t)) :
  readComposeFile host (config.ComposeConfig.Path cc) = None ->
  buildStack host seed cc byProject =
    Go.Ok {| models.ComposeStack.Name := config.ComposeConfig.Name cc;
             models.ComposeStack.Path := config.ComposeConfig.Path cc;
             models.ComposeStack.Status := "stopped";
             models.ComposeStack.Services := [];
             models.ComposeStack.Host := "" |}.
Proof.
  intros Hnone. unfold buildStack, parseServiceNames. by rewrite Hnone.
Qed.

(** X25.  In every snapshot [buildStack] returns, a declared service
    with a non-empty name is bound to the last listed container of the
    project that carries the name in its service label: the entry has
    that container's twelve-byte short id, its status and its state, and
    is running exactly when that state is "running". *)
Theorem buildStack_binds_last_container
    (seed : list nat) (cc : config.ComposeConfig.t)
    (byProject : gmap string (list Summary.t))
    (stack : models.ComposeStack.t) :
  buildStack host seed cc byProject = Go.Ok stack ->
  let live := Go.index [] byProject
                (resolveProjectName host (config.ComposeConfig.Path cc)) in
  forall svc c,
    svc ∈ models.ComposeStack.Services stack ->
    models.ComposeService.Name svc <> ""%string ->
    last (filter (fun c => label c "com.docker.compose.service"
                           = models.ComposeService.Name svc) live) = Some c ->
    models.ComposeService.ContainerID svc
      = String.substring 0 12 (Summary.ID c) /\
    String.length (models.ComposeService.ContainerID svc) = 12%nat /\
    models.ComposeService.Status svc = Summary.Status c /\
    models.ComposeService.State svc = Summary.State c /\
    (models.ComposeService.Running svc = true <->
     Summary.State c = "running"%string).
Proof.
  intros Hb live svc c Hsvc Hname Hlast.
  apply ReconcilerFacts.buildStack_inv in Hb as [svcs [-> HF]].
  cbn [models.ComposeStack.Services] in Hsvc.
  apply list_elem_of_lookup in Hsvc as [i Hi].
  destruct (Forall2_lookup_r _ _ _ _ _ HF Hi) as [name [_ Hof]].
  pose proof (ReconcilerFacts.serviceOf_running _ _ _ Hof) as [Heq _].
  subst name. unfold serviceOf in Hof.
  fold live in Hof.
  rewrite ReconcilerFacts.containerByService_lookup in Hof.
  rewrite decide_False in Hof by done. rewrite Hlast in Hof.
  unfold Go.slice_to in Hof.
  destruct (Nat.leb_spec 12 (String.length (Summary.ID c))) as [Hlen|Hlen];
    [|done].
  cbn [mbind outcome_bind Go.bind] in Hof. injection Hof as <-.
  cbn [models.ComposeService.ContainerID models.ComposeService.Status
       models.ComposeService.State models.ComposeService.Running].
  split; [done|]. split; [by apply ContainersFacts.substring_length|].
  split; [done|]. split; [done|]. apply String.eqb_eq.
Qed.

(** X26.  [GetComposeStacks] fails when the engine list fails; when it
    returns, it returns one snapshot per configured stack, in
    configuration order, under the configured name and path; and it
    returns whenever every listed identifier has at least twelve bytes. *)
Theorem GetComposeStacks_one_per_stack
    (allContainers : list Summary.t)
    (composes : list config.ComposeConfig.t) (seeds : nat -> list nat) :
  (forall e, GetComposeStacks host (Go.Err e) composes seeds = Go.Err e) /\
  (forall stacks,
     GetComposeStacks host (Go.Ok allContainers) composes seeds = Go.Ok stacks ->
     Forall2 (fun cc stack =>
                models.ComposeStack.Name stack = config.ComposeConfig.Name cc /\
                models.ComposeStack.Path stack = config.ComposeConfig.Path cc)
             composes stacks) /\
  (Forall (fun c => (12 <= String.length (Summary.ID c))%nat) allContainers ->
   exists stacks,
     GetComposeStacks host (Go.Ok allContainers) composes seeds = Go.Ok stacks).
Proof.
  split; [done|].
  unfold GetComposeStacks. cbn [mbind outcome_bind Go.bind].
  set (byProject := groupByProject allContainers).
  assert (forall (k : nat -> nat) (l : list config.ComposeConfig.t),
            map snd (imap (fun i cc => (k i, cc)) l) = l) as Hsnd.
  { intros k l. revert k. induction l as [|cc l IH]; intros k; [done|].
    simpl. f_equal. apply (IH (k ∘ S)). }
  split.
  - intros stacks Hres. apply ContainersFacts.mapM_inv in Hres.
    rewrite <- (Hsnd id composes) at 1.
    apply Forall2_fmap_l. eapply Forall2_impl; [exact Hres|].
    intros [i cc] stack Hb. cbn [snd].
    apply ReconcilerFacts.buildStack_inv in Hb as [svcs [-> _]]. done.
  - intros Hlen.
    destruct (GoFacts.mapM_Forall2
                (fun '(i, cc) => buildStack host (seeds i) cc byProject)
                (fun _ _ => True)
                (imap (fun i cc => (i, cc)) composes)) as [stacks [Hres _]].
    + intros [i cc] _.
      destruct (ReconcilerFacts.buildStack_ok host (seeds i) cc byProject)
        as [svcs [Hb _]]; [|by eexists].
      apply Forall_forall. intros c Hc. unfold byProject in Hc.
      rewrite groupByProject_groups in Hc. case_decide; [by apply elem_of_nil in Hc|].
      apply list_elem_of_filter in Hc as [_ Hc].
      rewrite Forall_forall in Hlen. by apply Hlen.
    + by exists stacks.
Qed.

End Files.

End StacksFacts.

(** ** The properties above at sample inputs *)

Module Instances.

Import RateLimit Limiter.
Local Open Scope Z_scope.

Lemma save_then_load_witness :
  (Settings.save samples.marshalSettings samples.diskWrites
     samples.decodeSettings (Settings.applyDefaults Settings.zeroSettings) Settings.NotExist).1
  = None /\
  (Settings.NewService
     (Settings.save samples.marshalSettings samples.diskWrites
        samples.decodeSettings (Settings.applyDefaults Settings.zeroSettings) Settings.NotExist).2
   = Go.Ok (Settings.applyDefaults Settings.zeroSettings) <->
   Settings.AdminFeatures (Settings.applyDefaults Settings.zeroSettings) <> Settings.zeroFeatureSet /\
   Settings.PublicFeatures (Settings.applyDefaults Settings.zeroSettings) <> Settings.zeroFeatureSet).
Proof.
  eapply SettingsMore.save_then_load; reflexivity.
Defined.

Lemma at_most_five_per_window_witness :
  le (length (List.filter (fun u => 7 * Second - 60 * Second <? u)
                ([1 * Second; 3 * Second; 5 * Second; 6 * Second]
                 ++ [7 * Second])))
     5%nat.
Proof.
  apply (LimiterFacts.at_most_five_per_window examples.peer examples.traffic
           ∅ 0) with (after := []).
  - repeat split; vm_compute; discriminate.
  - reflexivity.
  - reflexivity.
Defined.

Lemma gc_is_transparent_to_allow_witness :
  (allow (90 * Second) examples.peer
     (gcTick (70 * Second) examples.someBuckets)).1
  = (allow (90 * Second) examples.peer examples.someBuckets).1 /\
  (allow (90 * Second) examples.peer
     (gcTick (70 * Second) examples.someBuckets)).2 !! examples.peer
  = (allow (90 * Second) examples.peer examples.someBuckets).2 !! examples.peer.
Proof.
  apply LimiterFacts.gc_is_transparent_to_allow. vm_compute. discriminate.
Defined.

Lemma buckets_hold_at_most_five_witness :
  le (length [1 * Second; 3 * Second; 5 * Second; 6 * Second; 7 * Second])
     5%nat.
Proof.
  apply (LimiterFacts.buckets_hold_at_most_five examples.peer examples.traffic
           examples.peer).
  reflexivity.
Defined.

Lemma fresh_header_is_never_limited_witness :
  exists buckets',
    middlewareAll id (fun _ => None) examples.spoofedBurst ∅
    = Go.Ok ([Forwarded; Forwarded; Forwarded; Forwarded; Forwarded; Forwarded],
             buckets').
Proof.
  apply (LimiterFacts.fresh_header_is_never_limited id (fun _ => None)
           examples.spoofedBurst ∅).
  - repeat constructor; discriminate.
  - apply (bool_decide_unpack _). vm_compute. exact I.
  - repeat constructor.
Defined.

Lemma Setup_only_once_witness :
  auth.IsSetupComplete examples.configured = true /\
  auth.Setup true examples.toyStrength examples.toyHash examples.toyToken
    examples.configured "another one" "salt" (Go.Ok "0ther"%string) None ""
  = (Go.Err "already configured", examples.configured).
Proof.
  destruct (AuthFacts.Setup_only_once true examples.toyStrength
              examples.toyHash examples.toyToken
              examples.fresh examples.configured
              "correct horse" "salt" "" "signed with 5ecret"
              (Go.Ok "5ecret"%string) None eq_refl)
    as [_ [_ [Hdone [_ Hagain]]]].
  split; [exact Hdone | apply Hagain].
Defined.

Lemma Setup_write_failure_witness :
  exists s',
    auth.Setup true examples.toyStrength examples.toyHash examples.toyToken
      examples.fresh "correct horse" "salt" (Go.Ok "5ecret"%string)
      (Some "disk full"%string) ""
    = (Go.Err "disk full", s') /\
    auth.persisted s' = None /\ auth.IsSetupComplete s' = true.
Proof.
  destruct (AuthFacts.Setup_write_failure true examples.toyStrength
              examples.toyHash examples.toyToken examples.fresh
              "correct horse" "salt" "" "$2a$10$correct horse" "5ecret"
              "disk full" eq_refl eq_refl eq_refl)
    as [s' [Hres [Hpers [_ [Hdone _]]]]].
  exists s'. split; [exact Hres | split; [exact Hpers | exact Hdone]].
Defined.

Lemma Login_after_Setup_witness :
  auth.Login examples.toyMatches examples.toyToken examples.configured
    "correct horse" ""
  = Go.Ok "signed with 5ecret"%string /\
  auth.Login examples.toyMatches examples.toyToken examples.configured
    "battery staple" ""
  = Go.Err "invalid password".
Proof.
  destruct (AuthFacts.Login_after_Setup true examples.toyStrength
              examples.toyHash examples.toyMatches examples.toyToken
              examples.fresh examples.configured
              "correct horse" "salt" "" "signed with 5ecret"
              (Go.Ok "5ecret"%string) None)
    as [[st [Hst Hlogin]] [Hwrong _]].
  - intros salt0 pw hash [= <-]. apply String.eqb_refl.
  - reflexivity.
  - injection Hst as <-. split.
    + apply Hlogin.
    + eapply Hwrong; reflexivity.
Defined.

Lemma GetContainers_any_schedule_witness :
  (docker.GetContainers (Go.Ok samples.batch) samples.engineStats [2; 0; 1]%nat).1
  = (docker.GetContainers (Go.Ok samples.batch) samples.engineStats []).1.
Proof.
  apply ContainersFacts.GetContainers_any_schedule.
  apply (bool_decide_unpack _). vm_compute. exact I.
Defined.

Lemma GetContainers_entry_identity_witness :
  Forall2
    (fun c r =>
       String.length (models.Container.ID r) = 12%nat /\
       Go.HasPrefix (models.Container.FullID r) (models.Container.ID r) = true)
    samples.batch examples.listedBatch.
Proof.
  eapply Forall2_impl.
  - apply (ContainersFacts.GetContainers_entry_identity samples.batch
             samples.engineStats [] examples.listedBatch).
    reflexivity.
  - intros c r [_ [Hlen [Hpre _]]]. split; [exact Hlen | exact Hpre].
Defined.

Lemma calcMemory_bounds_witness :
  (0 <= (docker.calcMemory samples.statsFourCPUs).1 <= 5000)%Z.
Proof.
  apply (proj1 (ContainersFacts.calcMemory_bounds samples.statsFourCPUs
                  ltac:(split; [vm_compute; discriminate | reflexivity])
                  ltac:(split; [vm_compute; discriminate | reflexivity]))).
Defined.

Lemma buildStack_without_declaration_witness :
  compose.buildStack samples.bareHost [] samples.shop
    (compose.groupByProject [samples.stub])
  = Go.Ok samples.shopStack.
Proof.
  apply (StacksFacts.buildStack_without_declaration samples.bareHost [] samples.shop).
  reflexivity.
Defined.

Lemma buildStack_binds_last_container_witness :
  models.ComposeService.ContainerID examples.webEntry
    = String.substring 0 12 samples.webID /\
  (models.ComposeService.Running examples.webEntry = true <->
   container.Summary.State samples.web = "running"%string).
Proof.
  destruct (StacksFacts.buildStack_binds_last_container samples.shopHost []
              samples.shop (compose.groupByProject samples.batch)
              examples.shopSnapshot eq_refl examples.webEntry samples.web)
    as [Hid [_ [_ [_ Hrun]]]].
  - apply ReconcilerFacts.in_names. vm_compute. tauto.
  - discriminate.
  - reflexivity.
  - split; [exact Hid | exact Hrun].
Defined.

End Instances.
